(** * ST-BasicSpotify: the MPRIS server plugin and the player extension

    A shallow embedding of the two JavaScript sources of the repository,

    - [plugins/mpris/index.mjs]: the server plugin that drives [playerctl];
    - [index.js]: the browser extension (token handling, state fetching,
      progress rendering, polling),

    followed by the properties proved of them.

    Conventions of the embedding.  A JavaScript number is a [num]: [NaN], an
    infinity, or a finite value held as the exact rational it denotes (the
    sign of zero is not modelled).  The operations on numbers and the
    numeric parsers give exact results, and [binary64] rounds a result to
    the nearest binary64 number.  The plugin's conversion to milliseconds,
    [JSON.parse] and [formatTime] round every result, as the machine does;
    the arithmetic on token expiry and on the progress bar is exact.  A
    JavaScript string is a [string] of bytes, so [length] counts bytes and
    only ASCII white space is recognised by [trim].  A promise is run to
    completion in place: every [await] is a call.  The one exception is
    [updatePlayerUI]: its runs suspended at their [await] are followed in
    [Inflight]. *)

From Stdlib Require Import ZArith QArith Qpower Qround String Ascii List Bool Lia Lqa.
From Stdlib Require Import DecimalString.
Import ListNotations.
Local Open Scope string_scope.
Local Open Scope list_scope.
Local Open Scope Z_scope.

(* ================================================================= *)
(** ** JavaScript values and the built-ins the sources call *)

Module JS.

(** *** Numbers *)

Inductive num : Type :=
| NaN
| Inf (neg : bool)
| Fin (q : Q).

Definition Qzero_b (q : Q) : bool :=
  match Qcompare q 0 with Eq => true | _ => false end.

Definition Qneg_b (q : Q) : bool :=
  match Qcompare q 0 with Lt => true | _ => false end.

Definition num_of_Z (z : Z) : num := Fin (inject_Z z).

Definition num_neg (a : num) : num :=
  match a with
  | NaN => NaN
  | Inf s => Inf (negb s)
  | Fin x => Fin (Qred (- x))
  end.

(** The exact sum, difference, product and quotient of two numbers; the
    machine's result is the exact one rounded by [binary64], below. *)
Definition num_add (a b : num) : num :=
  match a, b with
  | NaN, _ | _, NaN => NaN
  | Inf s, Inf t => if Bool.eqb s t then Inf s else NaN
  | Inf s, Fin _ | Fin _, Inf s => Inf s
  | Fin x, Fin y => Fin (Qred (x + y))
  end.

Definition num_sub (a b : num) : num := num_add a (num_neg b).

Definition num_mul (a b : num) : num :=
  match a, b with
  | NaN, _ | _, NaN => NaN
  | Inf s, Inf t => Inf (xorb s t)
  | Inf s, Fin y | Fin y, Inf s =>
      if Qzero_b y then NaN else Inf (xorb s (Qneg_b y))
  | Fin x, Fin y => Fin (Qred (x * y))
  end.

Definition num_div (a b : num) : num :=
  match a, b with
  | NaN, _ | _, NaN => NaN
  | Inf _, Inf _ => NaN
  | Inf s, Fin y => Inf (xorb s (Qneg_b y))
  | Fin _, Inf _ => Fin 0
  | Fin x, Fin y =>
      if Qzero_b y
      then (if Qzero_b x then NaN else Inf (Qneg_b x))
      else Fin (Qred (x / y))
  end.

(** [Math.floor] *)
Definition Math_floor (a : num) : num :=
  match a with
  | Fin x => Fin (inject_Z (Qfloor x))
  | _ => a
  end.

(** [a > b]; every comparison with [NaN] is false. *)
Definition num_gt (a b : num) : bool :=
  match a, b with
  | NaN, _ | _, NaN => false
  | Inf s, Inf t => negb s && t
  | Inf s, Fin _ => negb s
  | Fin _, Inf t => t
  | Fin x, Fin y => match Qcompare x y with Gt => true | _ => false end
  end.

(** *** Rounding to binary64

    The operations above are exact.  Where the sources compute with
    fractions, the result of each operation is rounded to the nearest
    binary64 number, as the machine does. *)

(** The integer nearest to [n / d], for [d > 0]; of two that are equally
    near, the even one. *)
Definition nearest_even (n d : Z) : Z :=
  let q := n / d in
  match 2 * (n mod d) ?= d with
  | Lt => q
  | Gt => q + 1
  | Eq => if Z.even q then q else q + 1
  end.

(** The exponent of the last place of the binary64 numbers around a
    positive [q]: the [e] with [2 ^ (e + 52) <= q < 2 ^ (e + 53)], and
    [-1074] for the numbers below the normal range. *)
Definition last_place (q : Q) : Z :=
  let l := Z.log2 (Qnum q) - Z.log2 (Zpos (Qden q)) in
  Z.max (if Qle_bool (2 ^ l) q then l - 52 else l - 53) (-1074).

(** The binary64 number nearest to a positive [q]: a multiple [m * 2 ^ e] of
    the last place, or infinity from [2 ^ 1024] on. *)
Definition round_pos (q : Q) : num :=
  let e := last_place q in
  let x := (q * 2 ^ (- e))%Q in
  let m := nearest_even (Qnum x) (Zpos (Qden x)) in
  if 2 ^ 2098 <=? m * 2 ^ (e + 1074) then Inf false
  else Fin (Qred (inject_Z m * 2 ^ e)).

(** The binary64 number nearest to [a]. *)
Definition binary64 (a : num) : num :=
  match a with
  | Fin q =>
      match Qcompare q 0 with
      | Eq => Fin 0
      | Gt => round_pos (Qred q)
      | Lt => num_neg (round_pos (Qred (- q)))
      end
  | _ => a
  end.

(** *** Values *)

#[local] Set Warnings "-register-all".

Inductive value : Type :=
| VUndefined
| VNull
| VBool (b : bool)
| VNum (n : num)
| VStr (s : string)
| VArr (items : list value)
| VObj (fields : list (string * value)).

(** ToBoolean *)
Definition truthy (v : value) : bool :=
  match v with
  | VUndefined | VNull => false
  | VBool b => b
  | VNum NaN => false
  | VNum (Inf _) => true
  | VNum (Fin q) => negb (Qzero_b q)
  | VStr s => negb (s =? EmptyString)%string
  | VArr _ | VObj _ => true
  end.

(** [a || b] *)
Definition js_or (a b : value) : value := if truthy a then a else b.

(** The value bound to [k] in a field list; a later binding of the same key
    overrides an earlier one, as in an object built by [JSON.parse]. *)
Fixpoint obj_get (fs : list (string * value)) (k : string) : option value :=
  match fs with
  | [] => None
  | (k', v) :: r =>
      match obj_get r k with
      | Some w => Some w
      | None => if (k' =? k)%string then Some v else None
      end
  end.

(** [v.k] for the property names the sources read (none of them an array
    index or a prototype method).  [None] is the TypeError raised on [null]
    and [undefined]. *)
Definition get_prop (v : value) (k : string) : option value :=
  match v with
  | VUndefined | VNull => None
  | VObj fs =>
      Some (match obj_get fs k with Some w => w | None => VUndefined end)
  | VStr s =>
      Some (if (k =? "length")%string then VNum (num_of_Z (Z.of_nat (String.length s)))
            else VUndefined)
  | VArr l =>
      Some (if (k =? "length")%string then VNum (num_of_Z (Z.of_nat (List.length l)))
            else VUndefined)
  | VBool _ | VNum _ => Some VUndefined
  end.

(** What the peer reads back after [JSON.stringify] and [JSON.parse]: a
    non-finite number becomes [null], an [undefined] field is dropped and an
    [undefined] array element becomes [null]. *)
Fixpoint json_wire (v : value) : value :=
  match v with
  | VNum (Fin q) => VNum (Fin q)
  | VNum _ => VNull
  | VArr l =>
      VArr (map (fun x => match x with
                          | VUndefined => VNull
                          | _ => json_wire x
                          end) l)
  | VObj fs =>
      VObj ((fix go (fs : list (string * value)) : list (string * value) :=
               match fs with
               | [] => []
               | (k, x) :: r =>
                   match x with
                   | VUndefined => go r
                   | _ => (k, json_wire x) :: go r
                   end
               end) fs)
  | _ => v
  end.

(** *** Strings *)

Definition dquote : ascii := "034"%char.
Definition DQ : string := String dquote EmptyString.

(** White space of [String.prototype.trim] and of the numeric parsers. *)
Definition is_ws (c : ascii) : bool :=
  let n := nat_of_ascii c in
  ((9 <=? n) && (n <=? 13))%nat || (n =? 32)%nat.

Fixpoint trim_start (s : string) : string :=
  match s with
  | EmptyString => EmptyString
  | String c r => if is_ws c then trim_start r else s
  end.

Fixpoint trim_end (s : string) : string :=
  match s with
  | EmptyString => EmptyString
  | String c r =>
      let r' := trim_end r in
      if is_ws c && (r' =? EmptyString)%string then EmptyString else String c r'
  end.

Definition trim (s : string) : string := trim_end (trim_start s).

Fixpoint strip_prefix (p s : string) : option string :=
  match p, s with
  | EmptyString, _ => Some s
  | String a p', String b s' => if Ascii.eqb a b then strip_prefix p' s' else None
  | String _ _, EmptyString => None
  end.

(** *** Decimal literals *)

Definition digit_of (c : ascii) : option Z :=
  let n := nat_of_ascii c in
  if ((48 <=? n) && (n <=? 57))%nat then Some (Z.of_nat n - 48) else None.

(** Reads the longest run of digits at the head of [s], continuing the
    value [acc]; returns the value, the number of digits read and the rest. *)
Fixpoint read_digits (s : string) (acc : Z) (n : nat) : Z * nat * string :=
  match s with
  | EmptyString => (acc, n, s)
  | String c r =>
      match digit_of c with
      | Some d => read_digits r (10 * acc + d) (S n)
      | None => (acc, n, s)
      end
  end.

(** An exponent part [e], [E] with an optional sign and at least one digit. *)
Definition read_exp (s : string) : option (Z * string) :=
  match s with
  | String c r =>
      if Ascii.eqb c "e" || Ascii.eqb c "E" then
        let '(sg, r1) :=
          match r with
          | String "-" r' => (-1, r')
          | String "+" r' => (1, r')
          | _ => (1, r)
          end in
        let '(e, n, r2) := read_digits r1 0 0 in
        if (n =? 0)%nat then None else Some (sg * e, r2)
      else None
  | EmptyString => None
  end.

(** The rational [(-1)^neg * m * 10^(e - k)]. *)
Definition decimal (neg : bool) (m : Z) (k : nat) (e : Z) : Q :=
  let sm := if neg then - m else m in
  let x := e - Z.of_nat k in
  if 0 <=? x then inject_Z (sm * 10 ^ x)
  else Qred (Qmake sm (Z.to_pos (10 ^ (- x)))).

Definition split_sign (s : string) : bool * string :=
  match s with
  | String "-" r => (true, r)
  | String "+" r => (false, r)
  | _ => (false, s)
  end.

(** [parseInt(s, 10)], before it is rounded to binary64. *)
Definition parseInt (s : string) : num :=
  let '(neg, s1) := split_sign (trim_start s) in
  let '(m, n, _) := read_digits s1 0 0 in
  if (n =? 0)%nat then NaN else Fin (decimal neg m 0 0).

(** The longest unsigned decimal literal at the head of [s] ([Infinity],
    or digits with an optional fraction and exponent) and what follows
    it; [None] when [s] starts with none. *)
Definition read_unsigned (neg : bool) (s : string) : option (num * string) :=
  match strip_prefix "Infinity" s with
  | Some rest => Some (Inf neg, rest)
  | None =>
      let '(ip, n1, s2) := read_digits s 0 0 in
      let '(m, n2, s3) :=
        match s2 with
        | String "." r => read_digits r ip 0
        | _ => (ip, O, s2)
        end in
      if ((n1 + n2) =? 0)%nat then None
      else
        match read_exp s3 with
        | Some (e, s4) => Some (Fin (decimal neg m n2 e), s4)
        | None => Some (Fin (decimal neg m n2 0), s3)
        end
  end.

(** [parseFloat(s)], before it is rounded to binary64. *)
Definition parseFloat (s : string) : num :=
  let '(neg, s1) := split_sign (trim_start s) in
  match read_unsigned neg s1 with
  | Some (n, _) => n
  | None => NaN
  end.

(** ToNumber on a string, for decimal literals (the [0x], [0o] and [0b]
    forms are not modelled). *)
Definition StringToNumber (s : string) : num :=
  let t := trim s in
  if (t =? EmptyString)%string then Fin 0
  else
    let '(neg, s1) := split_sign t in
    match read_unsigned neg s1 with
    | Some (n, EmptyString) => n
    | _ => NaN
    end.

(** ToNumber.  An array converts through its printed form: empty it is the
    empty string, with one element that element's string, with more a
    string holding a comma. *)
Fixpoint to_number (v : value) : num :=
  match v with
  | VUndefined => NaN
  | VNull => Fin 0
  | VBool b => if b then Fin 1 else Fin 0
  | VNum n => n
  | VStr s => StringToNumber s
  | VObj _ => NaN
  | VArr [] => Fin 0
  | VArr [x] =>
      match x with
      | VUndefined | VNull => Fin 0
      | VBool _ => NaN
      | _ => to_number x
      end
  | VArr (_ :: _ :: _) => NaN
  end.

(** [parseInt(v, 10)] on a value: the argument is first converted to a
    string.  A finite number prints in positional notation (for magnitudes
    from 1e-6 up to 1e21, the range modelled here), so its integer part is
    read back; an array prints its elements separated by commas, so the
    first element decides. *)
Fixpoint parseInt_value (v : value) : num :=
  match v with
  | VStr s => parseInt s
  | VNum (Fin q) => Fin (inject_Z (if Qneg_b q then Qceiling q else Qfloor q))
  | VNum _ => NaN
  | VArr (x :: _) => parseInt_value x
  | VArr [] => NaN
  | VUndefined | VNull | VBool _ | VObj _ => NaN
  end.

(** *** [JSON.parse] *)

Definition is_json_ws (c : ascii) : bool :=
  let n := nat_of_ascii c in
  (n =? 32)%nat || (n =? 9)%nat || (n =? 10)%nat || (n =? 13)%nat.

Fixpoint skip_ws (s : string) : string :=
  match s with
  | EmptyString => EmptyString
  | String c r => if is_json_ws c then skip_ws r else s
  end.

Definition hex_of (c : ascii) : option Z :=
  let n := nat_of_ascii c in
  if ((48 <=? n) && (n <=? 57))%nat then Some (Z.of_nat n - 48)
  else if ((65 <=? n) && (n <=? 70))%nat then Some (Z.of_nat n - 55)
  else if ((97 <=? n) && (n <=? 102))%nat then Some (Z.of_nat n - 87)
  else None.

Definition hex4 (s : string) : option (Z * string) :=
  match s with
  | String a (String b (String c (String d r))) =>
      match hex_of a, hex_of b, hex_of c, hex_of d with
      | Some x, Some y, Some z, Some w => Some (((x * 16 + y) * 16 + z) * 16 + w, r)
      | _, _, _, _ => None
      end
  | _ => None
  end.

Definition byte (z : Z) : ascii := ascii_of_N (Z.to_N z).

(** The bytes (UTF-8) of the code unit named by a [\u] escape. *)
Definition utf8 (cp : Z) : string :=
  if cp <? 128 then String (byte cp) EmptyString
  else if cp <? 2048 then
    String (byte (192 + cp / 64)) (String (byte (128 + cp mod 64)) EmptyString)
  else
    String (byte (224 + cp / 4096))
      (String (byte (128 + (cp / 64) mod 64))
         (String (byte (128 + cp mod 64)) EmptyString)).

(** The characters of a string literal, read from just after its opening
    quote up to and including the closing one. *)
Fixpoint parse_chars (fuel : nat) (s : string) : option (string * string) :=
  match fuel with
  | O => None
  | S f =>
      match s with
      | EmptyString => None
      | String c r =>
          if Ascii.eqb c dquote then Some (EmptyString, r)
          else if Ascii.eqb c "\" then
            match r with
            | EmptyString => None
            | String e r' =>
                let plain (x : string) :=
                  match parse_chars f r' with
                  | Some (t, rest) => Some ((x ++ t)%string, rest)
                  | None => None
                  end in
                if Ascii.eqb e dquote then plain DQ
                else if Ascii.eqb e "\" then plain "\"
                else if Ascii.eqb e "/" then plain "/"
                else if Ascii.eqb e "b" then plain (String (byte 8) EmptyString)
                else if Ascii.eqb e "f" then plain (String (byte 12) EmptyString)
                else if Ascii.eqb e "n" then plain (String (byte 10) EmptyString)
                else if Ascii.eqb e "r" then plain (String (byte 13) EmptyString)
                else if Ascii.eqb e "t" then plain (String (byte 9) EmptyString)
                else if Ascii.eqb e "u" then
                  match hex4 r' with
                  | Some (cp, r'') =>
                      match parse_chars f r'' with
                      | Some (t, rest) => Some ((utf8 cp ++ t)%string, rest)
                      | None => None
                      end
                  | None => None
                  end
                else None
            end
          else if (nat_of_ascii c <? 32)%nat then None
          else
            match parse_chars f r with
            | Some (t, rest) => Some (String c t, rest)
            | None => None
            end
      end
  end.

(** A number token: [-]? int frac? exp?, with no leading zero. *)
Definition parse_number (s : string) : option (Q * string) :=
  let '(neg, s1) :=
    match s with
    | String "-" r => (true, r)
    | _ => (false, s)
    end in
  match s1 with
  | EmptyString => None
  | String c r =>
      match digit_of c with
      | None => None
      | Some d =>
          let '(ip, s2) :=
            if d =? 0 then (0, r)
            else let '(v, _, r2) := read_digits r d 0 in (v, r2) in
          let frac :=
            match s2 with
            | String "." r3 =>
                let '(m, k, r4) := read_digits r3 ip 0 in
                if (k =? 0)%nat then None else Some (m, k, r4)
            | _ => Some (ip, O, s2)
            end in
          match frac with
          | None => None
          | Some (m, k, s3) =>
              match s3 with
              | String x _ =>
                  if Ascii.eqb x "e" || Ascii.eqb x "E" then
                    match read_exp s3 with
                    | Some (e, s4) => Some (decimal neg m k e, s4)
                    | None => None
                    end
                  else Some (decimal neg m k 0, s3)
              | EmptyString => Some (decimal neg m k 0, s3)
              end
          end
      end
  end.

Fixpoint parse_value (fuel : nat) (s : string) : option (value * string) :=
  match fuel with
  | O => None
  | S f =>
      match skip_ws s with
      | EmptyString => None
      | String c r as s0 =>
          if Ascii.eqb c "{" then
            match skip_ws r with
            | String "}" r' => Some (VObj [], r')
            | _ => parse_members f r []
            end
          else if Ascii.eqb c "[" then
            match skip_ws r with
            | String "]" r' => Some (VArr [], r')
            | _ => parse_elements f r []
            end
          else if Ascii.eqb c dquote then
            match parse_chars (S (String.length r)) r with
            | Some (t, rest) => Some (VStr t, rest)
            | None => None
            end
          else
            match strip_prefix "true" s0, strip_prefix "false" s0,
                  strip_prefix "null" s0 with
            | Some rest, _, _ => Some (VBool true, rest)
            | _, Some rest, _ => Some (VBool false, rest)
            | _, _, Some rest => Some (VNull, rest)
            | None, None, None =>
                match parse_number s0 with
                | Some (q, rest) => Some (VNum (binary64 (Fin q)), rest)
                | None => None
                end
            end
      end
  end

with parse_members (fuel : nat) (s : string) (acc : list (string * value))
  : option (value * string) :=
  match fuel with
  | O => None
  | S f =>
      match skip_ws s with
      | String c r =>
          if Ascii.eqb c dquote then
            match parse_chars (S (String.length r)) r with
            | None => None
            | Some (k, r1) =>
                match skip_ws r1 with
                | String ":" r2 =>
                    match parse_value f r2 with
                    | None => None
                    | Some (v, r3) =>
                        match skip_ws r3 with
                        | String "," r4 => parse_members f r4 (acc ++ [(k, v)])
                        | String "}" r4 => Some (VObj (acc ++ [(k, v)]), r4)
                        | _ => None
                        end
                    end
                | _ => None
                end
            end
          else None
      | EmptyString => None
      end
  end

with parse_elements (fuel : nat) (s : string) (acc : list value)
  : option (value * string) :=
  match fuel with
  | O => None
  | S f =>
      match parse_value f s with
      | None => None
      | Some (v, r1) =>
          match skip_ws r1 with
          | String "," r2 => parse_elements f r2 (acc ++ [v])
          | String "]" r2 => Some (VArr (acc ++ [v]), r2)
          | _ => None
          end
      end
  end.

(** [JSON.parse(text)]; [None] is the SyntaxError.  A level of nesting
    costs two calls and holds at least its two brackets, a further element
    costs one call and holds at least a comma and a character, so the
    length of the text is fuel enough for any text that parses. *)
Definition JSON_parse (text : string) : option value :=
  match parse_value (S (String.length text)) text with
  | Some (v, rest) =>
      match skip_ws rest with
      | EmptyString => Some v
      | String _ _ => None
      end
  | None => None
  end.

End JS.

(* ================================================================= *)
(** ** The server plugin, [plugins/mpris/index.mjs] *)

Module Mpris.
Import JS.

(** What a handler returns to the HTTP client: the status code and the body
    as the client reads it back from the wire. *)
Record response : Type := { status : Z; body : value }.

(** [res.json(v)] *)
Definition res_json (v : value) : response :=
  {| status := 200; body := json_wire v |}.

(** [try] blocks: a computation either completes or throws a message. *)
Inductive outcome (A : Type) : Type :=
| Ok (a : A)
| Throw (message : string).
Arguments Ok {A} a.
Arguments Throw {A} message.

(** [s === 'lit'] for [s] a string or [null] *)
Definition is_str (o : option string) (lit : string) : bool :=
  match o with
  | Some s => (s =? lit)%string
  | None => false
  end.

(** [o || d] for [o] a string or [null] *)
Definition str_or (o : option string) (d : string) : string :=
  match o with
  | Some s => if (s =? EmptyString)%string then d else s
  | None => d
  end.

(** [!o] for [o] a string or [null] *)
Definition falsy (o : option string) : bool :=
  match o with
  | Some s => (s =? EmptyString)%string
  | None => true
  end.

(** [v.k] where [v] is known not to be [null] or [undefined]. *)
Definition prop (v : value) (k : string) : value :=
  match get_prop v k with
  | Some x => x
  | None => VUndefined
  end.

Definition key (name tmpl : string) : string :=
  DQ ++ name ++ DQ ++ ":" ++ DQ ++ tmpl ++ DQ.

(** The format string of [getPlayerState]. *)
Definition format : string :=
  "{" ++ key "title" "{{title}}" ++ "," ++ key "artist" "{{artist}}" ++ ","
      ++ key "album" "{{album}}" ++ "," ++ key "artUrl" "{{mpris:artUrl}}" ++ ","
      ++ key "position" "{{position}}" ++ "," ++ key "length" "{{mpris:length}}"
      ++ "}".

Definition metadata_args : string := "metadata --format '" ++ format ++ "'".

Definition modes : list string := ["None"; "Track"; "Playlist"].

(** [l.indexOf(x)] for [x] a string or [null] *)
Fixpoint indexOf_from (l : list string) (x : option string) (i : Z) : Z :=
  match l with
  | [] => -1
  | y :: r => if is_str x y then i else indexOf_from r x (i + 1)
  end.

Definition indexOf (l : list string) (x : option string) : Z :=
  indexOf_from l x 0.

(** [l[i]]; [None] is [undefined]. *)
Definition at_index (l : list string) (i : Z) : option string :=
  if i <? 0 then None else nth_error l (Z.to_nat i).

(** [`${x}`] for [x] a string or [undefined] *)
Definition template (x : option string) : string :=
  match x with
  | Some s => s
  | None => "undefined"
  end.

Definition opt_value (x : option string) : value :=
  match x with
  | Some s => VStr s
  | None => VUndefined
  end.

Inductive route : Type :=
| GetStatus
| PostPlayPause
| PostPlay
| PostPause
| PostNext
| PostPrevious
| PostShuffle
| PostLoop.

Section Bridge.

(** The machine the plugin runs on, and [execAsync]: running a command
    line in a state of the machine gives [Some stdout] when the child
    exits with code 0 and [None] when the promise rejects (the program is
    missing or exits with another code), and the state after it. *)
Variable W : Type.
Variable execAsync : string -> W -> option string * W.

(** The state threaded through a handler: the machine, the command lines
    spawned so far (oldest first) and the lines written by
    [console.error]. *)
Record st : Type := { world : W; spawned : list string; errors : list string }.

Definition M (A : Type) : Type := st -> A * st.
Definition ret {A} (a : A) : M A := fun s => (a, s).
Definition bind {A B} (m : M A) (k : A -> M B) : M B :=
  fun s => let (a, s') := m s in k a s'.

Notation "x <- m ;; k" := (bind m (fun x => k))
  (at level 61, m at next level, right associativity).

Definition start (w : W) : st := {| world := w; spawned := []; errors := [] |}.

Definition console_error (line : string) : M unit :=
  fun s => (tt, {| world := world s; spawned := spawned s;
                   errors := errors s ++ [line] |}).

(** [playerctl(args)]: the trimmed output, or [null] when the command
    fails. *)
Definition playerctl (args : string) : M (option string) :=
  fun s =>
    let cmd := ("playerctl " ++ args)%string in
    let (r, w') := execAsync cmd (world s) in
    (match r with
     | Some stdout => Some (trim stdout)
     | None => None
     end,
     {| world := w'; spawned := spawned s ++ [cmd]; errors := errors s |}).

(** The body of the [try] block of [getPlayerState]. *)
Definition getPlayerState_try : M (outcome value) :=
  metadataRaw <- playerctl metadata_args ;;
  if falsy metadataRaw then
    ret (Ok (VObj [("playing", VBool false); ("available", VBool false)]))
  else
    status <- playerctl "status" ;;
    let isPlaying := is_str status "Playing" in
    metadata <-
      match JSON_parse (str_or metadataRaw EmptyString) with
      | Some v => ret v
      | None =>
          title <- playerctl "metadata title" ;;
          artist <- playerctl "metadata artist" ;;
          album <- playerctl "metadata album" ;;
          artUrl <- playerctl "metadata mpris:artUrl" ;;
          ret (VObj [("title", VStr (str_or title "Unknown"));
                     ("artist", VStr (str_or artist "Unknown"));
                     ("album", VStr (str_or album EmptyString));
                     ("artUrl", VStr (str_or artUrl EmptyString))])
      end ;;
    position <- playerctl "position" ;;
    let positionSec := binary64 (parseFloat (str_or position "0")) in
    match get_prop metadata "length" with
    | None => ret (Throw "Cannot read properties of null (reading 'length')")
    | Some len =>
        let lengthUs := binary64 (parseInt_value (js_or len (VStr "0"))) in
        shuffleStatus <- playerctl "shuffle" ;;
        loopStatus <- playerctl "loop" ;;
        ret (Ok (VObj
          [("available", VBool true);
           ("playing", VBool isPlaying);
           ("title", js_or (prop metadata "title") (VStr "Unknown"));
           ("artist", js_or (prop metadata "artist") (VStr "Unknown"));
           ("album", js_or (prop metadata "album") (VStr EmptyString));
           ("artUrl", js_or (prop metadata "artUrl") (VStr EmptyString));
           ("progress_ms",
            VNum (Math_floor (binary64 (num_mul positionSec (num_of_Z 1000)))));
           ("duration_ms",
            VNum (Math_floor (binary64 (num_div lengthUs (num_of_Z 1000)))));
           ("shuffle", VBool (is_str shuffleStatus "On"));
           ("loop", VStr (str_or loopStatus "None"))]))
    end.

(** [getPlayerState]: the [try] block with its [catch]. *)
Definition getPlayerState : M value :=
  r <- getPlayerState_try ;;
  match r with
  | Ok state => ret state
  | Throw message =>
      _ <- console_error "[MPRIS] Error getting player state:" ;;
      ret (VObj [("playing", VBool false); ("available", VBool false);
                 ("error", VStr message)])
  end.

(** The handlers registered by [init] (those of [/seek], [/volume] and
    [/players] are not part of the embedding). *)
Definition handle (r : route) : M response :=
  match r with
  | GetStatus =>
      state <- getPlayerState ;;
      ret (res_json state)
  | PostPlayPause =>
      _ <- playerctl "play-pause" ;;
      ret (res_json (VObj [("success", VBool true)]))
  | PostPlay =>
      _ <- playerctl "play" ;;
      ret (res_json (VObj [("success", VBool true)]))
  | PostPause =>
      _ <- playerctl "pause" ;;
      ret (res_json (VObj [("success", VBool true)]))
  | PostNext =>
      _ <- playerctl "next" ;;
      ret (res_json (VObj [("success", VBool true)]))
  | PostPrevious =>
      _ <- playerctl "previous" ;;
      ret (res_json (VObj [("success", VBool true)]))
  | PostShuffle =>
      _ <- playerctl "shuffle Toggle" ;;
      ret (res_json (VObj [("success", VBool true)]))
  | PostLoop =>
      current <- playerctl "loop" ;;
      let currentIndex := indexOf modes current in
      let nextMode :=
        at_index modes (Z.rem (currentIndex + 1) (Z.of_nat (List.length modes))) in
      _ <- playerctl ("loop " ++ template nextMode)%string ;;
      ret (res_json (VObj [("success", VBool true); ("mode", opt_value nextMode)]))
  end.

(** A sequence of requests served one after the other; the responses in
    order. *)
Fixpoint serve (rs : list route) : M (list response) :=
  match rs with
  | [] => ret []
  | r :: rest =>
      x <- handle r ;;
      xs <- serve rest ;;
      ret (x :: xs)
  end.

End Bridge.

Arguments world {W} s.
Arguments spawned {W} s.
Arguments errors {W} s.
Arguments start {W} w.

End Mpris.

(* ================================================================= *)
(** ** A scripted [playerctl]

    The external tool is not part of the repository.  To run the plugin on
    concrete inputs, [Desktop.execAsync] answers the command lines the plugin
    spawns from the state of one media player, printing each answer on a
    line of its own, and fails on every command when no player runs. *)

Module Desktop.
Import JS.

Record player : Type := {
  running : bool;
  title : string;
  artist : string;
  album : string;
  artUrl : string;
  playback : string;      (* Playing, Paused or Stopped *)
  position : string;      (* seconds, as [playerctl position] prints them *)
  position_us : string;   (* microseconds, as the format prints them *)
  length_us : string;     (* microseconds *)
  shuffle : bool;
  loop : string           (* None, Track or Playlist *)
}.

Definition newline : string := String (ascii_of_nat 10) EmptyString.

Definition line (s : string) : string := s ++ newline.

(** The format of [getPlayerState] with the player's fields put in, none of
    them escaped. *)
Definition metadata_line (p : player) : string :=
  "{" ++ Mpris.key "title" (title p) ++ "," ++ Mpris.key "artist" (artist p) ++ ","
      ++ Mpris.key "album" (album p) ++ "," ++ Mpris.key "artUrl" (artUrl p) ++ ","
      ++ Mpris.key "position" (position_us p) ++ ","
      ++ Mpris.key "length" (length_us p) ++ "}".

Definition set_loop (m : string) (p : player) : player :=
  {| running := running p; title := title p; artist := artist p;
     album := album p; artUrl := artUrl p; playback := playback p;
     position := position p; position_us := position_us p;
     length_us := length_us p; shuffle := shuffle p; loop := m |}.

Definition set_shuffle (b : bool) (p : player) : player :=
  {| running := running p; title := title p; artist := artist p;
     album := album p; artUrl := artUrl p; playback := playback p;
     position := position p; position_us := position_us p;
     length_us := length_us p; shuffle := b; loop := loop p |}.

Definition set_playback (x : string) (p : player) : player :=
  {| running := running p; title := title p; artist := artist p;
     album := album p; artUrl := artUrl p; playback := x;
     position := position p; position_us := position_us p;
     length_us := length_us p; shuffle := shuffle p; loop := loop p |}.

Definition execAsync (cmd : string) (p : player) : option string * player :=
  let asks (c : string) : bool := (cmd =? "playerctl " ++ c)%string in
  if negb (running p) then (None, p)
  else if asks Mpris.metadata_args then (Some (line (metadata_line p)), p)
  else if asks "metadata title" then (Some (line (title p)), p)
  else if asks "metadata artist" then (Some (line (artist p)), p)
  else if asks "metadata album" then (Some (line (album p)), p)
  else if asks "metadata mpris:artUrl" then (Some (line (artUrl p)), p)
  else if asks "status" then (Some (line (playback p)), p)
  else if asks "position" then (Some (line (position p)), p)
  else if asks "shuffle" then (Some (line (if shuffle p then "On" else "Off")), p)
  else if asks "loop" then (Some (line (loop p)), p)
  else if asks "loop None" then (Some EmptyString, set_loop "None" p)
  else if asks "loop Track" then (Some EmptyString, set_loop "Track" p)
  else if asks "loop Playlist" then (Some EmptyString, set_loop "Playlist" p)
  else if asks "shuffle Toggle" then (Some EmptyString, set_shuffle (negb (shuffle p)) p)
  else if asks "play" then (Some EmptyString, set_playback "Playing" p)
  else if asks "pause" then (Some EmptyString, set_playback "Paused" p)
  else if asks "play-pause" then
    (Some EmptyString,
     set_playback (if (playback p =? "Playing")%string then "Paused" else "Playing") p)
  else if asks "next" then (Some EmptyString, p)
  else if asks "previous" then (Some EmptyString, p)
  else (None, p).

(** No player on the session bus. *)
Definition nothing : player :=
  {| running := false; title := EmptyString; artist := EmptyString;
     album := EmptyString; artUrl := EmptyString; playback := "Stopped";
     position := "0"; position_us := "0"; length_us := "0";
     shuffle := false; loop := "None" |}.

(** A player in the middle of a track. *)
Definition song_a : player :=
  {| running := true; title := "Song A"; artist := "Band";
     album := EmptyString; artUrl := EmptyString; playback := "Playing";
     position := "30.0"; position_us := "30000000"; length_us := "200000000";
     shuffle := false; loop := "None" |}.

(** A track whose title holds quote characters. *)
Definition quoted : player :=
  {| running := true; title := "Say " ++ DQ ++ "Hi" ++ DQ; artist := "Band";
     album := EmptyString; artUrl := EmptyString; playback := "Playing";
     position := "30.0"; position_us := "30000000"; length_us := "200000000";
     shuffle := false; loop := "None" |}.


End Desktop.

(* ================================================================= *)
(** ** The extension, [index.js] *)

Module Client.
Import JS.

(** The [settings] object. *)
Record settings_t : Type := {
  clientId : value;
  accessToken : value;
  refreshToken : value;
  tokenExpiry : num;
  enablePanel : bool;
  useMpris : bool
}.

Definition defaultSettings : settings_t :=
  {| clientId := VStr EmptyString; accessToken := VStr EmptyString;
     refreshToken := VStr EmptyString; tokenExpiry := Fin 0;
     enablePanel := true; useMpris := true |}.

(** A call of [fetch]: the address, the method, the bearer token of the
    [Authorization] header and the fields of the form body. *)
Record request : Type := {
  url : string;
  method : string;
  bearer : option value;
  form : list (string * value)
}.

(** What [fetch] resolves to: the status code, and the value
    [response.json()] resolves to ([None] when it rejects). *)
Record http_response : Type := { status : Z; json : option value }.

(** [response.ok] *)
Definition ok (r : http_response) : bool :=
  (200 <=? status r) && (status r <=? 299).

(** The effects a caller can observe. *)
Inductive event : Type :=
| Toast (level text : string)     (* toastr.warning, toastr.error, ... *)
| Console (level text : string)   (* console.warn, console.error *)
| Saved                           (* saveSettings() *)
| Sent (r : request).             (* fetch(...) *)

Definition token_url : string := "https://accounts.spotify.com/api/token".
Definition playing_url : string :=
  "https://api.spotify.com/v1/me/player/currently-playing".
Definition status_url : string := "/api/plugins/mpris/status".

Definition refresh_request (cfg : settings_t) : request :=
  {| url := token_url; method := "POST"; bearer := None;
     form := [("client_id", clientId cfg);
              ("grant_type", VStr "refresh_token");
              ("refresh_token", refreshToken cfg)] |}.

Definition playing_request (token : value) : request :=
  {| url := playing_url; method := "GET"; bearer := Some token; form := [] |}.

Definition status_request : request :=
  {| url := status_url; method := "GET"; bearer := None; form := [] |}.

Definition expired_notice : event :=
  Toast "warning" "Spotify session expired. Please reconnect.".

Definition prop (v : value) (k : string) : value :=
  match get_prop v k with
  | Some x => x
  | None => VUndefined
  end.

Section Net.

(** The browser and the network: the clock read by [Date.now()] and
    [fetch], which resolves to a response or rejects ([None]). *)
Variable W : Type.
Variable Date_now : W -> Z.
Variable fetch : request -> W -> option http_response * W.

(** The state threaded through the extension: the [settings] object, the
    world and the effects so far, oldest first. *)
Record st : Type := { settings : settings_t; world : W; events : list event }.

Definition M (A : Type) : Type := st -> A * st.
Definition ret {A} (a : A) : M A := fun s => (a, s).
Definition bind {A B} (m : M A) (k : A -> M B) : M B :=
  fun s => let (a, s') := m s in k a s'.

Notation "x <- m ;; k" := (bind m (fun x => k))
  (at level 61, m at next level, right associativity).

Definition emit (e : event) : M unit :=
  fun s => (tt, {| settings := settings s; world := world s;
                   events := events s ++ [e] |}).

Definition read : M settings_t := fun s => (settings s, s).

Definition write (cfg : settings_t) : M unit :=
  fun s => (tt, {| settings := cfg; world := world s; events := events s |}).

Definition now : M Z := fun s => (Date_now (world s), s).

Definition send (r : request) : M (option http_response) :=
  fun s =>
    let (resp, w') := fetch r (world s) in
    (resp, {| settings := settings s; world := w';
              events := events s ++ [Sent r] |}).

Definition saveSettings : M unit := emit Saved.

Definition refreshAccessToken : M bool :=
  cfg <- read ;;
  if negb (truthy (refreshToken cfg)) || negb (truthy (clientId cfg)) then
    ret false
  else
    response <- send (refresh_request cfg) ;;
    match response with
    | None => _ <- emit (Console "error" "fetch") ;; ret false
    | Some resp =>
        match json resp with
        | None => _ <- emit (Console "error" "json") ;; ret false
        | Some data =>
            match get_prop data "access_token" with
            | None => _ <- emit (Console "error" "TypeError") ;; ret false
            | Some token =>
                if truthy token then
                  let fresh := prop data "refresh_token" in
                  t <- now ;;
                  _ <- write
                    {| clientId := clientId cfg;
                       accessToken := token;
                       refreshToken :=
                         if truthy fresh then fresh else refreshToken cfg;
                       tokenExpiry :=
                         num_add (num_of_Z t)
                           (num_mul (to_number (prop data "expires_in"))
                              (num_of_Z 1000));
                       enablePanel := enablePanel cfg;
                       useMpris := useMpris cfg |} ;;
                  _ <- saveSettings ;;
                  ret true
                else
                  _ <- emit (Console "warn" "Failed to refresh token") ;;
                  _ <- emit expired_notice ;;
                  ret false
            end
        end
    end.

Definition getValidToken : M value :=
  cfg <- read ;;
  if negb (truthy (accessToken cfg)) then ret VNull
  else
    t <- now ;;
    if num_gt (num_of_Z t) (num_sub (tokenExpiry cfg) (num_of_Z 60000)) then
      refreshed <- refreshAccessToken ;;
      if refreshed then
        cfg' <- read ;;
        ret (accessToken cfg')
      else ret VNull
    else ret (accessToken cfg).

(** Fetch player state from the MPRIS plugin. *)
Definition fetchMprisState : M value :=
  response <- send status_request ;;
  match response with
  | None => _ <- emit (Console "error" "MPRIS Fetch Error:") ;; ret VNull
  | Some resp =>
      if negb (ok resp) then
        _ <- emit (Console "warn" "MPRIS plugin not available.") ;;
        ret VNull
      else
        match json resp with
        | None => _ <- emit (Console "error" "MPRIS Fetch Error:") ;; ret VNull
        | Some data =>
            match get_prop data "available" with
            | None =>
                _ <- emit (Console "error" "MPRIS Fetch Error:") ;; ret VNull
            | Some available =>
                if negb (truthy available) then ret VNull
                else
                  let artUrl := prop data "artUrl" in
                  ret (VObj
                    [("is_playing", prop data "playing");
                     ("item", VObj
                        [("name", prop data "title");
                         ("artists", VArr [VObj [("name", prop data "artist")]]);
                         ("album", VObj
                            [("images",
                              if truthy artUrl
                              then VArr [VObj [("url", artUrl)]]
                              else VArr [])]);
                         ("duration_ms",
                          js_or (prop data "duration_ms") (VNum (Fin 0)))]);
                     ("progress_ms",
                      js_or (prop data "progress_ms") (VNum (Fin 0)));
                     ("shuffle", js_or (prop data "shuffle") (VBool false));
                     ("loop", js_or (prop data "loop") (VStr "None"))])
            end
        end
  end.

Definition fetchPlayerState : M value :=
  cfg <- read ;;
  if useMpris cfg then fetchMprisState
  else
    token <- getValidToken ;;
    if negb (truthy token) then ret VNull
    else
      response <- send (playing_request token) ;;
      match response with
      | None =>
          _ <- emit (Console "error" "Spotify Player Fetch Error:") ;; ret VNull
      | Some resp =>
          if status resp =? 204 then ret VNull
          else if negb (status resp =? 200) then
            _ <- emit (Console "error" "Spotify Player Fetch Error:") ;;
            ret VNull
          else
            match json resp with
            | None =>
                _ <- emit (Console "error" "Spotify Player Fetch Error:") ;;
                ret VNull
            | Some data => ret data
            end
      end.

End Net.

Arguments settings {W} s.
Arguments world {W} s.
Arguments events {W} s.

(** *** The progress bar

    The step of [updatePlayerUI] that draws the progress bar, reached with
    [data] and [data.item] present.  The bar holds the number written, as a
    percentage, to [progressBar.style.width] and the value stored in
    [playerPanel.dataset.durationMs]; [None] is an attribute never written.
    The two time labels are not part of the embedding. *)

Record bar : Type := { width : option num; durationMs : option value }.

(** [data.progress_ms / data.item.duration_ms] *)
Definition progress_ratio (progress_ms duration_ms : value) : num :=
  num_div (to_number progress_ms) (to_number duration_ms).

Definition updateProgress (progressBar playerPanel : bool)
    (progress_ms duration_ms : value) (b : bar) : bar :=
  if progressBar && truthy duration_ms then
    let percent := num_mul (progress_ratio progress_ms duration_ms) (num_of_Z 100) in
    {| width := Some percent;
       durationMs := if playerPanel then Some duration_ms else durationMs b |}
  else b.

End Client.

(* ================================================================= *)
(** ** Polling: [startPolling] and [stopPolling]

    The timers of the page.  [setInterval] hands out positive identifiers;
    an interval timer created at time [created] with period [period] fires
    at [created + period], [created + 2 * period], and so on, until it is
    cleared.  The only callback registered by the two functions is
    [updatePlayerUI], which touches neither the timers nor
    [pollingInterval], so here a call of it is counted and nothing more:
    [by_timer] counts the runs started by a timer, [direct] the calls made
    by [startPolling] itself.  What becomes of a run once it is called, and
    after [stopPolling], is followed in [Inflight]. *)

Module Scheduler.

Record timer : Type := { id : Z; created : Z; period : Z }.

Record page : Type := {
  pollingInterval : option Z;   (* [None] is [null] *)
  timers : list timer;
  next_id : Z;
  clock : Z;
  by_timer : Z;
  direct : Z
}.

Definition initial : page :=
  {| pollingInterval := None; timers := []; next_id := 1; clock := 0;
     by_timer := 0; direct := 0 |}.

(** [setInterval(updatePlayerUI, ms)] *)
Definition setInterval (ms : Z) (p : page) : Z * page :=
  (next_id p,
   {| pollingInterval := pollingInterval p;
      timers := timers p ++ [{| id := next_id p; created := clock p; period := ms |}];
      next_id := next_id p + 1;
      clock := clock p; by_timer := by_timer p; direct := direct p |}).

(** [clearInterval(i)] *)
Definition clearInterval (i : Z) (p : page) : page :=
  {| pollingInterval := pollingInterval p;
     timers := filter (fun t => negb (id t =? i)) (timers p);
     next_id := next_id p;
     clock := clock p; by_timer := by_timer p; direct := direct p |}.

(** [if (pollingInterval) clearInterval(pollingInterval)] *)
Definition clear_if_set (p : page) : page :=
  match pollingInterval p with
  | Some i => if i =? 0 then p else clearInterval i p
  | None => p
  end.

Definition startPolling (p : page) : page :=
  let p1 := clear_if_set p in
  let (i, p2) := setInterval 1000 p1 in
  {| pollingInterval := Some i;
     timers := timers p2; next_id := next_id p2; clock := clock p2;
     by_timer := by_timer p2;
     direct := direct p2 + 1 |}.

Definition stopPolling (p : page) : page :=
  let p1 := clear_if_set p in
  {| pollingInterval := None;
     timers := timers p1; next_id := next_id p1; clock := clock p1;
     by_timer := by_timer p1; direct := direct p1 |}.

(** How often timer [t] fires after time [from] and up to time [upto]. *)
Definition fires (t : timer) (from upto : Z) : Z :=
  (upto - created t) / period t - (from - created t) / period t.

(** [ms] milliseconds pass: every live timer fires as often as is due. *)
Definition wait (ms : N) (p : page) : page :=
  let upto := clock p + Z.of_N ms in
  {| pollingInterval := pollingInterval p;
     timers := timers p; next_id := next_id p;
     clock := upto;
     by_timer :=
       by_timer p + fold_right (fun t n => fires t (clock p) upto + n) 0 (timers p);
     direct := direct p |}.

Inductive op : Type :=
| Start
| Stop
| Wait (ms : N).

Definition step (p : page) (o : op) : page :=
  match o with
  | Start => startPolling p
  | Stop => stopPolling p
  | Wait ms => wait ms p
  end.

Definition run (ops : list op) : page := fold_left step ops initial.

(** What holds of the page after any run: [pollingInterval] names the one
    live timer, or is [null] and no timer is live. *)
Definition tidy (p : page) : Prop :=
  0 < next_id p /\
  match pollingInterval p with
  | None => timers p = []
  | Some i =>
      0 < i /\ i < next_id p /\
      exists c, timers p = [{| id := i; created := c; period := 1000 |}]
  end.

End Scheduler.

(* ================================================================= *)
(** ** Runs of [updatePlayerUI] in flight

    [updatePlayerUI] is asynchronous.  A call runs up to its [await]: with
    the panel disabled it removes the panel and returns; otherwise it
    creates the panel if there is none, calls [fetchPlayerState] and is
    suspended.  When the answer is there the run goes on, looks up the
    elements of the panel in the document and writes the state into those
    it finds.  A timer that is cleared starts no further run, but neither
    [clearInterval] nor [stopPolling] reaches a run that is suspended. *)

Module Inflight.

Record page : Type := {
  timers : Scheduler.page;
  enablePanel : bool;     (* [settings.enablePanel] *)
  panel : bool;           (* whether the panel is in the document *)
  awaiting : Z;           (* runs suspended at their [await] *)
  begun : Z;              (* calls of [updatePlayerUI] so far *)
  written : Z             (* runs that went on and wrote into the panel *)
}.

Definition initial (enabled : bool) : page :=
  {| timers := Scheduler.initial; enablePanel := enabled; panel := false;
     awaiting := 0; begun := 0; written := 0 |}.

Definition with_timers (t : Scheduler.page) (p : page) : page :=
  {| timers := t; enablePanel := enablePanel p; panel := panel p;
     awaiting := awaiting p; begun := begun p; written := written p |}.

(** [n] calls of [updatePlayerUI], each run up to its [await]. *)
Definition begin (n : Z) (p : page) : page :=
  if n <=? 0 then p
  else if enablePanel p then
    {| timers := timers p; enablePanel := true; panel := true;
       awaiting := awaiting p + n; begun := begun p + n; written := written p |}
  else
    {| timers := timers p; enablePanel := false; panel := false;
       awaiting := awaiting p; begun := begun p + n; written := written p |}.

(** The answer for a suspended run is there: the run goes on from its
    [await], and writes when the panel is in the document. *)
Definition settle (p : page) : page :=
  if awaiting p <=? 0 then p
  else
    {| timers := timers p; enablePanel := enablePanel p; panel := panel p;
       awaiting := awaiting p - 1; begun := begun p;
       written := if panel p then written p + 1 else written p |}.

Definition startPolling (p : page) : page :=
  begin 1 (with_timers (Scheduler.startPolling (timers p)) p).

Definition stopPolling (p : page) : page :=
  with_timers (Scheduler.stopPolling (timers p)) p.

(** [ms] milliseconds pass: every firing of a timer is a call of
    [updatePlayerUI]. *)
Definition wait (ms : N) (p : page) : page :=
  let t := Scheduler.wait ms (timers p) in
  begin (Scheduler.by_timer t - Scheduler.by_timer (timers p)) (with_timers t p).

Definition removePlayerPanel (p : page) : page :=
  {| timers := timers p; enablePanel := enablePanel p; panel := false;
     awaiting := awaiting p; begun := begun p; written := written p |}.

(** A handler that sets [settings.enablePanel] and calls [updatePlayerUI]:
    [onSettingsChanged] and [togglePlayer]. *)
Definition setEnabled (b : bool) (p : page) : page :=
  begin 1 {| timers := timers p; enablePanel := b; panel := panel p;
             awaiting := awaiting p; begun := begun p; written := written p |}.

Inductive op : Type :=
| Start
| Stop
| Wait (ms : N)
| Settle
| Remove
| Enable (b : bool)
| Refresh.

Definition step (p : page) (o : op) : page :=
  match o with
  | Start => startPolling p
  | Stop => stopPolling p
  | Wait ms => wait ms p
  | Settle => settle p
  | Remove => removePlayerPanel p
  | Enable b => setEnabled b p
  | Refresh => begin 1 p
  end.

Definition run (enabled : bool) (ops : list op) : page :=
  fold_left step ops (initial enabled).

(** The steps in which the page itself calls nothing: time passes, answers
    arrive, the panel is removed, polling is stopped. *)
Definition calm (o : op) : bool :=
  match o with
  | Stop | Wait _ | Settle | Remove => true
  | Start | Enable _ | Refresh => false
  end.

End Inflight.

(* ================================================================= *)
(** ** The extension in front of the plugin

    The server mounts the plugin's router at [/api/plugins/mpris]; a request
    of the extension to one of its routes is answered by the handler, run on
    the machine the server is on.  Any other address is answered 404. *)

Module Local.
Import JS.

Definition route_of (r : Client.request) : option Mpris.route :=
  let at_ (m path : string) : bool :=
    ((Client.method r =? m) && (Client.url r =? "/api/plugins/mpris/" ++ path))%string in
  if at_ "GET" "status" then Some Mpris.GetStatus
  else if at_ "POST" "play-pause" then Some Mpris.PostPlayPause
  else if at_ "POST" "play" then Some Mpris.PostPlay
  else if at_ "POST" "pause" then Some Mpris.PostPause
  else if at_ "POST" "next" then Some Mpris.PostNext
  else if at_ "POST" "previous" then Some Mpris.PostPrevious
  else if at_ "POST" "shuffle" then Some Mpris.PostShuffle
  else if at_ "POST" "loop" then Some Mpris.PostLoop
  else None.

Definition fetch {W : Type} (execAsync : string -> W -> option string * W)
    (r : Client.request) (w : W) : option Client.http_response * W :=
  match route_of r with
  | Some rt =>
      let (resp, s) := Mpris.handle W execAsync rt (Mpris.start w) in
      (Some {| Client.status := Mpris.status resp;
               Client.json := Some (Mpris.body resp) |},
       Mpris.world s)
  | None => (Some {| Client.status := 404; Client.json := None |}, w)
  end.

(** [fetchPlayerState] of the extension, served by the plugin. *)
Definition fetchPlayerState {W : Type} (Date_now : W -> Z)
    (execAsync : string -> W -> option string * W) : Client.M W value :=
  Client.fetchPlayerState W Date_now (fetch execAsync).

End Local.

(* ================================================================= *)
(** ** Scripted networks

    Worlds for running the extension on concrete inputs: the world is the
    clock, and the network answers every request from a table. *)

Module Scenario.
Import JS.

Definition Date_now (w : Z) : Z := w.

Definition fetch (answer : Client.request -> option Client.http_response)
    (r : Client.request) (w : Z) : option Client.http_response * Z :=
  (answer r, w).

(** The remote service has nothing playing. *)
Definition no_content (r : Client.request) : option Client.http_response :=
  if (Client.url r =? Client.playing_url)%string
  then Some {| Client.status := 204; Client.json := None |}
  else None.

(** The token endpoint rejects the refresh token. *)
Definition rejecting (r : Client.request) : option Client.http_response :=
  if (Client.url r =? Client.token_url)%string
  then Some {| Client.status := 400;
               Client.json := Some (VObj [("error", VStr "invalid_grant")]) |}
  else None.

(** The token endpoint grants a new access token for an hour. *)
Definition granting (r : Client.request) : option Client.http_response :=
  if (Client.url r =? Client.token_url)%string
  then Some {| Client.status := 200;
               Client.json := Some (VObj [("access_token", VStr "fresh");
                                          ("expires_in", VNum (Fin 3600))]) |}
  else None.

(** Connected to the remote service with a token that expires at
    [expiry]. *)
Definition connected (expiry : Z) : Client.settings_t :=
  {| Client.clientId := VStr "client";
     Client.accessToken := VStr "stored";
     Client.refreshToken := VStr "refresh";
     Client.tokenExpiry := num_of_Z expiry;
     Client.enablePanel := true;
     Client.useMpris := false |}.

Definition at_time (cfg : Client.settings_t) (t : Z) : Client.st Z :=
  {| Client.settings := cfg; Client.world := t; Client.events := [] |}.

(** The extension in its default mode on a machine [w]. *)
Definition on_machine {W : Type} (w : W) : Client.st W :=
  {| Client.settings := Client.defaultSettings; Client.world := w;
     Client.events := [] |}.

End Scenario.

(* ================================================================= *)
(** ** The words of the specification *)

Module Spec.
Import JS.

(** The repeat modes and the fixed cycle None, Track, Playlist, None. *)
Inductive repeat : Type := RNone | RTrack | RPlaylist.

Definition name (m : repeat) : string :=
  match m with
  | RNone => "None"
  | RTrack => "Track"
  | RPlaylist => "Playlist"
  end.

Definition next (m : repeat) : repeat :=
  match m with
  | RNone => RTrack
  | RTrack => RPlaylist
  | RPlaylist => RNone
  end.

(** The control endpoints that take no payload. *)
Definition control_routes : list Mpris.route :=
  [Mpris.PostPlayPause; Mpris.PostPlay; Mpris.PostPause; Mpris.PostNext;
   Mpris.PostPrevious; Mpris.PostShuffle].

(** HTTP 200 with body [{success: true}]. *)
Definition success : Mpris.response :=
  {| Mpris.status := 200; Mpris.body := VObj [("success", VBool true)] |}.

(** HTTP 200 with body [{success: true, mode: m}]. *)
Definition success_mode (m : string) : Mpris.response :=
  {| Mpris.status := 200;
     Mpris.body := VObj [("success", VBool true); ("mode", VStr m)] |}.

(** The state served when no player can be queried. *)
Definition unavailable : value :=
  VObj [("playing", VBool false); ("available", VBool false)].

(** An object whose [available] field is [false]. *)
Definition says_unavailable (v : value) : Prop :=
  exists fs, v = VObj fs /\ obj_get fs "available" = Some (VBool false).

End Spec.

(* ================================================================= *)
(** ** More built-ins *)

Module Builtin.
Import JS.

(** Rounding towards zero. *)
Definition Qtrunc (q : Q) : Z := if Qneg_b q then Qceiling q else Qfloor q.

(** [a % b]: the remainder has the sign of the dividend. *)
Definition num_rem (a b : num) : num :=
  match a, b with
  | NaN, _ | _, NaN => NaN
  | Inf _, _ => NaN
  | Fin x, Inf _ => Fin x
  | Fin x, Fin y =>
      if Qzero_b y then NaN
      else Fin (Qred (x - y * inject_Z (Qtrunc (x / y))))
  end.

(** [Number.prototype.toString].  [NaN] and the infinities print as their
    names, and a whole number below 1e21 in magnitude as its decimal
    digits.  What any other number prints as (a fraction, or the exponent
    notation used from 1e21 on) is left to [Number_toString]. *)
Definition integral_toString (Number_toString : num -> string) (n : num) : string :=
  match n with
  | NaN => "NaN"
  | Inf false => "Infinity"
  | Inf true => "-Infinity"
  | Fin q =>
      let z := Qfloor q in
      if Qeq_bool q (inject_Z z) && (Z.abs z <? 10 ^ 21)
      then NilZero.string_of_int (Z.to_int z)
      else Number_toString n
  end.

Fixpoint repeat_char (c : ascii) (n : nat) : string :=
  match n with
  | O => EmptyString
  | S m => String c (repeat_char c m)
  end.

(** [s.padStart(n, c)] for a filler of one character. *)
Definition padStart (n : nat) (c : ascii) (s : string) : string :=
  repeat_char c (n - String.length s) ++ s.

(** [s.split(c)] for a separator of one character. *)
Fixpoint split (c : ascii) (s : string) : list string :=
  match s with
  | EmptyString => [EmptyString]
  | String a r =>
      if Ascii.eqb a c then EmptyString :: split c r
      else
        match split c r with
        | [] => [String a EmptyString]
        | x :: xs => String a x :: xs
        end
  end.

(** [s.charAt(i)]: the character at an integral index, or the empty string
    when the index is out of range. *)
Definition charAt (s : string) (i : num) : string :=
  match i with
  | Fin q =>
      let z := Qtrunc q in
      if z <? 0 then EmptyString
      else
        match String.get (Z.to_nat z) s with
        | Some c => String c EmptyString
        | None => EmptyString
        end
  | NaN => match String.get 0 s with
           | Some c => String c EmptyString
           | None => EmptyString
           end
  | Inf _ => EmptyString
  end.

End Builtin.

(* ================================================================= *)
(** ** The plugin's routes with a payload, and the player list *)

Module Routes.
Import JS Mpris.

Definition line_feed : ascii := "010"%char.

(** [output ? output.split('\n').filter(p => p) : []] *)
Definition player_names (output : option string) : list string :=
  if falsy output then []
  else filter (fun p => negb (p =? EmptyString)%string)
              (Builtin.split line_feed (str_or output EmptyString)).

(** [typeof v === 'number'] *)
Definition is_number (v : value) : bool :=
  match v with
  | VNum _ => true
  | _ => false
  end.

Section Bridge.

Variable W : Type.
Variable execAsync : string -> W -> option string * W.

(** [`${n}`] for a number.  The digits JavaScript prints for a binary64
    value are not determined by the rational it denotes, so the conversion
    is left open. *)
Variable Number_toString : num -> string.

Notation "x <- m ;; k" := (Mpris.bind W m (fun x => k))
  (at level 61, m at next level, right associativity).

(** The handler of [POST /seek]; [Throw] when [req.body] cannot be
    destructured. *)
Definition seek (body : value) : M W (outcome response) :=
  match get_prop body "position" with
  | None => Mpris.ret W (Throw "Cannot destructure property 'position'")
  | Some position =>
      if is_number position then
        _ <- Mpris.playerctl W execAsync
               ("position " ++ Number_toString (to_number position))%string ;;
        Mpris.ret W (Ok (res_json (VObj [("success", VBool true)])))
      else
        Mpris.ret W
          (Ok {| status := 400;
                 body := json_wire (VObj [("error", VStr "Position required")]) |})
  end.

(** The handler of [POST /volume]. *)
Definition volume (body : value) : M W (outcome response) :=
  match get_prop body "volume" with
  | None => Mpris.ret W (Throw "Cannot destructure property 'volume'")
  | Some volume =>
      if is_number volume then
        _ <- Mpris.playerctl W execAsync
               ("volume " ++ Number_toString (to_number volume))%string ;;
        Mpris.ret W (Ok (res_json (VObj [("success", VBool true)])))
      else
        Mpris.ret W
          (Ok {| status := 400;
                 body := json_wire (VObj [("error", VStr "Volume required")]) |})
  end.

(** The handler of [GET /players]. *)
Definition players : M W response :=
  output <- Mpris.playerctl W execAsync "--list-all" ;;
  Mpris.ret W
    (res_json (VObj [("players", VArr (map VStr (player_names output)))])).

End Bridge.

End Routes.

(* ================================================================= *)
(** ** The time labels of the panel *)

Module Panel.
Import JS.

(** Format milliseconds to mm:ss.  The two quotients are rounded to
    binary64; the remainder of two binary64 numbers is one itself. *)
Definition formatTime (Number_toString : num -> string) (ms : num) : string :=
  let totalSeconds := Math_floor (binary64 (num_div ms (num_of_Z 1000))) in
  let minutes := Math_floor (binary64 (num_div totalSeconds (num_of_Z 60))) in
  let seconds := Builtin.num_rem totalSeconds (num_of_Z 60) in
  Builtin.integral_toString Number_toString minutes ++ ":" ++
  Builtin.padStart 2 "0" (Builtin.integral_toString Number_toString seconds).

(** The decimal digit [d], for [d] from 0 to 9. *)
Definition digit (d : Z) : ascii := ascii_of_N (Z.to_N (48 + d)).

(** Two decimal digits. *)
Definition two_digits (n : Z) : string :=
  String (digit (n / 10)) (String (digit (n mod 10)) EmptyString).

(** The decimal digits of an integer. *)
Definition decimal_digits (z : Z) : string := NilZero.string_of_int (Z.to_int z).

End Panel.

(* ================================================================= *)
(** ** Player controls of the extension *)

Module Controls.
Import JS Client.

(** [commandMap] of [controlMpris]. *)
Definition commandMap : list (string * string) :=
  [("play", "play"); ("pause", "pause"); ("next", "next"); ("previous", "previous")].

(** The names every object inherits from [Object.prototype]; looked up in
    [commandMap] they give that member, not [undefined]. *)
Definition inherited : list string :=
  ["constructor"; "toString"; "toLocaleString"; "valueOf"; "hasOwnProperty";
   "isPrototypeOf"; "propertyIsEnumerable"; "__proto__"; "__defineGetter__";
   "__defineSetter__"; "__lookupGetter__"; "__lookupSetter__"].

(** [commandMap[command]], for a [command] that is not one of the
    [inherited] names; [None] is [undefined]. *)
Fixpoint lookup (k : string) (m : list (string * string)) : option string :=
  match m with
  | [] => None
  | (k', v) :: r => if (k' =? k)%string then Some v else lookup k r
  end.

Definition plugin_request (mprisCommand : string) : request :=
  {| url := "/api/plugins/mpris/" ++ mprisCommand; method := "POST";
     bearer := None; form := [] |}.

Definition player_request (command method : string) (token : value) : request :=
  {| url := "https://api.spotify.com/v1/me/player/" ++ command; method := method;
     bearer := Some token; form := [] |}.

Definition premium_notice : event :=
  Toast "error" "Spotify Premium required for controls (or no active device found).".
Definition no_device_notice : event :=
  Toast "warning" "No active Spotify device found. Start playback on a device first.".
Definition failed_notice : event := Toast "error" "Failed to send command.".
Definition not_connected_notice : event := Toast "warning" "Not connected to Spotify.".
Definition plugin_missing_notice : event := Toast "warning" "MPRIS plugin not available.".
Definition plugin_failed_notice : event := Toast "error" "Failed to control player.".

Section Net.

Variable W : Type.
Variable Date_now : W -> Z.
Variable fetch : request -> W -> option http_response * W.

Notation "x <- m ;; k" := (Client.bind W m (fun x => k))
  (at level 61, m at next level, right associativity).

(** Control player via the MPRIS plugin. *)
Definition controlMpris (command : string) : M W unit :=
  let mprisCommand :=
    match lookup command commandMap with
    | Some c => c
    | None => "play-pause"
    end in
  response <- send W fetch (plugin_request mprisCommand) ;;
  match response with
  | None =>
      _ <- emit W (Console "error" "MPRIS control error:") ;;
      emit W plugin_failed_notice
  | Some resp =>
      if negb (ok resp) then emit W plugin_missing_notice else ret W tt
  end.

Definition controlPlayer (command method : string) : M W unit :=
  cfg <- read W ;;
  if useMpris cfg then controlMpris command
  else
    token <- getValidToken W Date_now fetch ;;
    if negb (truthy token) then emit W not_connected_notice
    else
      response <- send W fetch (player_request command method token) ;;
      match response with
      | None =>
          _ <- emit W (Console "error" "Spotify control error:") ;;
          emit W failed_notice
      | Some resp =>
          if status resp =? 403 then emit W premium_notice
          else if status resp =? 404 then emit W no_device_notice
          else if negb (status resp =? 204) then
            _ <- emit W (Console "error" "Spotify control error:") ;;
            emit W failed_notice
          else ret W tt
      end.

(** The click handler of the play/pause button, up to its closing call of
    [updatePlayerUI]. *)
Definition playPauseClick : M W unit :=
  state <- fetchPlayerState W Date_now fetch ;;
  if truthy state && truthy (prop state "is_playing")
  then controlPlayer "pause" "PUT"
  else controlPlayer "play" "PUT".

End Net.

End Controls.

(* ================================================================= *)
(** ** Connecting, disconnecting and switching the backend

    These handlers act on the settings and on the polling timer at once, so
    the state is the pair of both.  Their writes to the settings panel
    ([updateSettingsStatus], the visibility of the API settings) and the
    removal of the player panel are not part of the embedding. *)

Module Session.
Import JS Client.

Definition connected_notice : event := Toast "success" "Connected to Spotify successfully!".
Definition auth_failed_notice : event := Toast "error" "Failed to authenticate with Spotify.".
Definition network_notice : event :=
  Toast "error" "Network error during Spotify authentication.".

(** The token request of [exchangeCodeForToken]; [codeVerifier] is what
    [localStorage] holds and [redirectUri] the origin of the page. *)
Definition exchange_request (cfg : settings_t) (code codeVerifier : value)
    (redirectUri : string) : request :=
  {| url := token_url; method := "POST"; bearer := None;
     form := [("client_id", clientId cfg);
              ("grant_type", VStr "authorization_code");
              ("code", code);
              ("redirect_uri", VStr redirectUri);
              ("code_verifier", codeVerifier)] |}.

Section Net.

Variable W : Type.
Variable Date_now : W -> Z.
Variable fetch : request -> W -> option http_response * W.

Record browser : Type := { app : Client.st W; page : Scheduler.page }.

Notation "x <- m ;; k" := (Client.bind W m (fun x => k))
  (at level 61, m at next level, right associativity).

(** The part of [exchangeCodeForToken] that acts on the settings; it
    returns whether the tokens were stored. *)
Definition exchange (code codeVerifier : value) (redirectUri : string) : M W bool :=
  cfg <- read W ;;
  response <- send W fetch (exchange_request cfg code codeVerifier redirectUri) ;;
  let network_error : M W bool :=
    _ <- emit W (Console "error" "exchange") ;;
    _ <- emit W network_notice ;;
    ret W false in
  match response with
  | None => network_error
  | Some resp =>
      match json resp with
      | None => network_error
      | Some data =>
          match get_prop data "access_token" with
          | None => network_error
          | Some token =>
              if truthy token then
                t <- now W Date_now ;;
                _ <- write W
                  {| clientId := clientId cfg;
                     accessToken := token;
                     refreshToken := prop data "refresh_token";
                     tokenExpiry :=
                       num_add (num_of_Z t)
                         (num_mul (to_number (prop data "expires_in"))
                            (num_of_Z 1000));
                     enablePanel := enablePanel cfg;
                     useMpris := useMpris cfg |} ;;
                _ <- saveSettings W ;;
                _ <- emit W connected_notice ;;
                ret W true
              else
                _ <- emit W (Console "error" "Spotify Auth Error:") ;;
                _ <- emit W auth_failed_notice ;;
                ret W false
          end
      end
  end.

Definition exchangeCodeForToken (code codeVerifier : value) (redirectUri : string)
    (b : browser) : browser :=
  let (stored, s) := exchange code codeVerifier redirectUri (app b) in
  {| app := s;
     page := if stored then Scheduler.startPolling (page b) else page b |}.


(** The change handler of the MPRIS switch. *)
Definition onUseMprisChanged (checked : bool) (b : browser) : browser :=
  let cfg := settings (app b) in
  let act : M W unit :=
    _ <- write W
      {| clientId := clientId cfg;
         accessToken := accessToken cfg;
         refreshToken := refreshToken cfg;
         tokenExpiry := tokenExpiry cfg;
         enablePanel := enablePanel cfg;
         useMpris := checked |} ;;
    saveSettings W in
  let stopped := Scheduler.stopPolling (page b) in
  {| app := snd (act (app b));
     page := if enablePanel cfg then Scheduler.startPolling stopped else stopped |}.

End Net.

Arguments app {W} b.
Arguments page {W} b.

End Session.

(* ================================================================= *)
(** ** The retry loop that adds the menu button

    The loop reads the document through [querySelector]; a document is
    given here by the selectors that match an element of it.  The button,
    once appended, stays in the document. *)

Module MenuButton.

Definition selectors : list string :=
  ["#extensionsMenu"; "#extensions-menu"; "#extensionsList";
   "#extensionsMenuContainer"; "#extensions_menu"].

Record retry : Type := {
  button : option string;   (* the selector of the container that holds it *)
  retryCount : Z;
  live : bool;              (* the interval has not been cleared *)
  warned : bool;            (* the console warning was written *)
  attempts : nat            (* calls of [addExtensionsMenuButton] by the loop *)
}.

Definition initial : retry :=
  {| button := None; retryCount := 0; live := true; warned := false; attempts := O |}.

(** [addExtensionsMenuButton]: where the button is afterwards. *)
Definition addExtensionsMenuButton (matches : string -> bool)
    (button : option string) : option string :=
  match button with
  | Some _ => button
  | None => find matches selectors
  end.

(** One firing of the interval, in a document given by [matches]. *)
Definition tick (r : retry) (matches : string -> bool) : retry :=
  if negb (live r) then r
  else
    match button r with
    | Some _ =>
        {| button := button r; retryCount := retryCount r; live := false;
           warned := warned r; attempts := attempts r |}
    | None =>
        match addExtensionsMenuButton matches (button r) with
        | Some c =>
            {| button := Some c; retryCount := retryCount r; live := false;
               warned := warned r; attempts := S (attempts r) |}
        | None =>
            let n := retryCount r + 1 in
            if n >? 10 then
              {| button := None; retryCount := n; live := false;
                 warned := true; attempts := S (attempts r) |}
            else
              {| button := None; retryCount := n; live := true;
                 warned := warned r; attempts := S (attempts r) |}
        end
    end.

(** The loop over the documents found at its successive firings. *)
Definition run (documents : list (string -> bool)) : retry :=
  fold_left tick documents initial.

(** The first selector, in the order of [selectors], that matches in the
    first of the documents in which any of them matches. *)
Fixpoint first_container (documents : list (string -> bool)) : option string :=
  match documents with
  | [] => None
  | matches :: rest =>
      match find matches selectors with
      | Some c => Some c
      | None => first_container rest
      end
  end.

End MenuButton.

(* ================================================================= *)
(** ** PKCE: the verifier and the challenge *)

Module Pkce.
Import JS.

Definition possible : string :=
  "ABCDEFGHIJKLMNOPQRSTUVWXYZabcdefghijklmnopqrstuvwxyz0123456789".

(** [generateRandomString(length)]; [random i] is what the call number [i]
    of [Math.random()] returns. *)
Fixpoint generateRandomString_from (i : nat) (length : nat) (random : nat -> Q)
    (text : string) : string :=
  match length with
  | O => text
  | S n =>
      generateRandomString_from (S i) n random
        (text ++
         Builtin.charAt possible
           (Math_floor
              (num_mul (Fin (random i))
                 (num_of_Z (Z.of_nat (String.length possible))))))
  end.

Definition generateRandomString (length : nat) (random : nat -> Q) : string :=
  generateRandomString_from 0 length random EmptyString.

Definition base64 : string :=
  "ABCDEFGHIJKLMNOPQRSTUVWXYZabcdefghijklmnopqrstuvwxyz0123456789+/".

Definition b64 (i : Z) : ascii :=
  match String.get (Z.to_nat i) base64 with
  | Some c => c
  | None => "="%char
  end.

(** [btoa] of the string whose characters have the codes [bytes]. *)
Fixpoint btoa (bytes : list Z) : string :=
  match bytes with
  | [] => EmptyString
  | [a] =>
      String (b64 (a / 4)) (String (b64 (a mod 4 * 16)) "==")
  | [a; b] =>
      String (b64 (a / 4))
        (String (b64 (a mod 4 * 16 + b / 16))
           (String (b64 (b mod 16 * 4)) "="))
  | a :: b :: c :: r =>
      String (b64 (a / 4))
        (String (b64 (a mod 4 * 16 + b / 16))
           (String (b64 (b mod 16 * 4 + c / 64))
              (String (b64 (c mod 64)) (btoa r))))
  end.

(** [s.replace(/x/g, y)] for single characters *)
Fixpoint replace_all (x y : ascii) (s : string) : string :=
  match s with
  | EmptyString => EmptyString
  | String c r => String (if Ascii.eqb c x then y else c) (replace_all x y r)
  end.

(** [s.replace(/=+$/, '')] *)
Fixpoint strip_padding (s : string) : string :=
  match s with
  | EmptyString => EmptyString
  | String c r =>
      let r' := strip_padding r in
      if Ascii.eqb c "=" && (r' =? EmptyString)%string then EmptyString
      else String c r'
  end.

(** [generateCodeChallenge]; [digest] is the SHA-256 digest of the
    verifier, as the byte values of the array [crypto.subtle.digest]
    resolves to. *)
Definition generateCodeChallenge (digest : list Z) : string :=
  strip_padding (replace_all "/" "_" (replace_all "+" "-" (btoa digest))).

(** The characters a challenge may hold: letters, digits, [-] and [_]. *)
Definition url_safe (c : ascii) : bool :=
  let n := nat_of_ascii c in
  ((65 <=? n) && (n <=? 90) || (97 <=? n) && (n <=? 122) ||
   (48 <=? n) && (n <=? 57) || (n =? 45) || (n =? 95))%nat.

Fixpoint all_chars (p : ascii -> bool) (s : string) : bool :=
  match s with
  | EmptyString => true
  | String c r => p c && all_chars p r
  end.

(** What the two replacements make of one character. *)
Definition to_url (c : ascii) : ascii :=
  let d := if Ascii.eqb c "+" then "-"%char else c in
  if Ascii.eqb d "/" then "_"%char else d.

Fixpoint map_chars (f : ascii -> ascii) (s : string) : string :=
  match s with
  | EmptyString => EmptyString
  | String c r => String (f c) (map_chars f r)
  end.

(** A character of [possible]. *)
Definition from_possible (c : ascii) : bool :=
  existsb (Ascii.eqb c) (list_ascii_of_string possible).

End Pkce.

(* ================================================================= *)
(** ** The seek bar and the shuffle and repeat buttons *)

Module Clicks.
Import JS Client.

(** Whether [String(v)] is the empty string. *)
Fixpoint prints_empty (v : value) : bool :=
  match v with
  | VStr s => (s =? EmptyString)%string
  | VArr [] => true
  | VArr [x] =>
      match x with
      | VUndefined | VNull => true
      | _ => prints_empty x
      end
  | _ => false
  end.

(** [parseInt(playerPanel.dataset.durationMs || '0', 10)]: the attribute
    holds 0 from the creation of the panel, and afterwards [String(v)] for
    the last duration [v] that [updatePlayerUI] stored. *)
Definition stored_duration (b : bar) : num :=
  match durationMs b with
  | None => parseInt "0"
  | Some v => if prints_empty v then parseInt "0" else parseInt_value v
  end.

(** The request of [seekToPosition]; its body is the JSON text of
    [{position: positionSec}]. *)
Definition seek_request (positionSec : num) : request :=
  {| url := "/api/plugins/mpris/seek"; method := "POST"; bearer := None;
     form := [("position", json_wire (VNum positionSec))] |}.

Definition shuffle_notice : event := Toast "info" "Shuffle toggled".
Definition seek_notice : event := Toast "warning" "Seek not supported".

(** [`${v}`] for a string; other values print as [toString] says. *)
Definition text (toString : value -> string) (v : value) : string :=
  match v with
  | VStr s => s
  | _ => toString v
  end.

Section Net.

Variable W : Type.
Variable fetch : request -> W -> option http_response * W.

Notation "x <- m ;; k" := (Client.bind W m (fun x => k))
  (at level 61, m at next level, right associativity).

(** Seek to a specific position in seconds. *)
Definition seekToPosition (positionSec : num) : M W unit :=
  cfg <- read W ;;
  if useMpris cfg then
    response <- send W fetch (seek_request positionSec) ;;
    match response with
    | None => emit W (Console "error" "Seek error:")
    | Some resp => if negb (ok resp) then emit W seek_notice else ret W tt
    end
  else ret W tt.

(** The click handler of the seek bar: [clickX] is the distance of the
    click from the left edge of the bar, [width] the width of the bar, and
    [progressBar] whether the bar is in the document. *)
Definition seekClick (clickX width : num) (progressBar : bool) (b : bar) : M W bar :=
  let percent := num_div clickX width in
  let durationMs := stored_duration b in
  if num_gt durationMs (num_of_Z 0) then
    let seekPositionSec := num_div (num_mul percent durationMs) (num_of_Z 1000) in
    _ <- seekToPosition seekPositionSec ;;
    ret W (if progressBar
           then {| Client.width := Some (num_mul percent (num_of_Z 100));
                   Client.durationMs := Client.durationMs b |}
           else b)
  else ret W b.

(** The click handler of the shuffle button. *)
Definition shuffleClick : M W unit :=
  response <- send W fetch (Controls.plugin_request "shuffle") ;;
  match response with
  | None => emit W (Console "error" "Shuffle error:")
  | Some resp => if ok resp then emit W shuffle_notice else ret W tt
  end.

(** The click handler of the repeat button. *)
Definition loopClick (toString : value -> string) : M W unit :=
  response <- send W fetch (Controls.plugin_request "loop") ;;
  match response with
  | None => emit W (Console "error" "Loop error:")
  | Some resp =>
      if ok resp then
        match json resp with
        | None => emit W (Console "error" "Loop error:")
        | Some data =>
            match get_prop data "mode" with
            | None => emit W (Console "error" "Loop error:")
            | Some mode =>
                emit W (Toast "info"
                          ("Repeat: " ++ text toString (js_or mode (VStr "Changed"))))
            end
        end
      else ret W tt
  end.

End Net.

End Clicks.

(* ================================================================= *)
(** ** What an observer sees of a run of the extension *)

Module Observe.
Import Client.

(** The requests sent, oldest first. *)
Fixpoint requests (es : list event) : list request :=
  match es with
  | [] => []
  | Sent r :: rest => r :: requests rest
  | _ :: rest => requests rest
  end.

(** The notices shown to the user, oldest first. *)
Fixpoint notices (es : list event) : list event :=
  match es with
  | [] => []
  | Toast level text :: rest => Toast level text :: notices rest
  | _ :: rest => notices rest
  end.

End Observe.

(* ================================================================= *)
(** ** Properties of the arithmetic *)

Lemma Qcompare_inject_Z (a b : Z) :
  Qcompare (inject_Z a) (inject_Z b) = Z.compare a b.
Proof. unfold Qcompare, inject_Z. cbn [Qnum Qden]. rewrite !Z.mul_1_r. reflexivity. Qed.

(** [now > expiry - skew] on integers. *)
Lemma num_gt_skew (t e c : Z) :
  JS.num_gt (JS.num_of_Z t) (JS.num_sub (JS.num_of_Z e) (JS.num_of_Z c)) =
  (e - c <? t).
Proof.
  unfold JS.num_of_Z, JS.num_sub, JS.num_neg, JS.num_add, JS.num_gt.
  assert (E : Qred (inject_Z e + Qred (- inject_Z c)) == inject_Z (e - c)).
  { rewrite !Qred_correct. unfold Qeq, Qplus, Qopp, inject_Z. cbn [Qnum Qden].
    change (Z.pos (1 * 1)) with 1. lia. }
  rewrite (Qcompare_comp _ _ (Qeq_refl _) _ _ E), Qcompare_inject_Z.
  unfold Z.ltb. rewrite (Z.compare_antisym t (e - c)).
  destruct (t ?= e - c); reflexivity.
Qed.

Lemma Qzero_b_inject_Z (c : Z) : c <> 0 -> JS.Qzero_b (inject_Z c) = false.
Proof.
  intros H. unfold JS.Qzero_b.
  change 0%Q with (inject_Z 0). rewrite Qcompare_inject_Z.
  destruct (Z.compare_spec c 0); [contradiction | reflexivity | reflexivity].
Qed.

Lemma Qred_inject_Z (n : Z) : Qred (inject_Z n) = inject_Z n.
Proof.
  unfold Qred, inject_Z.
  pose proof (Z.ggcd_gcd n 1) as G.
  pose proof (Z.ggcd_correct_divisors n 1) as D.
  destruct (Z.ggcd n 1) as [g [a b]]. cbn [fst snd] in *.
  rewrite Z.gcd_1_r in G. subst g. destruct D as [Da Db].
  rewrite Z.mul_1_l in Da, Db. subst a b. reflexivity.
Qed.

Lemma Qred_is_inject_Z (q : Q) (n : Z) : q == inject_Z n -> Qred q = inject_Z n.
Proof.
  intros H. rewrite (Qred_complete _ _ H). apply Qred_inject_Z.
Qed.

Lemma nearest_even_spec (n d : Z) :
  0 < d ->
  - d <= 2 * (JS.nearest_even n d * d - n) <= d.
Proof.
  intros H. unfold JS.nearest_even. cbv zeta.
  pose proof (Z.div_mod n d ltac:(lia)) as E.
  pose proof (Z.mod_pos_bound n d H) as B.
  destruct (Z.compare_spec (2 * (n mod d)) d) as [C | C | C];
    [destruct (Z.even (n / d)) | | ]; nia.
Qed.

Lemma nearest_even_exact (k d : Z) : 0 < d -> JS.nearest_even (k * d) d = k.
Proof.
  intros H. unfold JS.nearest_even. cbv zeta.
  rewrite Z.div_mul, Z.mod_mul by lia.
  change (2 * 0) with 0. destruct (Z.compare_spec 0 d); [lia | reflexivity | lia].
Qed.

(** The nearest integer is within a half of the rational. *)
Lemma nearest_even_near (x : Q) :
  let m := JS.nearest_even (Qnum x) (Zpos (Qden x)) in
  ((inject_Z m - x) * 2 <= 1 /\ (x - inject_Z m) * 2 <= 1)%Q.
Proof.
  cbv zeta. destruct x as [n d]. cbn [Qnum Qden].
  pose proof (nearest_even_spec n (Zpos d) ltac:(lia)) as S.
  set (m := JS.nearest_even n (Z.pos d)) in *. clearbody m.
  unfold Qle, Qminus, Qplus, Qmult, Qopp, inject_Z. cbn [Qnum Qden].
  rewrite !Pos2Z.inj_mul. split; nia.
Qed.

Lemma nearest_even_whole (x : Q) (k : Z) :
  (x == inject_Z k)%Q -> JS.nearest_even (Qnum x) (Zpos (Qden x)) = k.
Proof.
  destruct x as [n d]. unfold Qeq, inject_Z. cbn [Qnum Qden]. intros E.
  replace n with (k * Zpos d) by lia.
  apply nearest_even_exact. lia.
Qed.

Lemma pow2_pos (e : Z) : (0 < 2 ^ e)%Q.
Proof. apply Qpower_0_lt. reflexivity. Qed.

Lemma pow2_add (a b : Z) : (2 ^ (a + b) == 2 ^ a * 2 ^ b)%Q.
Proof. apply Qpower_plus. discriminate. Qed.

Lemma pow2_le (a b : Z) : a <= b -> (2 ^ a <= 2 ^ b)%Q.
Proof. intros H. apply Qpower_le_compat_l; [exact H | discriminate]. Qed.

Lemma pow2_lt (a b : Z) : a < b -> (2 ^ a < 2 ^ b)%Q.
Proof. intros H. apply Qpower_lt_compat_l; [exact H | reflexivity]. Qed.

Lemma pow2_lt_inv (a b : Z) : (2 ^ a < 2 ^ b)%Q -> a < b.
Proof.
  intros H. destruct (Z_lt_le_dec a b) as [L | L]; [exact L | ].
  exfalso. apply (Qlt_not_le _ _ H). apply pow2_le. exact L.
Qed.

Lemma pow2_Z (n : Z) : 0 <= n -> (2 ^ n == inject_Z (2 ^ n))%Q.
Proof. intros H. symmetry. apply (Zpower_Qpower 2 n H). Qed.

Lemma pow2_cancel (q : Q) (e : Z) : (q * 2 ^ (- e) * 2 ^ e == q)%Q.
Proof.
  rewrite <- Qmult_assoc, <- pow2_add.
  replace (- e + e) with 0 by lia. change (2 ^ 0)%Q with 1%Q. apply Qmult_1_r.
Qed.

(** The exponent of the last place, before it is kept from going below
    that of the subnormal numbers. *)
Lemma last_place_spec (q : Q) :
  (0 < q)%Q ->
  exists e, JS.last_place q = Z.max e (-1074) /\
            (2 ^ (e + 52) <= q)%Q /\ (q < 2 ^ (e + 53))%Q.
Proof.
  intros Hq. destruct q as [n d].
  assert (Hn : 0 < n). { unfold Qlt in Hq. cbn in Hq. lia. }
  unfold JS.last_place. cbn [Qnum Qden].
  pose proof (Z.log2_spec n Hn) as [Ln Un].
  pose proof (Z.log2_spec (Zpos d) ltac:(lia)) as [Ld Ud].
  pose proof (Z.log2_nonneg n) as Nn.
  pose proof (Z.log2_nonneg (Zpos d)) as Nd.
  set (ln := Z.log2 n) in *. set (ld := Z.log2 (Zpos d)) in *.
  assert (Pn : 0 < 2 ^ ln) by (apply Z.pow_pos_nonneg; lia).
  assert (Pd : 0 < 2 ^ ld) by (apply Z.pow_pos_nonneg; lia).
  assert (Sn : 2 ^ Z.succ ln = 2 * 2 ^ ln) by (apply Z.pow_succ_r; lia).
  assert (Sd : 2 ^ Z.succ ld = 2 * 2 ^ ld) by (apply Z.pow_succ_r; lia).
  (* [2 ^ (l - 1) < q < 2 ^ (l + 1)] *)
  assert (Up : (n # d < 2 ^ (ln - ld + 1))%Q).
  { replace (ln - ld + 1) with (Z.succ ln + - ld) by lia.
    rewrite pow2_add, Qpower_opp, !pow2_Z by lia.
    apply Qlt_shift_div_l.
    - change 0%Q with (inject_Z 0). rewrite <- Zlt_Qlt. exact Pd.
    - unfold Qlt, Qmult, inject_Z. cbn [Qnum Qden]. nia. }
  assert (Lo : (2 ^ (ln - ld - 1) < n # d)%Q).
  { replace (ln - ld - 1) with (ln + - Z.succ ld) by lia.
    rewrite pow2_add, Qpower_opp, !pow2_Z by lia.
    apply Qlt_shift_div_r.
    - change 0%Q with (inject_Z 0). rewrite <- Zlt_Qlt. lia.
    - unfold Qlt, Qmult, inject_Z. cbn [Qnum Qden]. nia. }
  destruct (Qle_bool (2 ^ (ln - ld)) (n # d)) eqn:B.
  - exists (ln - ld - 52). split; [reflexivity | ]. split.
    + replace (ln - ld - 52 + 52) with (ln - ld) by lia.
      apply Qle_bool_iff. exact B.
    + replace (ln - ld - 52 + 53) with (ln - ld + 1) by lia. exact Up.
  - exists (ln - ld - 53). split; [reflexivity | ]. split.
    + replace (ln - ld - 53 + 52) with (ln - ld - 1) by lia.
      apply Qlt_le_weak. exact Lo.
    + replace (ln - ld - 53 + 53) with (ln - ld) by lia.
      apply Qnot_le_lt. intros C. apply Qle_bool_iff in C. congruence.
Qed.

(** In the normal range the rounded number is within one part in [2 ^ 53]
    of the exact one. *)
Lemma round_pos_near (q : Q) :
  (2 ^ (-1022) <= q)%Q -> (q < 2 ^ 1023)%Q ->
  exists r, JS.round_pos q = JS.Fin r /\
            ((r - q) * 2 ^ 53 <= q)%Q /\ ((q - r) * 2 ^ 53 <= q)%Q.
Proof.
  intros Lo Hi.
  assert (Hq : (0 < q)%Q).
  { apply Qlt_le_trans with (2 ^ (-1022))%Q; [apply pow2_pos | exact Lo]. }
  destruct (last_place_spec q Hq) as (e & E & Le & Lt).
  assert (He : -1074 <= e).
  { assert (-1022 < e + 53); [ | lia].
    apply pow2_lt_inv. apply Qle_lt_trans with q; assumption. }
  assert (He' : e + 52 < 1023).
  { apply pow2_lt_inv. apply Qle_lt_trans with q; assumption. }
  rewrite Z.max_l in E by lia.
  unfold JS.round_pos. cbv zeta. rewrite E.
  set (x := (q * 2 ^ (- e))%Q).
  pose proof (nearest_even_near x) as [N1 N2]. cbv zeta in N1, N2.
  set (m := JS.nearest_even (Qnum x) (Z.pos (Qden x))) in *.
  assert (Xq : (x * 2 ^ e == q)%Q) by apply pow2_cancel.
  assert (Xhi : (x < 2 ^ 53)%Q).
  { unfold x. apply Qlt_le_trans with (2 ^ (e + 53) * 2 ^ (- e))%Q.
    - apply Qmult_lt_compat_r; [apply pow2_pos | exact Lt].
    - rewrite <- pow2_add. replace (e + 53 + - e) with 53 by lia. apply Qle_refl. }
  assert (Xlo : (2 ^ 52 <= x)%Q).
  { unfold x. apply Qle_trans with (2 ^ (e + 52) * 2 ^ (- e))%Q.
    - rewrite <- pow2_add. replace (e + 52 + - e) with 52 by lia. apply Qle_refl.
    - apply Qmult_le_compat_r; [exact Le | apply Qlt_le_weak, pow2_pos]. }
  assert (Mhi : m <= 2 ^ 53).
  { assert (L : (inject_Z m < inject_Z (2 ^ 53 + 1))%Q).
    { rewrite inject_Z_plus. rewrite <- pow2_Z by lia.
      change (inject_Z 1) with 1%Q. nra. }
    rewrite <- Zlt_Qlt in L. lia. }
  assert (Mlo : 0 <= m).
  { assert (L : (inject_Z (-1) < inject_Z m)%Q).
    { change (inject_Z (-1)) with (-1)%Q.
      assert (0 < 2 ^ 52)%Q by apply pow2_pos. nra. }
    rewrite <- Zlt_Qlt in L. lia. }
  assert (O : (2 ^ 2098 <=? m * 2 ^ (e + 1074)) = false).
  { apply Z.leb_gt.
    apply Z.le_lt_trans with (2 ^ 53 * 2 ^ 2044).
    - apply Z.mul_le_mono_nonneg; [exact Mlo | exact Mhi | | ].
      + apply Z.pow_nonneg. lia.
      + apply Z.pow_le_mono_r; lia.
    - rewrite <- Z.pow_add_r by lia. apply Z.pow_lt_mono_r; lia. }
  rewrite O. eexists. split; [reflexivity | ].
  rewrite Qred_correct.
  pose proof (pow2_pos e) as Pe.
  assert (P53 : (2 ^ (e + 52) * 2 == 2 ^ e * 2 ^ 53)%Q).
  { rewrite <- (pow2_add e 53). replace (e + 53) with (e + 52 + 1) by lia.
    rewrite (pow2_add (e + 52) 1). reflexivity. }
  set (p := (2 ^ e)%Q) in *. set (h := (2 ^ (e + 52))%Q) in *.
  set (t := (2 ^ 53)%Q) in *.
  assert (Pt : (0 < t)%Q) by apply pow2_pos.
  clearbody p h t. clear O Mhi Mlo Xhi Xlo.
  split.
  - apply Qle_trans with h; [ | exact Le].
    assert (G : ((inject_Z m * p - q) * t == (inject_Z m - x) * 2 * h)%Q).
    { rewrite <- Xq. setoid_replace ((inject_Z m - x) * 2 * h)%Q
        with ((inject_Z m - x) * (h * 2))%Q by ring.
      rewrite P53. ring. }
    rewrite G.
    assert (0 < h)%Q by nra. nra.
  - apply Qle_trans with h; [ | exact Le].
    assert (G : ((q - inject_Z m * p) * t == (x - inject_Z m) * 2 * h)%Q).
    { rewrite <- Xq. setoid_replace ((x - inject_Z m) * 2 * h)%Q
        with ((x - inject_Z m) * (h * 2))%Q by ring.
      rewrite P53. ring. }
    rewrite G.
    assert (0 < h)%Q by nra. nra.
Qed.

(** Rounding sees the value of a rational, not the fraction that holds it. *)
Lemma binary64_Qeq (q q' : Q) :
  (q == q')%Q -> JS.binary64 (JS.Fin q) = JS.binary64 (JS.Fin q').
Proof.
  intros H. unfold JS.binary64.
  rewrite (Qcompare_comp q q' H 0%Q 0%Q (Qeq_refl 0)).
  rewrite (Qred_complete q q' H).
  assert (H' : (- q == - q')%Q) by (rewrite H; reflexivity).
  rewrite (Qred_complete _ _ H'). reflexivity.
Qed.

(** The whole numbers below [2 ^ 53] are binary64 numbers. *)
Lemma binary64_whole (z : Z) :
  0 <= z < 2 ^ 53 -> JS.binary64 (JS.num_of_Z z) = JS.num_of_Z z.
Proof.
  intros [Lo Hi]. unfold JS.binary64, JS.num_of_Z.
  change 0%Q with (inject_Z 0). rewrite Qcompare_inject_Z.
  destruct (Z.compare_spec z 0) as [E | L | G]; [subst z; reflexivity | lia | ].
  rewrite Qred_inject_Z. unfold JS.round_pos. cbv zeta.
  assert (E : JS.last_place (inject_Z z) = Z.log2 z - 52).
  { unfold JS.last_place, inject_Z. cbn [Qnum Qden]. change (Z.log2 1) with 0.
    rewrite Z.sub_0_r.
    pose proof (Z.log2_nonneg z).
    replace (Qle_bool (2 ^ Z.log2 z) (z # 1)) with true.
    - lia.
    - symmetry. apply Qle_bool_iff. rewrite pow2_Z by lia.
      change (z # 1) with (inject_Z z). rewrite <- Zle_Qle.
      apply Z.log2_spec. lia. }
  rewrite E.
  assert (L52 : Z.log2 z <= 52).
  { assert (Z.log2 z < 53); [ | lia]. apply Z.log2_lt_pow2; lia. }
  pose proof (Z.log2_nonneg z) as L0.
  set (e := Z.log2 z - 52) in *.
  assert (X : (inject_Z z * 2 ^ (- e) == inject_Z (z * 2 ^ (- e)))%Q).
  { rewrite inject_Z_mult, pow2_Z by lia. reflexivity. }
  rewrite (nearest_even_whole _ _ X).
  assert (O : (2 ^ 2098 <=? z * 2 ^ (- e) * 2 ^ (e + 1074)) = false).
  { apply Z.leb_gt. rewrite <- Z.mul_assoc, <- Z.pow_add_r by lia.
    replace (- e + (e + 1074)) with 1074 by lia.
    apply Z.lt_le_trans with (2 ^ 53 * 2 ^ 1074).
    - apply Z.mul_lt_mono_pos_r; [apply Z.pow_pos_nonneg; lia | exact Hi].
    - rewrite <- Z.pow_add_r by lia. apply Z.pow_le_mono_r; lia. }
  rewrite O. f_equal. apply Qred_is_inject_Z.
  rewrite inject_Z_mult, <- pow2_Z by lia. apply pow2_cancel.
Qed.

Lemma Qfloor_between (x : Q) (k : Z) :
  (inject_Z k <= x)%Q -> (x < inject_Z (k + 1))%Q -> Qfloor x = k.
Proof.
  intros Lo Hi.
  pose proof (Qfloor_resp_le _ _ Lo) as A. rewrite Qfloor_Z in A.
  assert (B : Qfloor x < k + 1).
  { rewrite Zlt_Qlt. apply Qle_lt_trans with x; [apply Qfloor_le | exact Hi]. }
  lia.
Qed.

Lemma binary64_positive (q : Q) :
  (0 < q)%Q -> JS.binary64 (JS.Fin q) = JS.round_pos (Qred q).
Proof.
  intros H. unfold JS.binary64.
  destruct (Qcompare_spec q 0) as [E | L | G]; [ | | reflexivity].
  - rewrite E in H. discriminate.
  - exfalso. apply (Qlt_irrefl 0). apply Qlt_trans with q; assumption.
Qed.

(** The quotient of two whole numbers below [2 ^ 53], rounded, has the
    floor of the exact quotient. *)
Lemma floor_binary64_div (u d : Z) :
  0 <= u < 2 ^ 53 -> 0 < d < 2 ^ 53 ->
  JS.Math_floor (JS.binary64 (JS.num_div (JS.num_of_Z u) (JS.num_of_Z d))) =
  JS.num_of_Z (u / d).
Proof.
  intros [Hu Bu] [Hd Bd]. unfold JS.num_div, JS.num_of_Z.
  rewrite Qzero_b_inject_Z by lia.
  rewrite (binary64_Qeq _ _ (Qred_correct _)).
  pose proof (Z.div_mod u d ltac:(lia)) as DM.
  pose proof (Z.mod_pos_bound u d Hd) as MB.
  assert (K0 : 0 <= u / d) by (apply Z.div_pos; lia).
  assert (Pd : (0 < inject_Z d)%Q).
  { change 0%Q with (inject_Z 0). rewrite <- Zlt_Qlt. exact Hd. }
  destruct (Z.eq_dec (u mod d) 0) as [R0 | R1].
  - (* the quotient is a whole number *)
    assert (Q : (inject_Z u / inject_Z d == inject_Z (u / d))%Q).
    { assert (Eu : (inject_Z u == inject_Z (u / d) * inject_Z d)%Q).
      { rewrite <- inject_Z_mult. replace (u / d * d) with u by lia. reflexivity. }
      rewrite Eu. field. intros C. rewrite C in Pd. discriminate. }
    rewrite (binary64_Qeq _ _ Q).
    change (JS.Fin (inject_Z (u / d))) with (JS.num_of_Z (u / d)).
    rewrite binary64_whole.
    + unfold JS.Math_floor, JS.num_of_Z. rewrite Qfloor_Z. reflexivity.
    + split; [exact K0 | ]. apply Z.le_lt_trans with u; [ | exact Bu].
      apply Z.div_le_upper_bound; nia.
  - set (q := (inject_Z u / inject_Z d)%Q).
    assert (U1 : 1 <= u) by (destruct (Z.eq_dec u 0); [subst u; rewrite Z.mod_0_l in R1; lia | lia]).
    assert (Qd : (q * inject_Z d == inject_Z u)%Q).
    { unfold q. field. intros C. rewrite C in Pd. discriminate. }
    assert (Pq : (0 < q)%Q).
    { unfold q. apply Qlt_shift_div_l; [exact Pd | ].
      rewrite Qmult_0_l. change 0%Q with (inject_Z 0). rewrite <- Zlt_Qlt. lia. }
    assert (T : (2 ^ 53 == inject_Z (2 ^ 53))%Q) by (apply pow2_Z; lia).
    rewrite (binary64_positive q Pq).
    destruct (round_pos_near (Qred q)) as (r & E & B1 & B2).
    + rewrite Qred_correct.
      apply Qle_trans with (2 ^ (-53))%Q; [apply pow2_le; lia | ].
      unfold q. apply Qle_shift_div_l; [exact Pd | ].
      apply Qle_trans with 1%Q.
      * assert (I : (2 ^ (-53) * inject_Z (2 ^ 53) == 1)%Q) by reflexivity.
        rewrite <- I. apply Qmult_le_l; [apply pow2_pos | ].
        rewrite <- Zle_Qle. lia.
      * change 1%Q with (inject_Z 1). rewrite <- Zle_Qle. exact U1.
    + rewrite Qred_correct.
      apply Qlt_le_trans with (2 ^ 53)%Q; [ | apply pow2_le; lia].
      unfold q. apply Qlt_shift_div_r; [exact Pd | ].
      rewrite T, <- inject_Z_mult, <- Zlt_Qlt. nia.
    + rewrite E. unfold JS.Math_floor. do 2 f_equal.
      rewrite Qred_correct in B1, B2. rewrite T in B1, B2.
      apply Qfloor_between.
      * (* [k <= r] *)
        assert (G : (inject_Z (u / d) * inject_Z d + inject_Z (u mod d) == inject_Z u)%Q).
        { rewrite <- inject_Z_mult, <- inject_Z_plus.
          replace (u / d * d + u mod d) with u by lia. reflexivity. }
        assert (R : (1 <= inject_Z (u mod d))%Q).
        { change 1%Q with (inject_Z 1). rewrite <- Zle_Qle. lia. }
        assert (Ub : (inject_Z u <= inject_Z (2 ^ 53))%Q) by (rewrite <- Zle_Qle; lia).
        set (t := inject_Z (2 ^ 53)) in *. set (k := inject_Z (u / d)) in *.
        set (dd := inject_Z d) in *. set (uu := inject_Z u) in *.
        set (rr := inject_Z (u mod d)) in *.
        assert (Pt : (0 < t)%Q) by (unfold t; change 0%Q with (inject_Z 0); rewrite <- Zlt_Qlt; lia).
        clearbody t k dd uu rr q.
        (* (q - r) * t <= q, so r >= q - q/t; q*dd = uu = k*dd + rr *)
        apply Qnot_lt_le. intros C.
        assert (X : ((q - r) * t * dd <= q * dd)%Q).
        { apply Qmult_le_compat_r; [exact B2 | apply Qlt_le_weak; exact Pd]. }
        nra.
      * assert (G : (inject_Z (u / d) * inject_Z d + inject_Z (u mod d) == inject_Z u)%Q).
        { rewrite <- inject_Z_mult, <- inject_Z_plus.
          replace (u / d * d + u mod d) with u by lia. reflexivity. }
        assert (R : (inject_Z (u mod d) + 1 <= inject_Z d)%Q).
        { change 1%Q with (inject_Z 1). rewrite <- inject_Z_plus, <- Zle_Qle. lia. }
        assert (Ub : (inject_Z u + 1 <= inject_Z (2 ^ 53))%Q).
        { change 1%Q with (inject_Z 1). rewrite <- inject_Z_plus, <- Zle_Qle. lia. }
        rewrite inject_Z_plus. change (inject_Z 1) with 1%Q.
        set (t := inject_Z (2 ^ 53)) in *. set (k := inject_Z (u / d)) in *.
        set (dd := inject_Z d) in *. set (uu := inject_Z u) in *.
        set (rr := inject_Z (u mod d)) in *.
        assert (Pt : (0 < t)%Q) by (unfold t; change 0%Q with (inject_Z 0); rewrite <- Zlt_Qlt; lia).
        assert (Pu : (1 <= uu)%Q) by (unfold uu; change 1%Q with (inject_Z 1); rewrite <- Zle_Qle; lia).
        clearbody t k dd uu rr q.
        apply Qnot_le_lt. intros C.
        assert (X : ((r - q) * t * dd <= q * dd)%Q).
        { apply Qmult_le_compat_r; [exact B1 | apply Qlt_le_weak; exact Pd]. }
        nra.
Qed.


(* ================================================================= *)
(** ** Properties of the plugin *)

Section PluginFacts.

Import JS Mpris.

Variable W : Type.
Variable execAsync : string -> W -> option string * W.

(** [playerctl] spawns one command, trims what it prints and turns a
    failure into [null]; it writes nothing to the error log. *)
Lemma playerctl_run (args : string) (s : st W) :
  Mpris.playerctl W execAsync args s =
    (match fst (execAsync ("playerctl " ++ args) (world s)) with
     | Some out => Some (trim out)
     | None => None
     end,
     {| world := snd (execAsync ("playerctl " ++ args) (world s));
        spawned := spawned s ++ ["playerctl " ++ args]%string;
        errors := errors s |}).
Proof.
  unfold Mpris.playerctl.
  destruct (execAsync ("playerctl " ++ args) (world s)) as [o w']; reflexivity.
Qed.

(** A handler that spawns one command and answers [{success: true}]. *)
Lemma fire_and_forget (args : string) (s : st W) :
  bind W (Mpris.playerctl W execAsync args)
       (fun _ => ret W (res_json (VObj [("success", VBool true)]))) s
  = (Spec.success,
     {| world := snd (execAsync ("playerctl " ++ args) (world s));
        spawned := spawned s ++ ["playerctl " ++ args]%string;
        errors := errors s |}).
Proof. unfold bind. rewrite playerctl_run. reflexivity. Qed.

Lemma handle_loop (s : st W) :
  Mpris.handle W execAsync PostLoop s =
    let current := fst (Mpris.playerctl W execAsync "loop" s) in
    let nextMode :=
      at_index modes (Z.rem (indexOf modes current + 1) 3) in
    (res_json (VObj [("success", VBool true); ("mode", opt_value nextMode)]),
     snd (Mpris.playerctl W execAsync ("loop " ++ template nextMode) (snd (Mpris.playerctl W execAsync "loop" s)))).
Proof.
  unfold Mpris.handle, bind.
  destruct (Mpris.playerctl W execAsync "loop" s) as [current s1]. cbn [fst snd].
  destruct (Mpris.playerctl W execAsync _ s1) as [x s2]. reflexivity.
Qed.

End PluginFacts.

Lemma indexOf_absent (x : string) :
  ~ In x Mpris.modes -> Mpris.indexOf Mpris.modes (Some x) = -1.
Proof.
  intros H. unfold Mpris.indexOf, Mpris.modes, Mpris.indexOf_from, Mpris.is_str.
  destruct (String.eqb_spec x "None") as [E | _];
    [ exfalso; apply H; subst; simpl; tauto | ].
  destruct (String.eqb_spec x "Track") as [E | _];
    [ exfalso; apply H; subst; simpl; tauto | ].
  destruct (String.eqb_spec x "Playlist") as [E | _];
    [ exfalso; apply H; subst; simpl; tauto | ].
  reflexivity.
Qed.

(** C9.  Each of the control endpoints play-pause, play, pause, next,
    previous and shuffle answers HTTP 200 with body [{success: true}] on
    every machine, whatever becomes of the command: [playerctl] turns a
    failed command into [null], the handler drops that result and writes
    nothing to the error log.  So the answer on a machine where the command
    fails is the answer on a machine where it is delivered. *)
Theorem control_routes_always_succeed :
  (forall (W : Type) (execAsync : string -> W -> option string * W)
          (args : string) (s : Mpris.st W),
      fst (Mpris.playerctl W execAsync args s) =
        option_map JS.trim (fst (execAsync ("playerctl " ++ args)%string (Mpris.world s)))) /\
  Forall
    (fun r =>
       (forall (W : Type) (execAsync : string -> W -> option string * W)
               (s : Mpris.st W),
           fst (Mpris.handle W execAsync r s) = Spec.success /\
           Mpris.errors (snd (Mpris.handle W execAsync r s)) = Mpris.errors s) /\
       fst (Mpris.handle _ Desktop.execAsync r (Mpris.start Desktop.nothing)) =
       fst (Mpris.handle _ Desktop.execAsync r (Mpris.start Desktop.song_a)))
    Spec.control_routes.
Proof.
  split.
  - intros W execAsync args s. rewrite playerctl_run. cbn [fst].
    destruct (fst (execAsync _ _)); reflexivity.
  - unfold Spec.control_routes.
    repeat (apply Forall_cons || apply Forall_nil);
      (split;
       [ intros W execAsync s; unfold Mpris.handle;
         rewrite fire_and_forget; split; reflexivity
       | unfold Mpris.handle; rewrite !fire_and_forget; reflexivity ]).
Qed.

(** C10.  When the read of the current loop mode fails, or prints anything
    other than None, Track or Playlist, [indexOf] is -1, the handler sets
    the absolute mode None and answers [{success: true, mode: "None"}]. *)
Theorem loop_read_failure_sets_None :
  forall (W : Type) (execAsync : string -> W -> option string * W)
         (s : Mpris.st W),
    match fst (execAsync "playerctl loop" (Mpris.world s)) with
    | None => True
    | Some out => ~ In (JS.trim out) Mpris.modes
    end ->
    Mpris.indexOf Mpris.modes (fst (Mpris.playerctl W execAsync "loop" s)) = -1 /\
    fst (Mpris.handle W execAsync Mpris.PostLoop s) = Spec.success_mode "None" /\
    Mpris.spawned (snd (Mpris.handle W execAsync Mpris.PostLoop s)) =
      Mpris.spawned s ++ ["playerctl loop"; "playerctl loop None"].
Proof.
  intros W execAsync s H.
  assert (I : Mpris.indexOf Mpris.modes
                (fst (Mpris.playerctl W execAsync "loop" s)) = -1).
  { rewrite playerctl_run. cbn [fst]. change ("playerctl " ++ "loop")%string
      with "playerctl loop".
    destruct (fst (execAsync "playerctl loop" (Mpris.world s))) as [out | ].
    - apply indexOf_absent, H.
    - reflexivity. }
  split; [exact I | ].
  rewrite handle_loop. cbv zeta. rewrite I.
  change (Mpris.at_index Mpris.modes (Z.rem (-1 + 1) 3)) with (Some "None").
  split; [reflexivity | ].
  cbn [Mpris.template]. rewrite !playerctl_run. cbn [snd Mpris.spawned].
  rewrite <- app_assoc. reflexivity.
Qed.

(** With no player running the read fails, and the mode set is None. *)
Lemma loop_read_failure_sets_None_witness :
  fst (Mpris.handle _ Desktop.execAsync Mpris.PostLoop (Mpris.start Desktop.nothing))
  = Spec.success_mode "None".
Proof.
  exact (proj1 (proj2
    (loop_read_failure_sets_None _ Desktop.execAsync (Mpris.start Desktop.nothing) I))).
Defined.

(** C6.  For every current repeat mode None, Track or Playlist the loop
    handler first reads the mode with [playerctl loop] and then sets the
    next mode of the cycle None, Track, Playlist, None by its absolute name;
    three requests in a row to a player whose mode is None spawn the
    commands that set Track, Playlist and None, in that order. *)
Theorem cycleRepeat_sets_next_absolute_mode :
  (forall (W : Type) (execAsync : string -> W -> option string * W)
          (s : Mpris.st W) (m : Spec.repeat) (out : string),
      fst (execAsync "playerctl loop" (Mpris.world s)) = Some out ->
      JS.trim out = Spec.name m ->
      fst (Mpris.handle W execAsync Mpris.PostLoop s) =
        Spec.success_mode (Spec.name (Spec.next m)) /\
      Mpris.spawned (snd (Mpris.handle W execAsync Mpris.PostLoop s)) =
        Mpris.spawned s ++
        ["playerctl loop"; ("playerctl loop " ++ Spec.name (Spec.next m))%string]) /\
  (forall p : Desktop.player,
      Desktop.running p = true ->
      Desktop.loop p = "None" ->
      let run := Mpris.serve _ Desktop.execAsync
                   [Mpris.PostLoop; Mpris.PostLoop; Mpris.PostLoop]
                   (Mpris.start p) in
      fst run = [Spec.success_mode "Track"; Spec.success_mode "Playlist";
                 Spec.success_mode "None"] /\
      Mpris.spawned (snd run) =
        ["playerctl loop"; "playerctl loop Track";
         "playerctl loop"; "playerctl loop Playlist";
         "playerctl loop"; "playerctl loop None"] /\
      Desktop.loop (Mpris.world (snd run)) = "None").
Proof.
  split.
  - intros W execAsync s m out Hout Hm.
    rewrite handle_loop. cbv zeta.
    assert (C : fst (Mpris.playerctl W execAsync "loop" s) = Some (Spec.name m)).
    { rewrite playerctl_run. cbn [fst].
      change ("playerctl " ++ "loop")%string with "playerctl loop".
      rewrite Hout, Hm. reflexivity. }
    rewrite C. split.
    + destruct m; reflexivity.
    + rewrite !playerctl_run. cbn [snd Mpris.spawned].
      rewrite <- app_assoc. destruct m; reflexivity.
  - intros [run ti ar al au pb po pu le sh lo] Hrun Hloop.
    cbn [Desktop.running Desktop.loop] in Hrun, Hloop. subst run lo.
    vm_compute. repeat split.
Qed.

(** A player in mode None: one request sets Track, three close the cycle. *)
Lemma cycleRepeat_sets_next_absolute_mode_witness :
  fst (Mpris.handle _ Desktop.execAsync Mpris.PostLoop (Mpris.start Desktop.song_a))
    = Spec.success_mode "Track" /\
  Mpris.spawned
    (snd (Mpris.serve _ Desktop.execAsync
            [Mpris.PostLoop; Mpris.PostLoop; Mpris.PostLoop]
            (Mpris.start Desktop.song_a))) =
    ["playerctl loop"; "playerctl loop Track";
     "playerctl loop"; "playerctl loop Playlist";
     "playerctl loop"; "playerctl loop None"].
Proof.
  split.
  - exact (proj1 (proj1 cycleRepeat_sets_next_absolute_mode
                    _ Desktop.execAsync (Mpris.start Desktop.song_a) Spec.RNone
                    (Desktop.line "None") eq_refl eq_refl)).
  - exact (proj1 (proj2 (proj2 cycleRepeat_sets_next_absolute_mode
                           Desktop.song_a eq_refl eq_refl))).
Defined.

Section StateFacts.

Import JS Mpris.

Variable W : Type.
Variable execAsync : string -> W -> option string * W.

Lemma playerctl_spawned (args : string) (s : st W) :
  spawned (snd (Mpris.playerctl W execAsync args s)) =
    spawned s ++ [("playerctl " ++ args)%string].
Proof. rewrite playerctl_run. reflexivity. Qed.

Lemma playerctl_errors (args : string) (s : st W) :
  errors (snd (Mpris.playerctl W execAsync args s)) = errors s.
Proof. rewrite playerctl_run. reflexivity. Qed.

(** When the metadata query fails or prints nothing, the other queries are
    skipped. *)
Lemma getPlayerState_no_metadata (s : st W) :
  falsy (fst (Mpris.playerctl W execAsync metadata_args s)) = true ->
  getPlayerState W execAsync s =
    (Spec.unavailable, snd (Mpris.playerctl W execAsync metadata_args s)).
Proof.
  intros H. unfold getPlayerState, getPlayerState_try, bind.
  destruct (Mpris.playerctl W execAsync metadata_args s) as [raw s1].
  cbn [fst snd] in *. rewrite H. reflexivity.
Qed.


(** When the metadata does not parse, the four fields are queried one by one
    and the state is available. *)
Lemma getPlayerState_fallback (s : st W) (text : string) :
  fst (Mpris.playerctl W execAsync metadata_args s) = Some text ->
  text <> EmptyString ->
  JSON_parse text = None ->
  prop (fst (getPlayerState W execAsync s)) "available" = VBool true /\
  spawned (snd (getPlayerState W execAsync s)) =
    spawned s ++
    [("playerctl " ++ metadata_args)%string; "playerctl status";
     "playerctl metadata title"; "playerctl metadata artist";
     "playerctl metadata album"; "playerctl metadata mpris:artUrl";
     "playerctl position"; "playerctl shuffle"; "playerctl loop"].
Proof.
  intros Hraw Hne Hparse.
  unfold getPlayerState, getPlayerState_try, bind.
  pose proof (playerctl_spawned metadata_args s) as P0.
  destruct (Mpris.playerctl W execAsync metadata_args s) as [raw s0].
  cbn [fst snd] in *. subst raw.
  assert (F : falsy (Some text) = false).
  { unfold falsy. apply String.eqb_neq. exact Hne. }
  rewrite F.
  assert (S : str_or (Some text) EmptyString = text).
  { unfold str_or. destruct (String.eqb_spec text EmptyString); congruence. }
  rewrite S, Hparse.
  pose proof (playerctl_spawned "status" s0) as P1.
  destruct (Mpris.playerctl W execAsync "status" s0) as [status s1].
  pose proof (playerctl_spawned "metadata title" s1) as P2.
  destruct (Mpris.playerctl W execAsync "metadata title" s1) as [t s2].
  pose proof (playerctl_spawned "metadata artist" s2) as P3.
  destruct (Mpris.playerctl W execAsync "metadata artist" s2) as [a s3].
  pose proof (playerctl_spawned "metadata album" s3) as P4.
  destruct (Mpris.playerctl W execAsync "metadata album" s3) as [al s4].
  pose proof (playerctl_spawned "metadata mpris:artUrl" s4) as P5.
  destruct (Mpris.playerctl W execAsync "metadata mpris:artUrl" s4) as [au s5].
  unfold ret.
  pose proof (playerctl_spawned "position" s5) as P6.
  destruct (Mpris.playerctl W execAsync "position" s5) as [po s6].
  change (get_prop (VObj _) "length") with (Some VUndefined).
  cbv iota beta.
  pose proof (playerctl_spawned "shuffle" s6) as P7.
  destruct (Mpris.playerctl W execAsync "shuffle" s6) as [sh s7].
  pose proof (playerctl_spawned "loop" s7) as P8.
  destruct (Mpris.playerctl W execAsync "loop" s7) as [lo s8].
  cbn [fst snd] in *. split; [reflexivity | ].
  rewrite P8, P7, P6, P5, P4, P3, P2, P1, P0.
  repeat rewrite <- app_assoc. reflexivity.
Qed.


(** [getPlayerState] always returns an object with a boolean [available]:
    whatever the [try] block does, nothing is thrown past it. *)
Lemma getPlayerState_total (s : st W) :
  exists fs b,
    fst (getPlayerState W execAsync s) = VObj fs /\
    obj_get fs "available" = Some (VBool b).
Proof.
  unfold getPlayerState, getPlayerState_try, bind, ret.
  destruct (Mpris.playerctl W execAsync metadata_args s) as [raw s0].
  destruct (falsy raw).
  { eexists; eexists; split; reflexivity. }
  destruct (Mpris.playerctl W execAsync "status" s0) as [status s1].
  destruct (JSON_parse (str_or raw EmptyString)) as [meta | ].
  - destruct (Mpris.playerctl W execAsync "position" s1) as [po s2].
    destruct (get_prop meta "length") as [len | ].
    + destruct (Mpris.playerctl W execAsync "shuffle" s2) as [sh s3].
      destruct (Mpris.playerctl W execAsync "loop" s3) as [lo s4].
      eexists; eexists; split; reflexivity.
    + eexists; eexists; split; reflexivity.
  - destruct (Mpris.playerctl W execAsync "metadata title" s1) as [t s2].
    destruct (Mpris.playerctl W execAsync "metadata artist" s2) as [a s3].
    destruct (Mpris.playerctl W execAsync "metadata album" s3) as [al s4].
    destruct (Mpris.playerctl W execAsync "metadata mpris:artUrl" s4) as [au s5].
    destruct (Mpris.playerctl W execAsync "position" s5) as [po s6].
    change (get_prop (VObj _) "length") with (Some VUndefined).
    cbv iota beta.
    destruct (Mpris.playerctl W execAsync "shuffle" s6) as [sh s7].
    destruct (Mpris.playerctl W execAsync "loop" s7) as [lo s8].
    eexists; eexists; split; reflexivity.
Qed.

End StateFacts.

(** C5, as the code has it.  [getPlayerState] never throws: on every
    machine it returns an object with a boolean [available].  When the
    metadata query fails (the tool is missing or exits with a non-zero
    code) or prints nothing, that object is
    [{playing: false, available: false}] and no other query is made.  When
    the query prints text that is not JSON, the title, artist, album and
    artwork are queried one by one and the state returned is available. *)
Theorem getPlayerState_empty_or_malformed :
  forall (W : Type) (execAsync : string -> W -> option string * W)
         (s : Mpris.st W),
    let metadataRaw := fst (Mpris.playerctl W execAsync Mpris.metadata_args s) in
    let result := Mpris.getPlayerState W execAsync s in
    (exists fs b,
        fst result = JS.VObj fs /\
        JS.obj_get fs "available" = Some (JS.VBool b)) /\
    (Mpris.falsy metadataRaw = true ->
       fst result = Spec.unavailable /\
       Mpris.spawned (snd result) =
         Mpris.spawned s ++ [("playerctl " ++ Mpris.metadata_args)%string] /\
       Mpris.errors (snd result) = Mpris.errors s) /\
    (forall text,
       metadataRaw = Some text ->
       text <> EmptyString ->
       JS.JSON_parse text = None ->
       Mpris.prop (fst result) "available" = JS.VBool true /\
       Mpris.spawned (snd result) =
         Mpris.spawned s ++
         [("playerctl " ++ Mpris.metadata_args)%string; "playerctl status";
          "playerctl metadata title"; "playerctl metadata artist";
          "playerctl metadata album"; "playerctl metadata mpris:artUrl";
          "playerctl position"; "playerctl shuffle"; "playerctl loop"]).
Proof.
  intros W execAsync s metadataRaw result. split; [ | split].
  - apply getPlayerState_total.
  - intros H. subst result metadataRaw.
    rewrite (getPlayerState_no_metadata W execAsync s H). cbn [fst snd].
    split; [reflexivity | ]. split.
    + apply playerctl_spawned.
    + apply playerctl_errors.
  - intros text Hraw Hne Hparse.
    exact (getPlayerState_fallback W execAsync s text Hraw Hne Hparse).
Qed.

(** No player gives the unavailable state; a quoted title gives an
    available one. *)
Lemma getPlayerState_empty_or_malformed_witness :
  fst (Mpris.getPlayerState _ Desktop.execAsync (Mpris.start Desktop.nothing))
    = Spec.unavailable /\
  Mpris.prop
    (fst (Mpris.getPlayerState _ Desktop.execAsync (Mpris.start Desktop.quoted)))
    "available" = JS.VBool true.
Proof.
  split.
  - exact (proj1 (proj1 (proj2
      (getPlayerState_empty_or_malformed _ Desktop.execAsync
         (Mpris.start Desktop.nothing))) eq_refl)).
  - refine (proj1 (proj2 (proj2
      (getPlayerState_empty_or_malformed _ Desktop.execAsync
         (Mpris.start Desktop.quoted)))
      (JS.trim (Desktop.line (Desktop.metadata_line Desktop.quoted)))
      _ _ _)).
    + vm_compute. reflexivity.
    + vm_compute. discriminate.
    + vm_compute. reflexivity.
Defined.

(** C5, as the specification words it, fails: a title with quote characters
    in it makes the metadata line malformed, and the state returned for it
    is not one with [available: false]. *)
Lemma malformed_metadata_is_available :
  let s := Mpris.start Desktop.quoted in
  exists text,
    fst (Mpris.playerctl _ Desktop.execAsync Mpris.metadata_args s) = Some text /\
    text <> EmptyString /\
    JS.JSON_parse text = None /\
    ~ Spec.says_unavailable (fst (Mpris.getPlayerState _ Desktop.execAsync s)).
Proof.
  exists (JS.trim (Desktop.line (Desktop.metadata_line Desktop.quoted))).
  split; [vm_compute; reflexivity | ].
  split; [vm_compute; discriminate | ].
  split; [vm_compute; reflexivity | ].
  intros [fs [E H]]. vm_compute in E. injection E as E. subst fs.
  vm_compute in H. discriminate.
Qed.




(* ================================================================= *)
(** ** Properties of the extension *)

Section ExtensionFacts.

Import JS Client.

Variable W : Type.
Variable Date_now : W -> Z.
Variable fetch : request -> W -> option http_response * W.

Lemma getValidToken_run (s : st W) :
  getValidToken W Date_now fetch s =
    if negb (truthy (accessToken (settings s))) then (VNull, s)
    else if num_gt (num_of_Z (Date_now (world s)))
                   (num_sub (tokenExpiry (settings s)) (num_of_Z 60000))
         then (if fst (refreshAccessToken W Date_now fetch s)
               then accessToken (settings (snd (refreshAccessToken W Date_now fetch s)))
               else VNull,
               snd (refreshAccessToken W Date_now fetch s))
         else (accessToken (settings s), s).
Proof.
  unfold getValidToken, bind, read, now, ret. cbn [fst snd].
  destruct (negb (truthy (accessToken (settings s)))); [reflexivity | ].
  destruct (num_gt _ _); [ | reflexivity].
  destruct (refreshAccessToken W Date_now fetch s) as [[ | ] s1]; reflexivity.
Qed.

(** A refresh the token endpoint answers without a usable [access_token]:
    one request, one warning in the console, one notice, and the settings
    as they were. *)
Lemma refresh_rejected (s : st W) (resp : http_response) (data token : value) (w' : W) :
  truthy (refreshToken (settings s)) = true ->
  truthy (clientId (settings s)) = true ->
  fetch (refresh_request (settings s)) (world s) = (Some resp, w') ->
  json resp = Some data ->
  get_prop data "access_token" = Some token ->
  truthy token = false ->
  refreshAccessToken W Date_now fetch s =
    (false,
     {| settings := settings s; world := w';
        events := events s ++
                  [Sent (refresh_request (settings s));
                   Console "warn" "Failed to refresh token";
                   expired_notice] |}).
Proof.
  intros Hr Hc Hf Hj Ha Ht.
  unfold refreshAccessToken, bind, read, send, emit, ret. cbn [fst snd].
  rewrite Hr, Hc. cbn [negb orb]. rewrite Hf. cbn [settings world events].
  rewrite Hj, Ha, Ht. cbn [settings world events].
  rewrite <- !app_assoc. reflexivity.
Qed.

(** A refresh with a refresh token and a client id always sends the refresh
    request first. *)
Lemma refresh_sends (s : st W) :
  truthy (refreshToken (settings s)) = true ->
  truthy (clientId (settings s)) = true ->
  exists rest,
    events (snd (refreshAccessToken W Date_now fetch s)) =
      events s ++ Sent (refresh_request (settings s)) :: rest.
Proof.
  intros Hr Hc.
  unfold refreshAccessToken, saveSettings, bind, read, send, emit, write, now, ret.
  cbn [fst snd]. rewrite Hr, Hc. cbn [negb orb].
  destruct (fetch (refresh_request (settings s)) (world s)) as [[resp | ] w'];
    cbn [settings world events].
  - destruct (json resp) as [data | ]; cbn [settings world events].
    + destruct (get_prop data "access_token") as [token | ];
        cbn [settings world events].
      * destruct (truthy token); cbn [snd settings world events];
          rewrite <- ?app_assoc; eexists; reflexivity.
      * rewrite <- ?app_assoc; eexists; reflexivity.
    + rewrite <- ?app_assoc; eexists; reflexivity.
  - rewrite <- ?app_assoc; eexists; reflexivity.
Qed.

(** The remote fetch: whenever the request for the current track is
    answered 204, the result is [null]. *)
Lemma fetchPlayerState_204 (s : st W) (token : value) (s1 : st W)
    (resp : http_response) (w2 : W) :
  useMpris (settings s) = false ->
  getValidToken W Date_now fetch s = (token, s1) ->
  truthy token = true ->
  fetch (playing_request token) (world s1) = (Some resp, w2) ->
  status resp = 204 ->
  fst (fetchPlayerState W Date_now fetch s) = VNull.
Proof.
  intros Hm Hg Ht Hf Hs.
  unfold fetchPlayerState, bind, read. cbn [fst snd]. rewrite Hm, Hg, Ht.
  cbn [negb]. unfold send. rewrite Hf, Hs. reflexivity.
Qed.

End ExtensionFacts.

(** The local fetch: whenever the plugin finds no metadata, the result is
    [null]. *)
Lemma fetchPlayerState_no_player (W : Type) (Date_now : W -> Z)
    (execAsync : string -> W -> option string * W) (s : Client.st W) :
  Client.useMpris (Client.settings s) = true ->
  Mpris.falsy
    (fst (Mpris.playerctl W execAsync Mpris.metadata_args
            (Mpris.start (Client.world s)))) = true ->
  fst (Local.fetchPlayerState Date_now execAsync s) = JS.VNull.
Proof.
  intros Hm Hf.
  unfold Local.fetchPlayerState, Client.fetchPlayerState, Client.bind, Client.read.
  cbn [fst snd]. rewrite Hm.
  unfold Client.fetchMprisState, Client.bind, Client.send, Local.fetch.
  change (Local.route_of Client.status_request) with (Some Mpris.GetStatus).
  unfold Mpris.handle, Mpris.bind.
  rewrite (getPlayerState_no_metadata W execAsync _ Hf).
  reflexivity.
Qed.

(** C1, as the code has it.  A remote fetch answered 204 and a local fetch
    made while the plugin finds no player both make [fetchPlayerState]
    return [null]: the same value for both backends, and not an error. *)
Theorem fetchPlayerState_absent_is_null :
  (forall (W : Type) (Date_now : W -> Z)
          (fetch : Client.request -> W -> option Client.http_response * W)
          (s s1 : Client.st W) (token : JS.value)
          (resp : Client.http_response) (w2 : W),
      Client.useMpris (Client.settings s) = false ->
      Client.getValidToken W Date_now fetch s = (token, s1) ->
      JS.truthy token = true ->
      fetch (Client.playing_request token) (Client.world s1) = (Some resp, w2) ->
      Client.status resp = 204 ->
      fst (Client.fetchPlayerState W Date_now fetch s) = JS.VNull) /\
  (forall (W : Type) (Date_now : W -> Z)
          (execAsync : string -> W -> option string * W) (s : Client.st W),
      Client.useMpris (Client.settings s) = true ->
      Mpris.falsy
        (fst (Mpris.playerctl W execAsync Mpris.metadata_args
                (Mpris.start (Client.world s)))) = true ->
      fst (Local.fetchPlayerState Date_now execAsync s) = JS.VNull).
Proof.
  split.
  - intros W Date_now fetch s s1 token resp w2.
    apply fetchPlayerState_204.
  - intros W Date_now execAsync s.
    apply fetchPlayerState_no_player.
Qed.

(** A 204 from the remote service and a machine with no player. *)
Lemma fetchPlayerState_absent_is_null_witness :
  fst (Client.fetchPlayerState Z Scenario.Date_now
         (Scenario.fetch Scenario.no_content)
         (Scenario.at_time (Scenario.connected 10000000) 5)) = JS.VNull /\
  fst (Local.fetchPlayerState (fun _ => 0) Desktop.execAsync
         (Scenario.on_machine Desktop.nothing)) = JS.VNull.
Proof.
  split.
  - exact (proj1 fetchPlayerState_absent_is_null Z Scenario.Date_now
             (Scenario.fetch Scenario.no_content)
             (Scenario.at_time (Scenario.connected 10000000) 5)
             (Scenario.at_time (Scenario.connected 10000000) 5)
             (JS.VStr "stored")
             {| Client.status := 204; Client.json := None |} 5
             eq_refl eq_refl eq_refl eq_refl eq_refl).
  - exact (proj2 fetchPlayerState_absent_is_null Desktop.player (fun _ => 0)
             Desktop.execAsync (Scenario.on_machine Desktop.nothing)
             eq_refl eq_refl).
Defined.

(** C1, as the specification words it, fails: what [fetchPlayerState]
    returns for a 204 answer, and for a machine with no player, is [null],
    not an object whose [available] field is [false]. *)
Lemma absent_state_is_not_an_object :
  ~ Spec.says_unavailable
      (fst (Client.fetchPlayerState Z Scenario.Date_now
              (Scenario.fetch Scenario.no_content)
              (Scenario.at_time (Scenario.connected 10000000) 5))) /\
  ~ Spec.says_unavailable
      (fst (Local.fetchPlayerState (fun _ => 0) Desktop.execAsync
              (Scenario.on_machine Desktop.nothing))).
Proof.
  split; intros [fs [E _]]; vm_compute in E; discriminate.
Qed.

(** C3, as the code has it.  When the token endpoint answers a refresh
    without a usable access token, [getValidToken] returns [null] after one
    refresh request, and exactly one notice that the session expired is
    surfaced for that rejection.  The settings stay as they were: the access
    token, the refresh token and the expiry are kept.  So a later call past
    the expiry boundary sends the refresh request again, with the same
    stored refresh token, and a rejection of that one surfaces a notice of
    its own. *)
Theorem rejected_refresh_notifies_and_keeps_tokens :
  forall (W : Type) (Date_now : W -> Z)
         (fetch : Client.request -> W -> option Client.http_response * W)
         (s : Client.st W) (resp : Client.http_response)
         (data token : JS.value) (w' : W),
    JS.truthy (Client.accessToken (Client.settings s)) = true ->
    JS.truthy (Client.refreshToken (Client.settings s)) = true ->
    JS.truthy (Client.clientId (Client.settings s)) = true ->
    JS.num_gt (JS.num_of_Z (Date_now (Client.world s)))
      (JS.num_sub (Client.tokenExpiry (Client.settings s)) (JS.num_of_Z 60000)) = true ->
    fetch (Client.refresh_request (Client.settings s)) (Client.world s) = (Some resp, w') ->
    Client.json resp = Some data ->
    JS.get_prop data "access_token" = Some token ->
    JS.truthy token = false ->
    let s1 :=
      {| Client.settings := Client.settings s; Client.world := w';
         Client.events :=
           Client.events s ++
           [Client.Sent (Client.refresh_request (Client.settings s));
            Client.Console "warn" "Failed to refresh token";
            Client.expired_notice] |} in
    Client.getValidToken W Date_now fetch s = (JS.VNull, s1) /\
    (forall (resp2 : Client.http_response) (data2 token2 : JS.value) (w2 : W),
        JS.num_gt (JS.num_of_Z (Date_now w'))
          (JS.num_sub (Client.tokenExpiry (Client.settings s)) (JS.num_of_Z 60000)) = true ->
        fetch (Client.refresh_request (Client.settings s)) w' = (Some resp2, w2) ->
        Client.json resp2 = Some data2 ->
        JS.get_prop data2 "access_token" = Some token2 ->
        JS.truthy token2 = false ->
        Client.getValidToken W Date_now fetch s1 =
          (JS.VNull,
           {| Client.settings := Client.settings s; Client.world := w2;
              Client.events :=
                Client.events s ++
                [Client.Sent (Client.refresh_request (Client.settings s));
                 Client.Console "warn" "Failed to refresh token";
                 Client.expired_notice;
                 Client.Sent (Client.refresh_request (Client.settings s));
                 Client.Console "warn" "Failed to refresh token";
                 Client.expired_notice] |})).
Proof.
  intros W Date_now fetch s resp data token w' Ha Hr Hc Hgt Hf Hj Hp Ht s1.
  split.
  - rewrite getValidToken_run, Ha, Hgt. cbn [negb].
    rewrite (refresh_rejected W Date_now fetch s resp data token w' Hr Hc Hf Hj Hp Ht).
    reflexivity.
  - intros resp2 data2 token2 w2 Hgt2 Hf2 Hj2 Hp2 Ht2.
    rewrite getValidToken_run.
    rewrite (refresh_rejected W Date_now fetch s1 resp2 data2 token2 w2 Hr Hc Hf2 Hj2 Hp2 Ht2).
    subst s1. cbn [fst snd Client.settings Client.world Client.events].
    rewrite Ha, Hgt2. cbn [negb].
    rewrite <- app_assoc. reflexivity.
Qed.

(** An expired token and an endpoint that rejects the refresh, twice. *)
Lemma rejected_refresh_notifies_and_keeps_tokens_witness :
  let fetch := Scenario.fetch Scenario.rejecting in
  let s0 := Scenario.at_time (Scenario.connected 160000) 200000 in
  let request := Client.Sent (Client.refresh_request (Scenario.connected 160000)) in
  let warn := Client.Console "warn" "Failed to refresh token" in
  let s1 :=
    {| Client.settings := Scenario.connected 160000; Client.world := 200000;
       Client.events := [request; warn; Client.expired_notice] |} in
  Client.getValidToken Z Scenario.Date_now fetch s0 = (JS.VNull, s1) /\
  Client.getValidToken Z Scenario.Date_now fetch s1 =
    (JS.VNull,
     {| Client.settings := Scenario.connected 160000; Client.world := 200000;
        Client.events :=
          [request; warn; Client.expired_notice;
           request; warn; Client.expired_notice] |}).
Proof.
  pose proof (rejected_refresh_notifies_and_keeps_tokens Z Scenario.Date_now
                (Scenario.fetch Scenario.rejecting)
                (Scenario.at_time (Scenario.connected 160000) 200000)
                {| Client.status := 400;
                   Client.json := Some (JS.VObj [("error", JS.VStr "invalid_grant")]) |}
                (JS.VObj [("error", JS.VStr "invalid_grant")])
                JS.VUndefined 200000
                eq_refl eq_refl eq_refl eq_refl eq_refl eq_refl eq_refl eq_refl)
    as [First Second].
  split.
  - exact First.
  - exact (Second
             {| Client.status := 400;
                Client.json := Some (JS.VObj [("error", JS.VStr "invalid_grant")]) |}
             (JS.VObj [("error", JS.VStr "invalid_grant")])
             JS.VUndefined 200000
             eq_refl eq_refl eq_refl eq_refl eq_refl).
Defined.

(** C3, as the specification words it, fails: with a rejecting token
    endpoint, two calls of the accessor (two poll ticks) send two refresh
    requests with the same stored refresh token and surface two notices,
    and the token set is still the stored one afterwards. *)
Lemma rejected_refresh_is_retried :
  let fetch := Scenario.fetch Scenario.rejecting in
  let s0 := Scenario.at_time (Scenario.connected 160000) 200000 in
  let s1 := snd (Client.getValidToken Z Scenario.Date_now fetch s0) in
  let s2 := snd (Client.getValidToken Z Scenario.Date_now fetch s1) in
  let request := Client.Sent (Client.refresh_request (Scenario.connected 160000)) in
  let warn := Client.Console "warn" "Failed to refresh token" in
  Client.events s1 = [request; warn; Client.expired_notice] /\
  Client.events s2 =
    [request; warn; Client.expired_notice; request; warn; Client.expired_notice] /\
  Client.settings s2 = Scenario.connected 160000.
Proof. vm_compute. repeat split. Qed.

(** C4, as the code has it.  For a token set with a non-empty access token
    and expiry [e], [getValidToken] returns the stored access token, sends
    nothing and changes nothing exactly while [now <= e - 60000]; once
    [now > e - 60000] it runs [refreshAccessToken] (which, given a refresh
    token and a client id, sends the refresh request) and returns the
    refreshed token or [null].  Two calls made at or before the boundary
    return the same token. *)
Theorem getValidToken_boundary :
  forall (W : Type) (Date_now : W -> Z)
         (fetch : Client.request -> W -> option Client.http_response * W)
         (s : Client.st W) (e : Z),
    Client.tokenExpiry (Client.settings s) = JS.num_of_Z e ->
    JS.truthy (Client.accessToken (Client.settings s)) = true ->
    (Date_now (Client.world s) <= e - 60000 ->
       Client.getValidToken W Date_now fetch s =
         (Client.accessToken (Client.settings s), s)) /\
    (e - 60000 < Date_now (Client.world s) ->
       let r := Client.refreshAccessToken W Date_now fetch s in
       Client.getValidToken W Date_now fetch s =
         (if fst r then Client.accessToken (Client.settings (snd r)) else JS.VNull,
          snd r) /\
       (JS.truthy (Client.refreshToken (Client.settings s)) = true ->
        JS.truthy (Client.clientId (Client.settings s)) = true ->
        exists rest,
          Client.events (snd (Client.getValidToken W Date_now fetch s)) =
            Client.events s ++
            Client.Sent (Client.refresh_request (Client.settings s)) :: rest)) /\
    (forall s' : Client.st W,
       Client.settings s' = Client.settings s ->
       Date_now (Client.world s) <= e - 60000 ->
       Date_now (Client.world s') <= e - 60000 ->
       fst (Client.getValidToken W Date_now fetch s) =
       fst (Client.getValidToken W Date_now fetch s')).
Proof.
  intros W Date_now fetch s e He Ha.
  assert (Early : forall x : Client.st W,
             Client.settings x = Client.settings s ->
             Date_now (Client.world x) <= e - 60000 ->
             Client.getValidToken W Date_now fetch x =
               (Client.accessToken (Client.settings s), x)).
  { intros x Hx Hle. rewrite getValidToken_run, Hx, Ha, He, num_gt_skew.
    cbn [negb]. replace (e - 60000 <? Date_now (Client.world x)) with false
      by (symmetry; apply Z.ltb_ge; exact Hle).
    reflexivity. }
  split; [ | split].
  - intros Hle. apply Early; [reflexivity | exact Hle].
  - intros Hlt r.
    assert (G : Client.getValidToken W Date_now fetch s =
                (if fst r then Client.accessToken (Client.settings (snd r))
                 else JS.VNull, snd r)).
    { rewrite getValidToken_run, Ha, He, num_gt_skew. cbn [negb].
      replace (e - 60000 <? Date_now (Client.world s)) with true
        by (symmetry; apply Z.ltb_lt; exact Hlt).
      reflexivity. }
    split; [exact G | ].
    intros Hr Hc. rewrite G. cbn [snd]. subst r.
    apply refresh_sends; assumption.
  - intros s' Hs' Hle Hle'.
    rewrite (Early s eq_refl Hle), (Early s' Hs' Hle'). reflexivity.
Qed.

(** A token expiring at 160000, read before and after 100000. *)
Lemma getValidToken_boundary_witness :
  let fetch := Scenario.fetch Scenario.granting in
  Client.getValidToken Z Scenario.Date_now fetch
    (Scenario.at_time (Scenario.connected 160000) 99999) =
    (JS.VStr "stored", Scenario.at_time (Scenario.connected 160000) 99999) /\
  (exists rest,
      Client.events
        (snd (Client.getValidToken Z Scenario.Date_now fetch
                (Scenario.at_time (Scenario.connected 160000) 100001))) =
      Client.Sent (Client.refresh_request (Scenario.connected 160000)) :: rest) /\
  fst (Client.getValidToken Z Scenario.Date_now fetch
         (Scenario.at_time (Scenario.connected 160000) 99999)) =
  fst (Client.getValidToken Z Scenario.Date_now fetch
         (Scenario.at_time (Scenario.connected 160000) 5)).
Proof.
  cbv zeta. split; [ | split].
  - refine (proj1 (getValidToken_boundary Z Scenario.Date_now
                     (Scenario.fetch Scenario.granting)
                     (Scenario.at_time (Scenario.connected 160000) 99999)
                     160000 eq_refl eq_refl) _).
    vm_compute. discriminate.
  - refine (proj2 (proj1 (proj2 (getValidToken_boundary Z Scenario.Date_now
                     (Scenario.fetch Scenario.granting)
                     (Scenario.at_time (Scenario.connected 160000) 100001)
                     160000 eq_refl eq_refl)) _) eq_refl eq_refl).
    vm_compute. reflexivity.
  - refine (proj2 (proj2 (getValidToken_boundary Z Scenario.Date_now
                     (Scenario.fetch Scenario.granting)
                     (Scenario.at_time (Scenario.connected 160000) 99999)
                     160000 eq_refl eq_refl))
                  (Scenario.at_time (Scenario.connected 160000) 5) eq_refl _ _);
      vm_compute; discriminate.
Defined.

(** C4, as the specification words it, fails at the boundary itself: when
    [now] has reached [tokenExpiry - 60000] the stored token is still
    returned and no refresh is sent; one millisecond later the refresh
    is. *)
Lemma no_refresh_at_the_boundary :
  let fetch := Scenario.fetch Scenario.granting in
  Scenario.Date_now 100000 = 160000 - 60000 /\
  Client.getValidToken Z Scenario.Date_now fetch
    (Scenario.at_time (Scenario.connected 160000) 100000) =
    (JS.VStr "stored", Scenario.at_time (Scenario.connected 160000) 100000) /\
  fst (Client.getValidToken Z Scenario.Date_now fetch
         (Scenario.at_time (Scenario.connected 160000) 100001)) = JS.VStr "fresh".
Proof. vm_compute. repeat split. Qed.

Lemma Qzero_b_pos (d : Q) : (0 < d)%Q -> JS.Qzero_b d = false.
Proof.
  intros H. unfold JS.Qzero_b.
  apply Qgt_alt in H. rewrite H. reflexivity.
Qed.

Lemma Qzero_b_zero (d : Q) : (d == 0)%Q -> JS.Qzero_b d = true.
Proof.
  intros H. unfold JS.Qzero_b.
  apply Qeq_alt in H. rewrite H. reflexivity.
Qed.

Lemma ratio_in_unit_interval (p d r : Q) :
  (0 < d)%Q -> (r == p / d)%Q ->
  ((0 <= r)%Q /\ (r <= 1)%Q <-> (0 <= p)%Q /\ (p <= d)%Q).
Proof.
  intros Hd Hr.
  assert (E : (p == r * d)%Q).
  { rewrite Hr. field. intro Z. rewrite Z in Hd. apply (Qlt_irrefl 0 Hd). }
  split; intros [A B]; split; nra.
Qed.

(** C2, as the code has it.  For a duration [d > 0] the ratio derived from
    position [p] is [p / d] as it stands, with no clamping, and the bar is
    drawn at a hundred times that ratio: the ratio lies in [[0,1]] exactly
    when [0 <= p <= d].  For a duration of 0 the bar is left as it was. *)
Theorem progress_ratio_is_not_clamped :
  forall (p d : Q) (progressBar playerPanel : bool) (b : Client.bar),
    ((0 < d)%Q ->
       exists r w : Q,
         Client.progress_ratio (JS.VNum (JS.Fin p)) (JS.VNum (JS.Fin d)) = JS.Fin r /\
         (r == p / d)%Q /\
         ((0 <= r)%Q /\ (r <= 1)%Q <-> (0 <= p)%Q /\ (p <= d)%Q) /\
         Client.width
           (Client.updateProgress true playerPanel
              (JS.VNum (JS.Fin p)) (JS.VNum (JS.Fin d)) b) = Some (JS.Fin w) /\
         (w == r * 100)%Q) /\
    ((d == 0)%Q ->
       Client.updateProgress progressBar playerPanel
         (JS.VNum (JS.Fin p)) (JS.VNum (JS.Fin d)) b = b).
Proof.
  intros p d progressBar playerPanel b. split.
  - intros Hd.
    exists (Qred (p / d)), (Qred (Qred (p / d) * inject_Z 100)).
    assert (R : Client.progress_ratio (JS.VNum (JS.Fin p)) (JS.VNum (JS.Fin d)) =
                JS.Fin (Qred (p / d))).
    { unfold Client.progress_ratio, JS.to_number, JS.num_div.
      rewrite (Qzero_b_pos d Hd). reflexivity. }
    split; [exact R | ].
    split; [apply Qred_correct | ].
    split; [apply ratio_in_unit_interval; [exact Hd | apply Qred_correct] | ].
    split.
    + unfold Client.updateProgress. cbn [andb JS.truthy].
      rewrite (Qzero_b_pos d Hd). cbn [negb Client.width].
      rewrite R. reflexivity.
    + rewrite Qred_correct. reflexivity.
  - intros Hz. unfold Client.updateProgress. cbn [JS.truthy].
    rewrite (Qzero_b_zero d Hz). cbn [negb]. rewrite andb_false_r. reflexivity.
Qed.

(** Thirty seconds into a track of two hundred, and a track of length 0. *)
Lemma progress_ratio_is_not_clamped_witness :
  (exists r w : Q,
      Client.progress_ratio (JS.VNum (JS.Fin 30000)) (JS.VNum (JS.Fin 200000)) = JS.Fin r /\
      (r == 30000 / 200000)%Q /\
      ((0 <= r)%Q /\ (r <= 1)%Q <-> (0 <= 30000)%Q /\ (30000 <= 200000)%Q) /\
      Client.width
        (Client.updateProgress true true
           (JS.VNum (JS.Fin 30000)) (JS.VNum (JS.Fin 200000))
           {| Client.width := None; Client.durationMs := None |}) = Some (JS.Fin w) /\
      (w == r * 100)%Q) /\
  Client.updateProgress true true (JS.VNum (JS.Fin 30000)) (JS.VNum (JS.Fin 0))
    {| Client.width := Some (JS.Fin 15); Client.durationMs := None |} =
  {| Client.width := Some (JS.Fin 15); Client.durationMs := None |}.
Proof.
  split.
  - apply (proj1 (progress_ratio_is_not_clamped 30000 200000 true true
                    {| Client.width := None; Client.durationMs := None |})).
    reflexivity.
  - apply (proj2 (progress_ratio_is_not_clamped 30000 0 true true
                    {| Client.width := Some (JS.Fin 15); Client.durationMs := None |})).
    reflexivity.
Defined.

(** C2, as the specification words it, fails: for a position past the
    duration the ratio is above 1 and the bar is drawn wider than the
    whole. *)
Lemma stale_position_overflows_the_bar :
  Client.progress_ratio (JS.VNum (JS.Fin 250000)) (JS.VNum (JS.Fin 200000)) =
    JS.Fin (5 # 4) /\
  (1 < 5 # 4)%Q /\
  Client.updateProgress true true
    (JS.VNum (JS.Fin 250000)) (JS.VNum (JS.Fin 200000))
    {| Client.width := None; Client.durationMs := None |} =
  {| Client.width := Some (JS.Fin 125);
     Client.durationMs := Some (JS.VNum (JS.Fin 200000)) |}.
Proof. split; [ | split]; reflexivity. Qed.

(* ================================================================= *)
(** ** Properties of the polling timers *)

Section Polling.

Import Scheduler.

Lemma clear_if_set_tidy (p : page) :
  tidy p -> timers (clear_if_set p) = [] /\ next_id (clear_if_set p) = next_id p
            /\ clock (clear_if_set p) = clock p
            /\ by_timer (clear_if_set p) = by_timer p.
Proof.
  intros [Hn H]. unfold clear_if_set.
  destruct (pollingInterval p) as [i | ].
  - destruct H as (Hi & _ & c & Ht).
    replace (i =? 0) with false by (symmetry; apply Z.eqb_neq; lia).
    unfold clearInterval. cbn [timers next_id clock by_timer]. rewrite Ht.
    cbn [filter id]. rewrite Z.eqb_refl. cbn [negb]. repeat split.
  - repeat split. exact H.
Qed.

Lemma startPolling_tidy (p : page) : tidy p -> tidy (startPolling p).
Proof.
  intros H. destruct (clear_if_set_tidy p H) as (Ht & Hn & _ & _).
  destruct H as [Hpos _].
  unfold startPolling, setInterval, tidy.
  cbn [pollingInterval timers next_id]. rewrite Ht, Hn. cbn [app].
  split; [lia | ]. split; [lia | ]. split; [lia | ].
  eexists. reflexivity.
Qed.

Lemma stopPolling_tidy (p : page) : tidy p -> tidy (stopPolling p).
Proof.
  intros H. destruct (clear_if_set_tidy p H) as (Ht & Hn & _ & _).
  destruct H as [Hpos _].
  unfold stopPolling, tidy. cbn [pollingInterval timers next_id].
  rewrite Hn. split; [exact Hpos | exact Ht].
Qed.

Lemma wait_tidy (ms : N) (p : page) : tidy p -> tidy (wait ms p).
Proof. intros H. exact H. Qed.

Lemma run_tidy (ops : list op) : tidy (run ops).
Proof.
  unfold run.
  assert (G : forall p, tidy p -> tidy (fold_left step ops p)).
  { induction ops as [ | o ops IH]; intros p Hp; [exact Hp | ].
    cbn [fold_left]. apply IH.
    destruct o; cbn [step];
      [apply startPolling_tidy | apply stopPolling_tidy | apply wait_tidy];
      exact Hp. }
  apply G. unfold tidy, initial. cbn. split; [lia | reflexivity].
Qed.

(** A timer of period 1000 fires [k] times in any window of [k] periods. *)
Lemma fires_in_window (t : timer) (from : Z) (k : N) :
  period t = 1000 ->
  fires t from (from + Z.of_N (k * 1000)) = Z.of_N k.
Proof.
  intros H. unfold fires. rewrite H.
  rewrite N2Z.inj_mul. change (Z.of_N 1000) with 1000.
  replace (from + Z.of_N k * 1000 - created t)
    with (from - created t + Z.of_N k * 1000) by lia.
  rewrite Z.div_add by lia. lia.
Qed.

End Polling.

Section InflightFacts.

Import Inflight.

Lemma begin_timers (n : Z) (p : page) : timers (begin n p) = timers p.
Proof.
  unfold begin. destruct (n <=? 0); [reflexivity | ].
  destruct (enablePanel p); reflexivity.
Qed.

Lemma step_tidy (p : page) (o : op) :
  Scheduler.tidy (timers p) -> Scheduler.tidy (timers (step p o)).
Proof.
  intros T. destruct o; cbn [step].
  - unfold startPolling. rewrite begin_timers. apply startPolling_tidy. exact T.
  - apply stopPolling_tidy. exact T.
  - unfold wait. cbv zeta. rewrite begin_timers. apply wait_tidy. exact T.
  - unfold settle. destruct (awaiting p <=? 0); exact T.
  - exact T.
  - unfold setEnabled. rewrite begin_timers. exact T.
  - rewrite begin_timers. exact T.
Qed.

Lemma inflight_tidy (enabled : bool) (ops : list op) :
  Scheduler.tidy (timers (run enabled ops)).
Proof.
  unfold run.
  assert (G : forall p, Scheduler.tidy (timers p) ->
                        Scheduler.tidy (timers (fold_left step ops p))).
  { induction ops as [ | o ops IH]; intros p Hp; [exact Hp | ].
    cbn [fold_left]. apply IH. apply step_tidy. exact Hp. }
  apply G. unfold Scheduler.tidy, initial, Scheduler.initial. cbn.
  split; [lia | reflexivity].
Qed.

(** With no timer live, a calm step begins no run, and writes at most once,
    for a run that was suspended. *)
Lemma calm_step (p : page) (o : op) :
  calm o = true ->
  Scheduler.timers (timers p) = [] ->
  Scheduler.pollingInterval (timers p) = None ->
  0 <= awaiting p ->
  let q := step p o in
  Scheduler.timers (timers q) = [] /\
  Scheduler.pollingInterval (timers q) = None /\
  0 <= awaiting q /\
  begun q = begun p /\
  written p <= written q /\
  written q + awaiting q <= written p + awaiting p /\
  (panel p = false -> panel q = false /\ written q = written p).
Proof.
  intros C T I A. destruct o; try discriminate C; cbn [step]; cbv zeta.
  - unfold stopPolling, Scheduler.stopPolling, Scheduler.clear_if_set, with_timers.
    rewrite I. cbn. repeat split; try assumption; lia.
  - unfold wait, Scheduler.wait, with_timers, begin. cbv zeta.
    cbn [Scheduler.by_timer]. rewrite T. cbn [fold_right].
    replace (Scheduler.by_timer (timers p) + 0 - Scheduler.by_timer (timers p)) with 0
      by lia.
    cbn. repeat split; try assumption; lia.
  - unfold settle. destruct (Z.leb_spec (awaiting p) 0) as [L | L].
    + repeat split; try assumption; lia.
    + cbn. destruct (panel p); repeat split; try assumption; try lia; discriminate.
  - cbn. repeat split; try assumption; lia.
Qed.

Lemma calm_steps (rest : list op) (p : page) :
  forallb calm rest = true ->
  Scheduler.timers (timers p) = [] ->
  Scheduler.pollingInterval (timers p) = None ->
  0 <= awaiting p ->
  let q := fold_left step rest p in
  begun q = begun p /\
  written p <= written q <= written p + awaiting p /\
  (panel p = false -> written q = written p).
Proof.
  revert p. induction rest as [ | o rest IH]; intros p C T I A; cbn [fold_left].
  - cbv zeta. repeat split; try lia.
  - cbn [forallb] in C. apply andb_true_iff in C as [Co Cr].
    destruct (calm_step p o Co T I A) as (T' & I' & A' & B & W1 & W2 & P).
    cbv zeta in *.
    destruct (IH (step p o) Cr T' I' A') as (B2 & [V1 V2] & P2).
    cbv zeta in *. repeat split; try lia.
    intros Hp. destruct (P Hp) as [Hq E]. rewrite (P2 Hq). exact E.
Qed.

Lemma awaiting_nonneg (enabled : bool) (ops : list op) :
  0 <= awaiting (run enabled ops).
Proof.
  unfold run.
  assert (G : forall p, 0 <= awaiting p -> 0 <= awaiting (fold_left step ops p)).
  { induction ops as [ | o ops IH]; intros p Hp; [exact Hp | ].
    cbn [fold_left]. apply IH.
    assert (B : forall n q, 0 <= awaiting q -> 0 <= awaiting (begin n q)).
    { intros n q Hq. unfold begin. destruct (Z.leb_spec n 0); [exact Hq | ].
      destruct (enablePanel q); cbn; lia. }
    destruct o; cbn [step].
    - apply B. exact Hp.
    - exact Hp.
    - apply B. exact Hp.
    - unfold settle. destruct (Z.leb_spec (awaiting p) 0); cbn; lia.
    - exact Hp.
    - apply B. exact Hp.
    - apply B. exact Hp. }
  apply G. cbn. lia.
Qed.

End InflightFacts.

(** C7, as the code has it.  After any run of the page: starting clears the
    timer of an earlier start before it sets the new one, so exactly one
    timer is live and [pollingInterval] names it, and over the next [k]
    periods of 1000 ms the timers call [updatePlayerUI] exactly [k] times
    (and, with the panel enabled, [k] more runs await their
    [fetchPlayerState]); after stopping, no timer is live and [pollingInterval] is [null], and
    while the page itself calls nothing, no run of [updatePlayerUI] begins,
    however long one waits.  A run that was suspended at its [await] when
    polling was stopped is not stopped: each such run still goes on when
    its answer arrives, and writes into the panel if the panel is still in
    the document; once the panel is removed nothing is written. *)
Theorem polling_has_one_timer :
  forall (enabled : bool) (ops : list Inflight.op),
    let p := Inflight.run enabled ops in
    let started := Inflight.startPolling p in
    let stopped := Inflight.stopPolling p in
    (exists t,
        Scheduler.timers (Inflight.timers started) = [t] /\
        Scheduler.pollingInterval (Inflight.timers started) = Some (Scheduler.id t) /\
        ~ In (Scheduler.id t)
             (map Scheduler.id (Scheduler.timers (Inflight.timers p))) /\
        Scheduler.period t = 1000) /\
    (forall k : N,
        let polled := Inflight.wait (k * 1000) started in
        Inflight.begun polled = Inflight.begun started + Z.of_N k /\
        (Inflight.enablePanel p = true ->
         Inflight.awaiting polled = Inflight.awaiting started + Z.of_N k)) /\
    Scheduler.timers (Inflight.timers stopped) = [] /\
    Scheduler.pollingInterval (Inflight.timers stopped) = None /\
    (forall rest : list Inflight.op,
        forallb Inflight.calm rest = true ->
        let later := fold_left Inflight.step rest stopped in
        Inflight.begun later = Inflight.begun stopped /\
        Inflight.written stopped <= Inflight.written later
          <= Inflight.written stopped + Inflight.awaiting stopped) /\
    (0 < Inflight.awaiting p ->
     Inflight.panel p = true ->
     Inflight.written (Inflight.settle stopped) = Inflight.written stopped + 1) /\
    (forall rest : list Inflight.op,
        forallb Inflight.calm rest = true ->
        Inflight.written
          (fold_left Inflight.step rest (Inflight.removePlayerPanel stopped)) =
        Inflight.written stopped).
Proof.
  intros enabled ops p started stopped.
  pose proof (inflight_tidy enabled ops) as T. fold p in T.
  pose proof (awaiting_nonneg enabled ops) as A. fold p in A.
  destruct (clear_if_set_tidy (Inflight.timers p) T) as (Ht & Hn & Hc & Hb).
  assert (S : Scheduler.timers (Inflight.timers started) =
              [{| Scheduler.id := Scheduler.next_id (Inflight.timers p);
                  Scheduler.created := Scheduler.clock (Inflight.timers p);
                  Scheduler.period := 1000 |}]).
  { subst started. unfold Inflight.startPolling. rewrite begin_timers.
    unfold Inflight.with_timers, Scheduler.startPolling, Scheduler.setInterval.
    cbn [Inflight.timers Scheduler.timers]. rewrite Ht, Hn, Hc. reflexivity. }
  assert (E : Scheduler.timers (Inflight.timers stopped) = []).
  { subst stopped. unfold Inflight.stopPolling, Inflight.with_timers,
      Scheduler.stopPolling. cbn [Inflight.timers Scheduler.timers]. exact Ht. }
  assert (I : Scheduler.pollingInterval (Inflight.timers stopped) = None)
    by reflexivity.
  split; [ | split; [ | split; [ | split; [ | split; [ | split]]]]].
  - eexists. split; [exact S | ]. cbn [Scheduler.id Scheduler.period].
    split.
    + subst started. unfold Inflight.startPolling. rewrite begin_timers.
      unfold Inflight.with_timers, Scheduler.startPolling, Scheduler.setInterval.
      cbn [Inflight.timers Scheduler.pollingInterval]. rewrite Hn. reflexivity.
    + split; [ | reflexivity].
      destruct T as [Hpos T]. intros Hin.
      destruct (Scheduler.pollingInterval (Inflight.timers p)) as [i | ].
      * destruct T as (_ & Hlt & c & Et). rewrite Et in Hin.
        cbn in Hin. lia.
      * rewrite T in Hin. exact Hin.
  - intros k. unfold Inflight.wait. cbv zeta.
    assert (F : Scheduler.by_timer (Scheduler.wait (k * 1000) (Inflight.timers started)) -
                Scheduler.by_timer (Inflight.timers started) = Z.of_N k).
    { unfold Scheduler.wait. cbn [Scheduler.by_timer]. rewrite S.
      cbn [fold_right]. rewrite Z.add_0_r.
      rewrite fires_in_window by reflexivity. lia. }
    assert (EP : Inflight.enablePanel started = Inflight.enablePanel p).
    { subst started. unfold Inflight.startPolling, Inflight.begin, Inflight.with_timers.
      cbn. destruct (Inflight.enablePanel p); reflexivity. }
    rewrite F. unfold Inflight.begin, Inflight.with_timers.
    cbn [Inflight.enablePanel Inflight.begun Inflight.awaiting]. rewrite EP.
    destruct (Z.leb_spec (Z.of_N k) 0) as [L | L].
    + cbn [Inflight.begun Inflight.awaiting]. split; [lia | intros _; lia].
    + destruct (Inflight.enablePanel p); cbn [Inflight.begun Inflight.awaiting];
        (split; [reflexivity | intros D; try discriminate D; reflexivity]).
  - exact E.
  - exact I.
  - intros rest C later. subst later.
    destruct (calm_steps rest stopped C E I A) as (B & W & _).
    cbv zeta in *. split; [exact B | exact W].
  - intros Ha Hp. subst stopped.
    unfold Inflight.settle, Inflight.stopPolling, Inflight.with_timers.
    cbn [Inflight.awaiting Inflight.panel Inflight.written].
    destruct (Z.leb_spec (Inflight.awaiting p) 0) as [L | L]; [lia | ].
    cbn [Inflight.written]. rewrite Hp. reflexivity.
  - intros rest C.
    destruct (calm_steps rest (Inflight.removePlayerPanel stopped) C E I A)
      as (_ & _ & P).
    cbv zeta in P. exact (P eq_refl).
Qed.

(** Polling is started twice: three seconds later three more runs await
    their answer.  Polling is started and, before the first answer is
    there, stopped.
    Five seconds later no timer has fired; then the answer arrives, and the
    run that [startPolling] began writes into the panel.  Had the panel
    been removed, nothing would be written. *)
Lemma polling_has_one_timer_witness :
  let stopped := Inflight.stopPolling (Inflight.run true [Inflight.Start]) in
  Inflight.awaiting
    (Inflight.wait (3 * 1000)
       (Inflight.startPolling (Inflight.run true [Inflight.Start]))) =
  Inflight.awaiting (Inflight.startPolling (Inflight.run true [Inflight.Start])) + 3 /\
  (let later :=
     fold_left Inflight.step [Inflight.Wait 5000; Inflight.Settle] stopped in
   Inflight.begun later = Inflight.begun stopped /\
   Inflight.written stopped <= Inflight.written later
     <= Inflight.written stopped + Inflight.awaiting stopped) /\
  Inflight.written (Inflight.settle stopped) = Inflight.written stopped + 1 /\
  Inflight.written
    (fold_left Inflight.step [Inflight.Wait 5000; Inflight.Settle]
       (Inflight.removePlayerPanel stopped)) =
  Inflight.written stopped.
Proof.
  cbv zeta. split; [ | split; [ | split]].
  - exact (proj2 (proj1 (proj2 (polling_has_one_timer true [Inflight.Start])) 3%N)
             eq_refl).
  - exact (proj1 (proj2 (proj2 (proj2 (proj2
             (polling_has_one_timer true [Inflight.Start])))))
             [Inflight.Wait 5000; Inflight.Settle] eq_refl).
  - refine (proj1 (proj2 (proj2 (proj2 (proj2 (proj2
             (polling_has_one_timer true [Inflight.Start])))))) _ eq_refl).
    reflexivity.
  - exact (proj2 (proj2 (proj2 (proj2 (proj2 (proj2
             (polling_has_one_timer true [Inflight.Start]))))))
             [Inflight.Wait 5000; Inflight.Settle] eq_refl).
Defined.

(** C7, as the specification words it, fails in its last part: after
    [stopPolling] has returned, with no timer live, the run that was
    suspended at its [await] goes on and writes the state into the panel. *)
Lemma stopped_polling_still_renders :
  let stopped := Inflight.run true [Inflight.Start; Inflight.Stop] in
  let later :=
    Inflight.run true
      [Inflight.Start; Inflight.Stop; Inflight.Wait 5000; Inflight.Settle] in
  Scheduler.timers (Inflight.timers stopped) = [] /\
  Scheduler.pollingInterval (Inflight.timers stopped) = None /\
  Inflight.panel stopped = true /\
  Inflight.awaiting stopped = 1 /\
  Inflight.written stopped = 0 /\
  Inflight.begun later = Inflight.begun stopped /\
  Inflight.written later = 1.
Proof.
  cbv zeta. repeat split.
Qed.

(* ================================================================= *)
(** ** Further properties of the plugin *)

Lemma js_or_truthy (a d : JS.value) :
  JS.truthy d = true -> JS.truthy (JS.js_or a d) = true.
Proof.
  intros H. unfold JS.js_or. destruct (JS.truthy a) eqn:E; [exact E | exact H].
Qed.

Lemma str_or_nonempty (o : option string) (d : string) :
  d <> EmptyString -> Mpris.str_or o d <> EmptyString.
Proof.
  intros H. unfold Mpris.str_or. destruct o as [s | ]; [ | exact H].
  destruct (String.eqb_spec s EmptyString) as [E | N]; assumption.
Qed.

Lemma truthy_nonempty (s : string) :
  s <> EmptyString -> JS.truthy (JS.VStr s) = true.
Proof. intros H. apply negb_true_iff, String.eqb_neq. exact H. Qed.

Section Endings.

Import JS Mpris.

Variable W : Type.
Variable execAsync : string -> W -> option string * W.

(** The ways [getPlayerState] can end: no metadata, metadata that parses to
    [null], or a state built from five or from nine queries. *)
Lemma getPlayerState_cases (s : st W) :
  let state := fst (getPlayerState W execAsync s) in
  let after := spawned (snd (getPlayerState W execAsync s)) in
  (state = Spec.unavailable /\
   after = spawned s ++ [("playerctl " ++ metadata_args)%string]) \/
  (exists message,
      state = VObj [("playing", VBool false); ("available", VBool false);
                    ("error", VStr message)] /\
      after = spawned s ++ [("playerctl " ++ metadata_args)%string;
                            "playerctl status"; "playerctl position"]) \/
  (exists (playing shuffle : bool) (title artist album artUrl : value)
          (progress duration : num) (loop : string),
      state = VObj [("available", VBool true); ("playing", VBool playing);
                    ("title", title); ("artist", artist); ("album", album);
                    ("artUrl", artUrl);
                    ("progress_ms", VNum progress); ("duration_ms", VNum duration);
                    ("shuffle", VBool shuffle); ("loop", VStr loop)] /\
      truthy title = true /\ truthy artist = true /\ loop <> EmptyString /\
      (after = spawned s ++
               [("playerctl " ++ metadata_args)%string; "playerctl status";
                "playerctl position"; "playerctl shuffle"; "playerctl loop"] \/
       after = spawned s ++
               [("playerctl " ++ metadata_args)%string; "playerctl status";
                "playerctl metadata title"; "playerctl metadata artist";
                "playerctl metadata album"; "playerctl metadata mpris:artUrl";
                "playerctl position"; "playerctl shuffle"; "playerctl loop"])).
Proof.
  cbv zeta.
  unfold getPlayerState, getPlayerState_try, bind, ret.
  pose proof (playerctl_spawned W execAsync metadata_args s) as P0.
  destruct (Mpris.playerctl W execAsync metadata_args s) as [raw s0].
  cbn [snd] in P0.
  destruct (falsy raw).
  { left. cbn [fst snd]. split; [reflexivity | exact P0]. }
  pose proof (playerctl_spawned W execAsync "status" s0) as P1.
  destruct (Mpris.playerctl W execAsync "status" s0) as [status s1].
  cbn [snd] in P1.
  destruct (JSON_parse (str_or raw EmptyString)) as [meta | ].
  - pose proof (playerctl_spawned W execAsync "position" s1) as P2.
    destruct (Mpris.playerctl W execAsync "position" s1) as [po s2].
    cbn [snd] in P2.
    destruct (get_prop meta "length") as [len | ].
    + pose proof (playerctl_spawned W execAsync "shuffle" s2) as P3.
      destruct (Mpris.playerctl W execAsync "shuffle" s2) as [sh s3].
      pose proof (playerctl_spawned W execAsync "loop" s3) as P4.
      destruct (Mpris.playerctl W execAsync "loop" s3) as [lo s4].
      cbn [fst snd] in *. right. right.
      do 9 eexists. split; [reflexivity | ].
      split; [apply js_or_truthy; reflexivity | ].
      split; [apply js_or_truthy; reflexivity | ].
      split; [apply str_or_nonempty; discriminate | ].
      left. rewrite P4, P3, P2, P1, P0. repeat rewrite <- app_assoc. reflexivity.
    + right. left. cbn [fst snd errors spawned world console_error].
      eexists. split; [reflexivity | ].
      unfold console_error. cbn [fst snd spawned].
      rewrite P2, P1, P0. repeat rewrite <- app_assoc. reflexivity.
  - pose proof (playerctl_spawned W execAsync "metadata title" s1) as P2.
    destruct (Mpris.playerctl W execAsync "metadata title" s1) as [t s2].
    pose proof (playerctl_spawned W execAsync "metadata artist" s2) as P3.
    destruct (Mpris.playerctl W execAsync "metadata artist" s2) as [a s3].
    pose proof (playerctl_spawned W execAsync "metadata album" s3) as P4.
    destruct (Mpris.playerctl W execAsync "metadata album" s3) as [al s4].
    pose proof (playerctl_spawned W execAsync "metadata mpris:artUrl" s4) as P5.
    destruct (Mpris.playerctl W execAsync "metadata mpris:artUrl" s4) as [au s5].
    pose proof (playerctl_spawned W execAsync "position" s5) as P6.
    destruct (Mpris.playerctl W execAsync "position" s5) as [po s6].
    change (get_prop (VObj _) "length") with (Some VUndefined).
    cbv iota beta.
    pose proof (playerctl_spawned W execAsync "shuffle" s6) as P7.
    destruct (Mpris.playerctl W execAsync "shuffle" s6) as [sh s7].
    pose proof (playerctl_spawned W execAsync "loop" s7) as P8.
    destruct (Mpris.playerctl W execAsync "loop" s7) as [lo s8].
    cbn [fst snd] in *. right. right.
    do 9 eexists. split; [reflexivity | ].
    split; [apply js_or_truthy; reflexivity | ].
    split; [apply js_or_truthy; reflexivity | ].
    split; [apply str_or_nonempty; discriminate | ].
    right. rewrite P8, P7, P6, P5, P4, P3, P2, P1, P0.
    repeat rewrite <- app_assoc. reflexivity.
Qed.

End Endings.

(** X1.  Whenever the state returned by [getPlayerState] is available, its
    title and artist are truthy (never empty or missing: the text Unknown
    stands in) and its loop mode is a non-empty string. *)
Theorem available_state_names_a_track :
  forall (W : Type) (execAsync : string -> W -> option string * W)
         (s : Mpris.st W),
    let state := fst (Mpris.getPlayerState W execAsync s) in
    Mpris.prop state "available" = JS.VBool true ->
    JS.truthy (Mpris.prop state "title") = true /\
    JS.truthy (Mpris.prop state "artist") = true /\
    exists loop, Mpris.prop state "loop" = JS.VStr loop /\ loop <> EmptyString.
Proof.
  intros W execAsync s state H. subst state.
  destruct (getPlayerState_cases W execAsync s)
    as [[E _] | [(m & E & _) | (pl & sh & t & a & al & au & pr & du & lo & E & Ht & Ha & Hl & _)]];
    rewrite E in *.
  - discriminate H.
  - discriminate H.
  - split; [exact Ht | ]. split; [exact Ha | ].
    exists lo. split; [reflexivity | exact Hl].
Qed.

(** A playing track, and a track whose metadata does not parse. *)
Lemma available_state_names_a_track_witness :
  JS.truthy
    (Mpris.prop
       (fst (Mpris.getPlayerState _ Desktop.execAsync (Mpris.start Desktop.quoted)))
       "title") = true.
Proof.
  exact (proj1 (available_state_names_a_track _ Desktop.execAsync
                  (Mpris.start Desktop.quoted) eq_refl)).
Defined.

(** X2.  One status request costs one, three, five or nine runs of
    [playerctl], never more: one when there is no metadata, nine when the
    metadata does not parse. *)
Theorem getPlayerState_spawns_at_most_nine :
  forall (W : Type) (execAsync : string -> W -> option string * W)
         (s : Mpris.st W),
    let n := (List.length (Mpris.spawned (snd (Mpris.getPlayerState W execAsync s)))
              - List.length (Mpris.spawned s))%nat in
    In n [1; 3; 5; 9]%nat /\
    (Mpris.prop (fst (Mpris.getPlayerState W execAsync s)) "available"
       = JS.VBool true <-> (n = 5 \/ n = 9)%nat).
Proof.
  intros W execAsync s n. subst n.
  destruct (getPlayerState_cases W execAsync s)
    as [[E L] | [(m & E & L) | (pl & sh & t & a & al & au & pr & du & lo & E & _ & _ & _ & [L | L])]];
    rewrite E, L, length_app, Nat.add_comm, Nat.add_sub; cbn [List.length];
    (split; [simpl; tauto | ]);
    split; intros H; try discriminate H; try reflexivity;
    try (destruct H as [H | H]; discriminate H); auto.
Qed.

(** X3.  When the metadata line does not parse, the state is rebuilt from
    the per-field queries, and none of them asks for the length: the
    duration of such a track is always 0, whatever the player reports, so
    the extension leaves the progress bar untouched for it. *)
Theorem fallback_state_has_no_duration :
  forall (W : Type) (execAsync : string -> W -> option string * W)
         (s : Mpris.st W) (text : string),
    fst (Mpris.playerctl W execAsync Mpris.metadata_args s) = Some text ->
    text <> EmptyString ->
    JS.JSON_parse text = None ->
    let state := fst (Mpris.getPlayerState W execAsync s) in
    Mpris.prop state "duration_ms" = JS.VNum (JS.num_of_Z 0) /\
    forall (progressBar playerPanel : bool) (progress_ms : JS.value) (b : Client.bar),
      Client.updateProgress progressBar playerPanel progress_ms
        (Mpris.prop state "duration_ms") b = b.
Proof.
  intros W execAsync s text Hraw Hne Hparse state.
  assert (D : Mpris.prop state "duration_ms" = JS.VNum (JS.num_of_Z 0)).
  { subst state.
    unfold Mpris.getPlayerState, Mpris.getPlayerState_try, Mpris.bind, Mpris.ret.
    destruct (Mpris.playerctl W execAsync Mpris.metadata_args s) as [raw s0].
    cbn [fst snd] in *. subst raw.
    assert (F : Mpris.falsy (Some text) = false).
    { unfold Mpris.falsy. apply String.eqb_neq. exact Hne. }
    rewrite F.
    assert (S : Mpris.str_or (Some text) EmptyString = text).
    { unfold Mpris.str_or. destruct (String.eqb_spec text EmptyString); congruence. }
    rewrite S, Hparse.
    destruct (Mpris.playerctl W execAsync "status" s0) as [status s1].
    destruct (Mpris.playerctl W execAsync "metadata title" s1) as [t s2].
    destruct (Mpris.playerctl W execAsync "metadata artist" s2) as [a s3].
    destruct (Mpris.playerctl W execAsync "metadata album" s3) as [al s4].
    destruct (Mpris.playerctl W execAsync "metadata mpris:artUrl" s4) as [au s5].
    destruct (Mpris.playerctl W execAsync "position" s5) as [po s6].
    change (JS.get_prop (JS.VObj _) "length") with (Some JS.VUndefined).
    cbv iota beta.
    destruct (Mpris.playerctl W execAsync "shuffle" s6) as [sh s7].
    destruct (Mpris.playerctl W execAsync "loop" s7) as [lo s8].
    reflexivity. }
  split; [exact D | ].
  intros progressBar playerPanel progress_ms b. rewrite D.
  unfold Client.updateProgress. cbn [JS.truthy].
  change (JS.Qzero_b (inject_Z 0)) with true. cbn [negb].
  rewrite andb_false_r. reflexivity.
Qed.

(** A track whose title holds quote characters, 200 seconds long. *)
Lemma fallback_state_has_no_duration_witness :
  Mpris.prop
    (fst (Mpris.getPlayerState _ Desktop.execAsync (Mpris.start Desktop.quoted)))
    "duration_ms" = JS.VNum (JS.num_of_Z 0).
Proof.
  refine (proj1 (fallback_state_has_no_duration _ Desktop.execAsync
                   (Mpris.start Desktop.quoted)
                   (JS.trim (Desktop.line (Desktop.metadata_line Desktop.quoted)))
                   _ _ _)).
  - vm_compute. reflexivity.
  - vm_compute. discriminate.
  - vm_compute. reflexivity.
Defined.

Section PayloadRoutes.

Import JS Mpris.

Variable W : Type.
Variable execAsync : string -> W -> option string * W.
Variable Number_toString : num -> string.

Lemma seek_number (body : value) (n : num) (s : st W) :
  get_prop body "position" = Some (VNum n) ->
  Routes.seek W execAsync Number_toString body s =
    (Ok Spec.success,
     snd (Mpris.playerctl W execAsync ("position " ++ Number_toString n)%string s)).
Proof.
  intros H. unfold Routes.seek. rewrite H. cbn [Routes.is_number to_number].
  unfold bind. destruct (Mpris.playerctl W execAsync _ s). reflexivity.
Qed.

Lemma volume_number (body : value) (n : num) (s : st W) :
  get_prop body "volume" = Some (VNum n) ->
  Routes.volume W execAsync Number_toString body s =
    (Ok Spec.success,
     snd (Mpris.playerctl W execAsync ("volume " ++ Number_toString n)%string s)).
Proof.
  intros H. unfold Routes.volume. rewrite H. cbn [Routes.is_number to_number].
  unfold bind. destruct (Mpris.playerctl W execAsync _ s). reflexivity.
Qed.

End PayloadRoutes.

(** X4.  The seek and volume routes check their payload before they touch
    the bridge.  A [position] or [volume] that is not a number (missing, a
    string, [null], ...) is answered 400 with an error body, and no command
    is spawned; a number is passed to [playerctl] in one command and
    answered [{success: true}], whatever the command does. *)
Theorem payload_routes_check_the_number :
  forall (W : Type) (execAsync : string -> W -> option string * W)
         (Number_toString : JS.num -> string)
         (body : JS.value) (s : Mpris.st W),
    (forall v,
        JS.get_prop body "position" = Some v ->
        Routes.is_number v = false ->
        Routes.seek W execAsync Number_toString body s =
          (Mpris.Ok {| Mpris.status := 400;
                       Mpris.body := JS.VObj [("error", JS.VStr "Position required")] |},
           s)) /\
    (forall v,
        JS.get_prop body "volume" = Some v ->
        Routes.is_number v = false ->
        Routes.volume W execAsync Number_toString body s =
          (Mpris.Ok {| Mpris.status := 400;
                       Mpris.body := JS.VObj [("error", JS.VStr "Volume required")] |},
           s)) /\
    (forall n,
        JS.get_prop body "position" = Some (JS.VNum n) ->
        fst (Routes.seek W execAsync Number_toString body s) = Mpris.Ok Spec.success /\
        Mpris.spawned (snd (Routes.seek W execAsync Number_toString body s)) =
          Mpris.spawned s ++ [("playerctl position " ++ Number_toString n)%string]) /\
    (forall n,
        JS.get_prop body "volume" = Some (JS.VNum n) ->
        fst (Routes.volume W execAsync Number_toString body s) = Mpris.Ok Spec.success /\
        Mpris.spawned (snd (Routes.volume W execAsync Number_toString body s)) =
          Mpris.spawned s ++ [("playerctl volume " ++ Number_toString n)%string]).
Proof.
  intros W execAsync Number_toString body s.
  split; [ | split; [ | split]].
  - intros v Hv Hn. unfold Routes.seek. rewrite Hv, Hn. reflexivity.
  - intros v Hv Hn. unfold Routes.volume. rewrite Hv, Hn. reflexivity.
  - intros n Hn. rewrite (seek_number W execAsync Number_toString body n s Hn).
    cbn [fst snd]. split; [reflexivity | ]. apply playerctl_spawned.
  - intros n Hn. rewrite (volume_number W execAsync Number_toString body n s Hn).
    cbn [fst snd]. split; [reflexivity | ]. apply playerctl_spawned.
Qed.

(** A seek to the text 30 is refused; a seek to the number 30 is run. *)
Lemma payload_routes_check_the_number_witness :
  Routes.seek _ Desktop.execAsync (fun _ => "30")
    (JS.VObj [("position", JS.VStr "30")]) (Mpris.start Desktop.song_a) =
    (Mpris.Ok {| Mpris.status := 400;
                 Mpris.body := JS.VObj [("error", JS.VStr "Position required")] |},
     Mpris.start Desktop.song_a) /\
  Mpris.spawned
    (snd (Routes.seek _ Desktop.execAsync (fun _ => "30")
            (JS.VObj [("position", JS.VNum (JS.num_of_Z 30))])
            (Mpris.start Desktop.song_a))) = ["playerctl position 30"] /\
  Routes.volume _ Desktop.execAsync (fun _ => "1")
    (JS.VObj []) (Mpris.start Desktop.song_a) =
    (Mpris.Ok {| Mpris.status := 400;
                 Mpris.body := JS.VObj [("error", JS.VStr "Volume required")] |},
     Mpris.start Desktop.song_a) /\
  Mpris.spawned
    (snd (Routes.volume _ Desktop.execAsync (fun _ => "1")
            (JS.VObj [("volume", JS.VNum (JS.num_of_Z 1))])
            (Mpris.start Desktop.song_a))) = ["playerctl volume 1"].
Proof.
  split; [ | split; [ | split]].
  - exact (proj1 (payload_routes_check_the_number _ Desktop.execAsync (fun _ => "30")
                    (JS.VObj [("position", JS.VStr "30")]) (Mpris.start Desktop.song_a))
             (JS.VStr "30") eq_refl eq_refl).
  - exact (proj2 (proj1 (proj2 (proj2
             (payload_routes_check_the_number _ Desktop.execAsync (fun _ => "30")
                (JS.VObj [("position", JS.VNum (JS.num_of_Z 30))])
                (Mpris.start Desktop.song_a))))
             (JS.num_of_Z 30) eq_refl)).
  - exact (proj1 (proj2 (payload_routes_check_the_number _ Desktop.execAsync
                    (fun _ => "1") (JS.VObj []) (Mpris.start Desktop.song_a)))
             JS.VUndefined eq_refl eq_refl).
  - exact (proj2 (proj2 (proj2 (proj2
             (payload_routes_check_the_number _ Desktop.execAsync (fun _ => "1")
                (JS.VObj [("volume", JS.VNum (JS.num_of_Z 1))])
                (Mpris.start Desktop.song_a))))
             (JS.num_of_Z 1) eq_refl)).
Defined.

Lemma split_no_separator (c : ascii) (s : string) :
  Forall (fun p => forall i, String.get i p <> Some c) (Builtin.split c s).
Proof.
  induction s as [ | a r IH]; cbn [Builtin.split].
  - constructor; [ | constructor]. intros i. destruct i; discriminate.
  - destruct (Ascii.eqb_spec a c) as [E | N].
    + constructor; [ | exact IH]. intros i. destruct i; discriminate.
    + destruct (Builtin.split c r) as [ | x xs].
      * constructor; [ | constructor]. intros [ | [ | i]]; cbn; congruence.
      * inversion IH as [ | ? ? Hx Hxs]; subst.
        constructor; [ | exact Hxs].
        intros [ | i]; cbn; [congruence | apply Hx].
Qed.

(** X5.  The player list holds no empty name and no name with a line break
    in it; when the listing fails or prints nothing the list is empty.  The
    answer is 200 in every case. *)
Theorem players_are_clean_names :
  forall (W : Type) (execAsync : string -> W -> option string * W)
         (s : Mpris.st W),
    let output := fst (Mpris.playerctl W execAsync "--list-all" s) in
    fst (Routes.players W execAsync s) =
      {| Mpris.status := 200;
         Mpris.body :=
           JS.VObj [("players", JS.VArr (map JS.VStr (Routes.player_names output)))] |} /\
    Forall (fun p => p <> EmptyString /\
                     forall i, String.get i p <> Some Routes.line_feed)
           (Routes.player_names output) /\
    (Mpris.falsy output = true -> Routes.player_names output = []).
Proof.
  intros W execAsync s output. split; [ | split].
  - subst output. unfold Routes.players, Mpris.bind, Mpris.ret.
    destruct (Mpris.playerctl W execAsync "--list-all" s) as [o s1].
    cbn [fst]. unfold Mpris.res_json. f_equal.
    cbn [JS.json_wire]. rewrite map_map. reflexivity.
  - unfold Routes.player_names. destruct (Mpris.falsy output); [constructor | ].
    apply Forall_forall. intros p Hin. apply filter_In in Hin.
    destruct Hin as [Hin Hne]. split.
    + apply String.eqb_neq. apply negb_true_iff. exact Hne.
    + pose proof (split_no_separator Routes.line_feed
                    (Mpris.str_or output EmptyString)) as F.
      rewrite Forall_forall in F. apply F. exact Hin.
  - intros H. unfold Routes.player_names. rewrite H. reflexivity.
Qed.

(** No player on the bus: the listing fails and the list is empty. *)
Lemma players_are_clean_names_witness :
  Routes.player_names
    (fst (Mpris.playerctl _ Desktop.execAsync "--list-all"
            (Mpris.start Desktop.nothing))) = [].
Proof.
  exact (proj2 (proj2 (players_are_clean_names _ Desktop.execAsync
                         (Mpris.start Desktop.nothing))) eq_refl).
Defined.

(* ================================================================= *)
(** ** Further properties of the extension *)

Lemma Qfloor_div_inject_Z (u c : Z) :
  0 < c -> Qfloor (inject_Z u / inject_Z c) = u / c.
Proof.
  intros H. destruct c as [ | p | p]; try lia.
  unfold Qfloor, Qdiv, Qmult, Qinv, inject_Z. cbn [Qnum Qden].
  rewrite Z.mul_1_r. reflexivity.
Qed.

Lemma rem_Z (z c : Z) :
  0 <= z -> 0 < c ->
  Builtin.num_rem (JS.num_of_Z z) (JS.num_of_Z c) = JS.num_of_Z (z mod c).
Proof.
  intros Hz Hc. unfold Builtin.num_rem, JS.num_of_Z.
  rewrite Qzero_b_inject_Z by lia.
  f_equal. apply Qred_is_inject_Z.
  assert (T : Builtin.Qtrunc (inject_Z z / inject_Z c) = z / c).
  { unfold Builtin.Qtrunc.
    assert (N : JS.Qneg_b (inject_Z z / inject_Z c) = false).
    { unfold JS.Qneg_b.
      destruct (Qcompare_spec (inject_Z z / inject_Z c) 0) as [ | L | ];
        try reflexivity.
      exfalso. apply (Qlt_not_le _ _ L).
      apply Qle_shift_div_l.
      - change 0%Q with (inject_Z 0). rewrite <- Zlt_Qlt. exact Hc.
      - rewrite Qmult_0_l. change 0%Q with (inject_Z 0).
        rewrite <- Zle_Qle. exact Hz. }
    rewrite N. apply Qfloor_div_inject_Z. exact Hc. }
  rewrite T.
  rewrite <- inject_Z_mult. unfold Qminus. rewrite <- inject_Z_opp, <- inject_Z_plus.
  rewrite Z.mod_eq by lia. apply inject_Z_injective. lia.
Qed.

(** A whole number below 1e21 prints as its digits. *)
Lemma integral_toString_Z (Number_toString : JS.num -> string) (z : Z) :
  Z.abs z < 10 ^ 21 ->
  Builtin.integral_toString Number_toString (JS.num_of_Z z) =
  NilZero.string_of_int (Z.to_int z).
Proof.
  intros H. unfold Builtin.integral_toString, JS.num_of_Z. cbv zeta.
  rewrite Qfloor_Z.
  replace (Qeq_bool (inject_Z z) (inject_Z z)) with true
    by (symmetry; apply Qeq_bool_iff; reflexivity).
  replace (Z.abs z <? 10 ^ 21) with true by (symmetry; apply Z.ltb_lt; exact H).
  reflexivity.
Qed.

Lemma two_digits_below_60 (d : Z) :
  0 <= d < 60 ->
  Builtin.padStart 2 "0" (NilZero.string_of_int (Z.to_int d)) = Panel.two_digits d.
Proof.
  intros H.
  assert (N : forall n : nat, (n < 60)%nat ->
              Builtin.padStart 2 "0" (NilZero.string_of_int (Z.to_int (Z.of_nat n))) =
              Panel.two_digits (Z.of_nat n)).
  { intros n Hn. do 60 (destruct n as [ | n]; [reflexivity | ]). lia. }
  rewrite <- (Z2Nat.id d) by lia. apply N. lia.
Qed.

(** X6.  For a whole number of milliseconds [ms] from 0 and below [2 ^ 53],
    [formatTime] prints the whole minutes in decimal, a colon, and the
    remaining whole seconds as exactly two digits, from 00 to 59; what is
    left of a second is dropped.  A missing time prints as NaN:NaN. *)
Theorem formatTime_minutes_and_seconds :
  (forall (Number_toString : JS.num -> string) (ms : Z),
      0 <= ms < 2 ^ 53 ->
      Panel.formatTime Number_toString (JS.num_of_Z ms) =
        (Panel.decimal_digits (ms / 60000) ++ ":" ++
         Panel.two_digits ((ms / 1000) mod 60))%string /\
      0 <= (ms / 1000) mod 60 < 60 /\
      (ms / 60000) * 60 + (ms / 1000) mod 60 = ms / 1000) /\
  (forall Number_toString : JS.num -> string,
      Panel.formatTime Number_toString JS.NaN = "NaN:NaN").
Proof.
  split; [ | reflexivity].
  intros Number_toString ms H. change (2 ^ 53) with 9007199254740992 in H.
  assert (S : 0 <= ms / 1000 < 9007199254740992).
  { split; [apply Z.div_pos; lia | ].
    apply Z.div_lt_upper_bound; lia. }
  assert (M : 0 <= ms / 1000 / 60 < 9007199254740992).
  { split; [apply Z.div_pos; lia | ].
    apply Z.div_lt_upper_bound; lia. }
  split; [ | split].
  - unfold Panel.formatTime. cbv zeta.
    rewrite (floor_binary64_div ms 1000)
      by (change (2 ^ 53) with 9007199254740992; lia).
    rewrite (floor_binary64_div (ms / 1000) 60)
      by (change (2 ^ 53) with 9007199254740992; lia).
    rewrite rem_Z by lia.
    pose proof (Z.mod_pos_bound (ms / 1000) 60 ltac:(lia)) as B.
    rewrite !integral_toString_Z
      by (change (10 ^ 21) with 1000000000000000000000; lia).
    rewrite two_digits_below_60 by exact B.
    rewrite Z.div_div by lia. reflexivity.
  - apply Z.mod_pos_bound. lia.
  - replace 60000 with (1000 * 60) by reflexivity.
    rewrite <- Z.div_div by lia.
    pose proof (Z.div_mod (ms / 1000) 60). lia.
Qed.

(** Three minutes and five seconds, and a little more. *)
Lemma formatTime_minutes_and_seconds_witness :
  Panel.formatTime (fun _ => EmptyString) (JS.num_of_Z 185999) = "3:05".
Proof.
  refine (proj1 (proj1 formatTime_minutes_and_seconds (fun _ => EmptyString) 185999 _)).
  split; [lia | reflexivity].
Defined.

(** Sums and products of whole numbers are exact. *)
Lemma num_add_Z (a b : Z) :
  JS.num_add (JS.num_of_Z a) (JS.num_of_Z b) = JS.num_of_Z (a + b).
Proof.
  unfold JS.num_add, JS.num_of_Z. f_equal.
  apply Qred_is_inject_Z. rewrite inject_Z_plus. reflexivity.
Qed.

Lemma num_mul_Z (a b : Z) :
  JS.num_mul (JS.num_of_Z a) (JS.num_of_Z b) = JS.num_of_Z (a * b).
Proof.
  unfold JS.num_mul, JS.num_of_Z. f_equal.
  apply Qred_is_inject_Z. rewrite inject_Z_mult. reflexivity.
Qed.

Lemma requests_app (a b : list Client.event) :
  Observe.requests (a ++ b) = Observe.requests a ++ Observe.requests b.
Proof.
  induction a as [ | e a IH]; [reflexivity | ].
  destruct e; cbn [app Observe.requests]; rewrite IH; reflexivity.
Qed.

Lemma notices_app (a b : list Client.event) :
  Observe.notices (a ++ b) = Observe.notices a ++ Observe.notices b.
Proof.
  induction a as [ | e a IH]; [reflexivity | ].
  destruct e; cbn [app Observe.notices]; rewrite IH; reflexivity.
Qed.

Section MoreExtensionFacts.

Import JS Client.

Variable W : Type.
Variable Date_now : W -> Z.
Variable fetch : request -> W -> option http_response * W.

(** What a refresh does when the token endpoint cannot be reached or its
    answer is not JSON. *)
Lemma refresh_unreachable (s : st W) (w' : W) (answer : option http_response) :
  truthy (refreshToken (settings s)) = true ->
  truthy (clientId (settings s)) = true ->
  fetch (refresh_request (settings s)) (world s) = (answer, w') ->
  match answer with
  | None => True
  | Some resp => json resp = None
  end ->
  exists text,
    refreshAccessToken W Date_now fetch s =
      (false,
       {| settings := settings s; world := w';
          events := events s ++
                    [Sent (refresh_request (settings s)); Console "error" text] |}).
Proof.
  intros Hr Hc Hf Ha.
  unfold refreshAccessToken, bind, read, send, emit, ret. cbn [fst snd].
  rewrite Hr, Hc. cbn [negb orb]. rewrite Hf. cbn [settings world events].
  destruct answer as [resp | ].
  - rewrite Ha. cbn [settings world events]. rewrite <- app_assoc.
    eexists. reflexivity.
  - cbn [settings world events]. rewrite <- app_assoc. eexists. reflexivity.
Qed.

(** What a refresh does when the token endpoint grants a token. *)
Lemma refresh_granted (s : st W) (resp : http_response) (data token : value) (w' : W) :
  truthy (refreshToken (settings s)) = true ->
  truthy (clientId (settings s)) = true ->
  fetch (refresh_request (settings s)) (world s) = (Some resp, w') ->
  json resp = Some data ->
  get_prop data "access_token" = Some token ->
  truthy token = true ->
  refreshAccessToken W Date_now fetch s =
    (true,
     {| settings :=
          {| clientId := clientId (settings s);
             accessToken := token;
             refreshToken :=
               if truthy (prop data "refresh_token")
               then prop data "refresh_token"
               else refreshToken (settings s);
             tokenExpiry :=
               num_add (num_of_Z (Date_now w'))
                 (num_mul (to_number (prop data "expires_in")) (num_of_Z 1000));
             enablePanel := enablePanel (settings s);
             useMpris := useMpris (settings s) |};
        world := w';
        events := events s ++ [Sent (refresh_request (settings s)); Saved] |}).
Proof.
  intros Hr Hc Hf Hj Ha Ht.
  unfold refreshAccessToken, saveSettings, bind, read, send, emit, write, now, ret.
  cbn [fst snd]. rewrite Hr, Hc. cbn [negb orb]. rewrite Hf.
  cbn [settings world events]. rewrite Hj, Ha, Ht.
  cbn [settings world events]. rewrite <- app_assoc. reflexivity.
Qed.

End MoreExtensionFacts.

(** X7.  In MPRIS mode [fetchPlayerState] talks to the plugin only: it
    sends one request, to the plugin's status route, leaves the settings
    (and so the tokens) as they are and shows no notice, whatever the
    answer. *)
Theorem mpris_mode_asks_the_plugin_only :
  forall (W : Type) (Date_now : W -> Z)
         (fetch : Client.request -> W -> option Client.http_response * W)
         (s : Client.st W),
    Client.useMpris (Client.settings s) = true ->
    let s' := snd (Client.fetchPlayerState W Date_now fetch s) in
    Client.settings s' = Client.settings s /\
    Observe.requests (Client.events s') =
      Observe.requests (Client.events s) ++ [Client.status_request] /\
    Observe.notices (Client.events s') = Observe.notices (Client.events s).
Proof.
  intros W Date_now fetch s Hm s'. subst s'.
  unfold Client.fetchPlayerState, Client.bind, Client.read. cbn [fst snd].
  rewrite Hm.
  unfold Client.fetchMprisState, Client.bind, Client.send, Client.emit, Client.ret.
  destruct (fetch Client.status_request (Client.world s)) as [[resp | ] w'].
  - destruct (Client.ok resp); cbn [negb].
    + destruct (Client.json resp) as [data | ].
      * destruct (JS.get_prop data "available") as [available | ].
        -- destruct (JS.truthy available); cbn [negb snd Client.settings Client.events];
             rewrite ?requests_app, ?notices_app; cbn;
             rewrite ?app_nil_r; repeat split.
        -- cbn [snd Client.settings Client.events].
           rewrite !requests_app, !notices_app; cbn;
             rewrite ?app_nil_r, <- ?app_assoc; repeat split.
      * cbn [snd Client.settings Client.events].
        rewrite !requests_app, !notices_app; cbn;
          rewrite ?app_nil_r, <- ?app_assoc; repeat split.
    + cbn [snd Client.settings Client.events].
      rewrite !requests_app, !notices_app; cbn;
        rewrite ?app_nil_r, <- ?app_assoc; repeat split.
  - cbn [snd Client.settings Client.events].
    rewrite !requests_app, !notices_app; cbn;
      rewrite ?app_nil_r, <- ?app_assoc; repeat split.
Qed.

(** The default settings on a machine with a playing track. *)
Lemma mpris_mode_asks_the_plugin_only_witness :
  Observe.requests
    (Client.events
       (snd (Local.fetchPlayerState (fun _ => 0) Desktop.execAsync
               (Scenario.on_machine Desktop.song_a)))) = [Client.status_request].
Proof.
  exact (proj1 (proj2 (mpris_mode_asks_the_plugin_only Desktop.player (fun _ => 0)
                         (Local.fetch Desktop.execAsync)
                         (Scenario.on_machine Desktop.song_a) eq_refl))).
Defined.

(** X8.  Without an access token the remote backend makes no network call:
    [fetchPlayerState] returns [null] and does nothing else, and
    [controlPlayer] shows the notice that the extension is not connected
    and sends nothing. *)
Theorem no_token_no_traffic :
  forall (W : Type) (Date_now : W -> Z)
         (fetch : Client.request -> W -> option Client.http_response * W)
         (s : Client.st W) (command method : string),
    Client.useMpris (Client.settings s) = false ->
    JS.truthy (Client.accessToken (Client.settings s)) = false ->
    Client.fetchPlayerState W Date_now fetch s = (JS.VNull, s) /\
    Controls.controlPlayer W Date_now fetch command method s =
      (tt, {| Client.settings := Client.settings s; Client.world := Client.world s;
              Client.events := Client.events s ++ [Controls.not_connected_notice] |}).
Proof.
  intros W Date_now fetch s command method Hm Ha.
  assert (G : Client.getValidToken W Date_now fetch s = (JS.VNull, s)).
  { rewrite getValidToken_run, Ha. reflexivity. }
  split.
  - unfold Client.fetchPlayerState, Client.bind, Client.read. cbn [fst snd].
    rewrite Hm, G. reflexivity.
  - unfold Controls.controlPlayer, Client.bind, Client.read. cbn [fst snd].
    rewrite Hm, G. reflexivity.
Qed.

(** The settings after a disconnect, in remote mode. *)
Lemma no_token_no_traffic_witness :
  Client.fetchPlayerState Z Scenario.Date_now (Scenario.fetch Scenario.granting)
    (Scenario.at_time
       {| Client.clientId := JS.VStr "client";
          Client.accessToken := JS.VStr EmptyString;
          Client.refreshToken := JS.VStr EmptyString;
          Client.tokenExpiry := JS.Fin 0;
          Client.enablePanel := true; Client.useMpris := false |} 5) =
  (JS.VNull,
   Scenario.at_time
       {| Client.clientId := JS.VStr "client";
          Client.accessToken := JS.VStr EmptyString;
          Client.refreshToken := JS.VStr EmptyString;
          Client.tokenExpiry := JS.Fin 0;
          Client.enablePanel := true; Client.useMpris := false |} 5).
Proof.
  exact (proj1 (no_token_no_traffic Z Scenario.Date_now
                  (Scenario.fetch Scenario.granting)
                  (Scenario.at_time
                     {| Client.clientId := JS.VStr "client";
                        Client.accessToken := JS.VStr EmptyString;
                        Client.refreshToken := JS.VStr EmptyString;
                        Client.tokenExpiry := JS.Fin 0;
                        Client.enablePanel := true; Client.useMpris := false |} 5)
                  "play" "PUT" eq_refl eq_refl)).
Defined.

(** X9.  An expired access token with no refresh token, or no client id,
    to renew it: the accessor returns [null] and does nothing else, so no
    request is sent and no notice tells the user that the session ended. *)
Theorem expired_token_without_refresh_is_silent :
  forall (W : Type) (Date_now : W -> Z)
         (fetch : Client.request -> W -> option Client.http_response * W)
         (s : Client.st W),
    JS.truthy (Client.accessToken (Client.settings s)) = true ->
    JS.num_gt (JS.num_of_Z (Date_now (Client.world s)))
      (JS.num_sub (Client.tokenExpiry (Client.settings s)) (JS.num_of_Z 60000)) = true ->
    JS.truthy (Client.refreshToken (Client.settings s)) = false \/
    JS.truthy (Client.clientId (Client.settings s)) = false ->
    Client.getValidToken W Date_now fetch s = (JS.VNull, s).
Proof.
  intros W Date_now fetch s Ha Hgt Hno.
  rewrite getValidToken_run, Ha, Hgt. cbn [negb].
  assert (R : Client.refreshAccessToken W Date_now fetch s = (false, s)).
  { unfold Client.refreshAccessToken, Client.bind, Client.read. cbn [fst snd].
    destruct Hno as [H | H]; rewrite H; cbn [negb orb];
      rewrite ?orb_true_r; reflexivity. }
  rewrite R. reflexivity.
Qed.

(** A stored access token whose refresh token is [undefined]. *)
Lemma expired_token_without_refresh_is_silent_witness :
  Client.getValidToken Z Scenario.Date_now (Scenario.fetch Scenario.granting)
    (Scenario.at_time
       {| Client.clientId := JS.VStr "client";
          Client.accessToken := JS.VStr "stored";
          Client.refreshToken := JS.VUndefined;
          Client.tokenExpiry := JS.num_of_Z 160000;
          Client.enablePanel := true; Client.useMpris := false |} 200000) =
  (JS.VNull,
   Scenario.at_time
       {| Client.clientId := JS.VStr "client";
          Client.accessToken := JS.VStr "stored";
          Client.refreshToken := JS.VUndefined;
          Client.tokenExpiry := JS.num_of_Z 160000;
          Client.enablePanel := true; Client.useMpris := false |} 200000).
Proof.
  exact (expired_token_without_refresh_is_silent Z Scenario.Date_now
           (Scenario.fetch Scenario.granting)
           (Scenario.at_time
              {| Client.clientId := JS.VStr "client";
                 Client.accessToken := JS.VStr "stored";
                 Client.refreshToken := JS.VUndefined;
                 Client.tokenExpiry := JS.num_of_Z 160000;
                 Client.enablePanel := true; Client.useMpris := false |} 200000)
           eq_refl eq_refl (or_introl eq_refl)).
Defined.

(** X10.  A refresh that cannot reach the token endpoint, or whose answer
    is not JSON, is not reported to the user: the accessor returns [null]
    after the one request, the settings stay as they were and no notice is
    shown (the failure is written to the console only). *)
Theorem unreachable_token_endpoint_is_silent :
  forall (W : Type) (Date_now : W -> Z)
         (fetch : Client.request -> W -> option Client.http_response * W)
         (s : Client.st W) (answer : option Client.http_response) (w' : W),
    JS.truthy (Client.accessToken (Client.settings s)) = true ->
    JS.truthy (Client.refreshToken (Client.settings s)) = true ->
    JS.truthy (Client.clientId (Client.settings s)) = true ->
    JS.num_gt (JS.num_of_Z (Date_now (Client.world s)))
      (JS.num_sub (Client.tokenExpiry (Client.settings s)) (JS.num_of_Z 60000)) = true ->
    fetch (Client.refresh_request (Client.settings s)) (Client.world s) = (answer, w') ->
    match answer with
    | None => True
    | Some resp => Client.json resp = None
    end ->
    let r := Client.getValidToken W Date_now fetch s in
    fst r = JS.VNull /\
    Client.settings (snd r) = Client.settings s /\
    Observe.requests (Client.events (snd r)) =
      Observe.requests (Client.events s) ++ [Client.refresh_request (Client.settings s)] /\
    Observe.notices (Client.events (snd r)) = Observe.notices (Client.events s).
Proof.
  intros W Date_now fetch s answer w' Ha Hr Hc Hgt Hf Hans r. subst r.
  rewrite getValidToken_run, Ha, Hgt. cbn [negb].
  destruct (refresh_unreachable W Date_now fetch s w' answer Hr Hc Hf Hans)
    as [text R].
  rewrite R. cbn [fst snd Client.settings Client.events].
  rewrite requests_app, notices_app. cbn. rewrite app_nil_r.
  repeat split.
Qed.

(** An expired token on a network where every request fails. *)
Lemma unreachable_token_endpoint_is_silent_witness :
  Observe.notices
    (Client.events
       (snd (Client.getValidToken Z Scenario.Date_now
               (Scenario.fetch (fun _ => None))
               (Scenario.at_time (Scenario.connected 160000) 200000)))) = [].
Proof.
  exact (proj2 (proj2 (proj2
    (unreachable_token_endpoint_is_silent Z Scenario.Date_now
       (Scenario.fetch (fun _ => None))
       (Scenario.at_time (Scenario.connected 160000) 200000)
       None 200000 eq_refl eq_refl eq_refl eq_refl eq_refl I)))).
Defined.

(** X11.  A refresh that is granted stores the new access token with the
    expiry [now + expires_in * 1000], keeps the old refresh token unless the
    answer brings a new one, saves the settings once and shows no notice;
    from then on, while the clock is at or before the new expiry less
    60000 ms, the accessor returns the new token without a request. *)
Theorem granted_refresh_is_stored_and_reused :
  forall (W : Type) (Date_now : W -> Z)
         (fetch : Client.request -> W -> option Client.http_response * W)
         (s : Client.st W) (resp : Client.http_response)
         (data token : JS.value) (e : Z) (w' : W),
    JS.truthy (Client.accessToken (Client.settings s)) = true ->
    JS.truthy (Client.refreshToken (Client.settings s)) = true ->
    JS.truthy (Client.clientId (Client.settings s)) = true ->
    JS.num_gt (JS.num_of_Z (Date_now (Client.world s)))
      (JS.num_sub (Client.tokenExpiry (Client.settings s)) (JS.num_of_Z 60000)) = true ->
    fetch (Client.refresh_request (Client.settings s)) (Client.world s) = (Some resp, w') ->
    Client.json resp = Some data ->
    JS.get_prop data "access_token" = Some token ->
    JS.truthy token = true ->
    Client.prop data "expires_in" = JS.VNum (JS.num_of_Z e) ->
    let r := Client.getValidToken W Date_now fetch s in
    let fresh := Client.prop data "refresh_token" in
    fst r = token /\
    Client.accessToken (Client.settings (snd r)) = token /\
    Client.refreshToken (Client.settings (snd r)) =
      (if JS.truthy fresh then fresh else Client.refreshToken (Client.settings s)) /\
    Client.tokenExpiry (Client.settings (snd r)) = JS.num_of_Z (Date_now w' + e * 1000) /\
    Client.events (snd r) =
      Client.events s ++
      [Client.Sent (Client.refresh_request (Client.settings s)); Client.Saved] /\
    (forall s2 : Client.st W,
        Client.settings s2 = Client.settings (snd r) ->
        Date_now (Client.world s2) <= Date_now w' + e * 1000 - 60000 ->
        Client.getValidToken W Date_now fetch s2 = (token, s2)).
Proof.
  intros W Date_now fetch s resp data token e w' Ha Hr Hc Hgt Hf Hj Hp Ht He r fresh.
  subst r fresh.
  rewrite getValidToken_run, Ha, Hgt. cbn [negb].
  rewrite (refresh_granted W Date_now fetch s resp data token w' Hr Hc Hf Hj Hp Ht).
  cbn [fst snd Client.settings Client.events Client.accessToken
       Client.refreshToken Client.tokenExpiry].
  rewrite He. cbn [JS.to_number]. rewrite num_mul_Z, num_add_Z.
  repeat (split; [reflexivity | ]).
  intros s2 Hs2 Hle.
  rewrite getValidToken_run, Hs2.
  cbn [Client.accessToken Client.tokenExpiry].
  rewrite Ht, num_gt_skew. cbn [negb].
  replace (Date_now w' + e * 1000 - 60000 <? Date_now (Client.world s2)) with false
    by (symmetry; apply Z.ltb_ge; exact Hle).
  reflexivity.
Qed.

(** An expired token renewed for an hour at time 200000. *)
Lemma granted_refresh_is_stored_and_reused_witness :
  fst (Client.getValidToken Z Scenario.Date_now (Scenario.fetch Scenario.granting)
         (Scenario.at_time (Scenario.connected 160000) 200000)) = JS.VStr "fresh" /\
  Client.tokenExpiry
    (Client.settings
       (snd (Client.getValidToken Z Scenario.Date_now (Scenario.fetch Scenario.granting)
               (Scenario.at_time (Scenario.connected 160000) 200000)))) =
    JS.num_of_Z 3800000.
Proof.
  pose proof (granted_refresh_is_stored_and_reused Z Scenario.Date_now
                (Scenario.fetch Scenario.granting)
                (Scenario.at_time (Scenario.connected 160000) 200000)
                {| Client.status := 200;
                   Client.json := Some (JS.VObj [("access_token", JS.VStr "fresh");
                                                 ("expires_in", JS.VNum (JS.Fin 3600))]) |}
                (JS.VObj [("access_token", JS.VStr "fresh");
                          ("expires_in", JS.VNum (JS.Fin 3600))])
                (JS.VStr "fresh") 3600 200000
                eq_refl eq_refl eq_refl eq_refl eq_refl eq_refl eq_refl eq_refl eq_refl)
    as (A & _ & _ & B & _).
  split; [exact A | exact B].
Defined.

(** X12.  What the remote service answers is handed on as it is: a 200
    answer makes [fetchPlayerState] return the parsed body itself,
    unchanged; any other status, or a body that is not JSON, gives [null].
    No answer to this request makes the extension show a notice. *)
Theorem remote_state_is_passed_through :
  forall (W : Type) (Date_now : W -> Z)
         (fetch : Client.request -> W -> option Client.http_response * W)
         (s s1 : Client.st W) (token : JS.value)
         (answer : option Client.http_response) (w2 : W),
    Client.useMpris (Client.settings s) = false ->
    Client.getValidToken W Date_now fetch s = (token, s1) ->
    JS.truthy token = true ->
    fetch (Client.playing_request token) (Client.world s1) = (answer, w2) ->
    let r := Client.fetchPlayerState W Date_now fetch s in
    fst r =
      match answer with
      | Some resp =>
          if Client.status resp =? 200
          then match Client.json resp with
               | Some data => data
               | None => JS.VNull
               end
          else JS.VNull
      | None => JS.VNull
      end /\
    Client.settings (snd r) = Client.settings s1 /\
    Observe.notices (Client.events (snd r)) = Observe.notices (Client.events s1).
Proof.
  intros W Date_now fetch s s1 token answer w2 Hm Hg Ht Hf r. subst r.
  unfold Client.fetchPlayerState, Client.bind, Client.read. cbn [fst snd].
  rewrite Hm, Hg, Ht. cbn [negb].
  unfold Client.send, Client.emit, Client.ret. rewrite Hf.
  destruct answer as [resp | ].
  - destruct (Z.eqb_spec (Client.status resp) 204) as [E | N].
    + rewrite E. cbn [fst snd Client.settings Client.events].
      rewrite notices_app. cbn. rewrite app_nil_r. repeat split.
    + destruct (Client.status resp =? 200); cbn [negb].
      * destruct (Client.json resp); cbn [fst snd Client.settings Client.events];
          rewrite ?notices_app; cbn; rewrite ?app_nil_r; repeat split.
      * cbn [fst snd Client.settings Client.events].
        rewrite !notices_app. cbn. rewrite !app_nil_r. repeat split.
  - cbn [fst snd Client.settings Client.events].
    rewrite !notices_app. cbn. rewrite !app_nil_r. repeat split.
Qed.

(** A valid token and a service with nothing playing. *)
Lemma remote_state_is_passed_through_witness :
  Observe.notices
    (Client.events
       (snd (Client.fetchPlayerState Z Scenario.Date_now
               (Scenario.fetch Scenario.no_content)
               (Scenario.at_time (Scenario.connected 10000000) 5)))) = [].
Proof.
  exact (proj2 (proj2
    (remote_state_is_passed_through Z Scenario.Date_now
       (Scenario.fetch Scenario.no_content)
       (Scenario.at_time (Scenario.connected 10000000) 5)
       (Scenario.at_time (Scenario.connected 10000000) 5)
       (JS.VStr "stored")
       (Some {| Client.status := 204; Client.json := None |}) 5
       eq_refl eq_refl eq_refl eq_refl))).
Defined.

Lemma obj_get_key (fs : list (string * JS.value)) (k : string) (w : JS.value) :
  JS.obj_get fs k = Some w -> In k (map fst fs).
Proof.
  revert w.
  induction fs as [ | [k' x] r IH]; intros w; cbn [JS.obj_get map fst];
    [discriminate | ].
  destruct (JS.obj_get r k) as [y | ].
  - intros _. right. apply (IH y). reflexivity.
  - destruct (String.eqb_spec k' k) as [E | N]; [ | discriminate].
    intros _. left. exact E.
Qed.

(** Reading a field of an object off the wire: with distinct keys, it is the
    field of the object, sent over the wire. *)
Lemma wire_obj_get (fs gs : list (string * JS.value)) (k : string) :
  NoDup (map fst fs) ->
  JS.json_wire (JS.VObj fs) = JS.VObj gs ->
  JS.obj_get gs k =
    match JS.obj_get fs k with
    | Some JS.VUndefined => None
    | Some x => Some (JS.json_wire x)
    | None => None
    end.
Proof.
  revert gs. induction fs as [ | [k' x] r IH]; intros gs Hnd Hgs.
  - cbn in Hgs. injection Hgs as <-. reflexivity.
  - cbn [map fst] in Hnd. inversion Hnd as [ | ? ? Hnotin Hnd']; subst.
    destruct (JS.json_wire (JS.VObj r)) as [ | | | | | | hs] eqn:Er;
      try (cbn in Er; discriminate Er).
    specialize (IH hs Hnd' eq_refl).
    assert (Hx : gs = match x with
                      | JS.VUndefined => hs
                      | _ => (k', JS.json_wire x) :: hs
                      end).
    { cbn [JS.json_wire] in Hgs, Er. injection Er as Er. injection Hgs as Hgs.
      rewrite <- Hgs, <- Er. destruct x; reflexivity. }
    assert (Hr : forall w, JS.obj_get r k = Some w -> k' <> k).
    { intros w Hw E. apply Hnotin. rewrite E. exact (obj_get_key r k w Hw). }
    cbn [JS.obj_get].
    destruct (JS.obj_get r k) as [w | ] eqn:Ew.
    + assert (N : (k' =? k)%string = false)
        by (apply String.eqb_neq; exact (Hr w eq_refl)).
      rewrite Hx.
      destruct x; cbn [JS.obj_get]; rewrite ?IH, ?N; destruct w; reflexivity.
    + rewrite Hx.
      destruct x; cbn [JS.obj_get]; rewrite ?IH;
        destruct (k' =? k)%string; reflexivity.
Qed.

Lemma wire_prop (fs : list (string * JS.value)) (k : string) :
  NoDup (map fst fs) ->
  JS.get_prop (JS.json_wire (JS.VObj fs)) k =
    Some (JS.json_wire (Mpris.prop (JS.VObj fs) k)).
Proof.
  intros Hnd.
  destruct (JS.json_wire (JS.VObj fs)) as [ | | | | | | gs] eqn:E;
    try (cbn in E; discriminate E).
  unfold Mpris.prop. cbn [JS.get_prop].
  rewrite (wire_obj_get fs gs k Hnd E).
  destruct (JS.obj_get fs k) as [x | ]; [ | reflexivity].
  destruct x; reflexivity.
Qed.

Section LocalFacts.

Import JS.

Variable W : Type.
Variable Date_now : W -> Z.
Variable execAsync : string -> W -> option string * W.

(** The plugin's answer to the status request. *)
Lemma local_status (w : W) :
  Local.fetch execAsync Client.status_request w =
    (Some {| Client.status := 200;
             Client.json :=
               Some (json_wire (fst (Mpris.getPlayerState W execAsync (Mpris.start w)))) |},
     Mpris.world (snd (Mpris.getPlayerState W execAsync (Mpris.start w)))).
Proof.
  unfold Local.fetch.
  change (Local.route_of Client.status_request) with (Some Mpris.GetStatus).
  unfold Mpris.handle, Mpris.bind, Mpris.ret.
  destruct (Mpris.getPlayerState W execAsync (Mpris.start w)) as [state s1].
  reflexivity.
Qed.

(** What the extension makes of the plugin's state: [null] unless the state
    is available, and then an object whose [is_playing] is the plugin's
    [playing]. *)
Lemma local_fetch_result (s : Client.st W) :
  Client.useMpris (Client.settings s) = true ->
  let state := fst (Mpris.getPlayerState W execAsync (Mpris.start (Client.world s))) in
  let r := Local.fetchPlayerState Date_now execAsync s in
  snd r =
    {| Client.settings := Client.settings s;
       Client.world :=
         Mpris.world (snd (Mpris.getPlayerState W execAsync (Mpris.start (Client.world s))));
       Client.events := Client.events s ++ [Client.Sent Client.status_request] |} /\
  (truthy (Mpris.prop state "available") = false -> fst r = VNull) /\
  (truthy (Mpris.prop state "available") = true ->
     truthy (fst r) = true /\
     Client.prop (fst r) "is_playing" = Mpris.prop state "playing" /\
     exists item, Client.prop (fst r) "item" = VObj item /\
                  obj_get item "name" = Some (json_wire (Mpris.prop state "title"))).
Proof.
  intros Hm state r. subst r.
  unfold Local.fetchPlayerState, Client.fetchPlayerState, Client.bind, Client.read.
  cbn [fst snd]. rewrite Hm.
  unfold Client.fetchMprisState, Client.bind, Client.send.
  rewrite local_status. fold state.
  change (Client.ok {| Client.status := 200; Client.json := _ |}) with true.
  cbn [negb Client.json Client.settings Client.world Client.events].
  destruct (getPlayerState_cases W execAsync (Mpris.start (Client.world s)))
    as [[E _] | [(m & E & _) | (pl & sh & t & a & al & au & pr & du & lo & E & Ht & _)]];
    fold state in E; rewrite E.
  - split; [reflexivity | ]. split; [reflexivity | discriminate].
  - split; [reflexivity | ]. split; [reflexivity | discriminate].
  - assert (Hnd : NoDup (map fst
        [("available", VBool true); ("playing", VBool pl); ("title", t);
         ("artist", a); ("album", al); ("artUrl", au);
         ("progress_ms", VNum pr); ("duration_ms", VNum du);
         ("shuffle", VBool sh); ("loop", VStr lo)])).
    { cbn [map fst].
      repeat (constructor; [cbn [In]; intuition discriminate | ]). constructor. }
    pose proof (wire_prop _ "available" Hnd) as Pa.
    pose proof (wire_prop _ "playing" Hnd) as Pp.
    pose proof (wire_prop _ "title" Hnd) as Pt.
    change (Mpris.prop (VObj _) "available") with (VBool true) in Pa.
    change (Mpris.prop (VObj _) "playing") with (VBool pl) in Pp |- *.
    change (Mpris.prop (VObj _) "title") with t in Pt |- *.
    change (Mpris.prop (VObj _) "available") with (VBool true).
    change (json_wire (VBool true)) with (VBool true) in Pa.
    change (json_wire (VBool pl)) with (VBool pl) in Pp.
    set (data := json_wire (VObj _)) in *. clearbody data.
    rewrite Pa. cbn [truthy negb]. unfold Client.ret. cbn [fst snd].
    split; [reflexivity | ]. split; [discriminate | ].
    intros _. split; [reflexivity | ].
    split.
    + change (Client.prop (VObj (("is_playing", ?x) :: _)) "is_playing") with x.
      unfold Client.prop. rewrite Pp. reflexivity.
    + eexists. split; [reflexivity | ].
      cbn [obj_get String.eqb Ascii.eqb Bool.eqb].
      unfold Client.prop. rewrite Pt. reflexivity.
Qed.

End LocalFacts.

(** X13.  In MPRIS mode the extension reports what the plugin found: on
    every machine [fetchPlayerState] returns [null] exactly when the
    plugin's state is not available; otherwise it returns an object whose
    [is_playing] is the plugin's [playing] and whose [item.name] is the
    plugin's [title]. *)
Theorem panel_state_follows_plugin :
  forall (W : Type) (Date_now : W -> Z)
         (execAsync : string -> W -> option string * W) (s : Client.st W),
    Client.useMpris (Client.settings s) = true ->
    let state := fst (Mpris.getPlayerState W execAsync (Mpris.start (Client.world s))) in
    let r := fst (Local.fetchPlayerState Date_now execAsync s) in
    (JS.truthy (Mpris.prop state "available") = false -> r = JS.VNull) /\
    (JS.truthy (Mpris.prop state "available") = true ->
       JS.truthy r = true /\
       Client.prop r "is_playing" = Mpris.prop state "playing" /\
       exists item, Client.prop r "item" = JS.VObj item /\
                    JS.obj_get item "name" =
                      Some (JS.json_wire (Mpris.prop state "title"))).
Proof.
  intros W Date_now execAsync s Hm state r.
  exact (proj2 (local_fetch_result W Date_now execAsync s Hm)).
Qed.

(** A playing track is reported as playing, under its title. *)
Lemma panel_state_follows_plugin_witness :
  Client.prop
    (fst (Local.fetchPlayerState (fun _ => 0) Desktop.execAsync
            (Scenario.on_machine Desktop.song_a))) "is_playing" = JS.VBool true.
Proof.
  exact (proj1 (proj2 (proj2 (panel_state_follows_plugin Desktop.player (fun _ => 0)
                                Desktop.execAsync (Scenario.on_machine Desktop.song_a)
                                eq_refl) eq_refl))).
Defined.


Lemma lookup_commandMap (command : string) :
  (In command ["play"; "pause"; "next"; "previous"] /\
   Controls.lookup command Controls.commandMap = Some command) \/
  (~ In command ["play"; "pause"; "next"; "previous"] /\
   Controls.lookup command Controls.commandMap = None).
Proof.
  unfold Controls.lookup, Controls.commandMap.
  destruct (String.eqb_spec "play" command) as [E | N1];
    [left; subst; split; [simpl; tauto | reflexivity] | ].
  destruct (String.eqb_spec "pause" command) as [E | N2];
    [left; subst; split; [simpl; tauto | reflexivity] | ].
  destruct (String.eqb_spec "next" command) as [E | N3];
    [left; subst; split; [simpl; tauto | reflexivity] | ].
  destruct (String.eqb_spec "previous" command) as [E | N4];
    [left; subst; split; [simpl; tauto | reflexivity] | ].
  right. split; [ | reflexivity].
  simpl. intuition congruence.
Qed.

Section ControlFacts.

Import JS Client.

Variable W : Type.
Variable Date_now : W -> Z.
Variable fetch : request -> W -> option http_response * W.

Lemma controlMpris_run (command : string) (s : st W) :
  let c := match Controls.lookup command Controls.commandMap with
           | Some c => c
           | None => "play-pause"
           end in
  Controls.controlMpris W fetch command s =
    (tt,
     {| settings := settings s;
        world := snd (fetch (Controls.plugin_request c) (world s));
        events :=
          events s ++ Sent (Controls.plugin_request c) ::
          match fst (fetch (Controls.plugin_request c) (world s)) with
          | None => [Console "error" "MPRIS control error:";
                     Controls.plugin_failed_notice]
          | Some resp =>
              if ok resp then [] else [Controls.plugin_missing_notice]
          end |}).
Proof.
  cbv zeta. unfold Controls.controlMpris, bind, send, emit, ret.
  destruct (fetch _ (world s)) as [[resp | ] w']; cbn [fst snd].
  - destruct (ok resp); cbn [negb settings world events].
    + reflexivity.
    + rewrite <- app_assoc. reflexivity.
  - cbn [settings world events]. rewrite <- !app_assoc. reflexivity.
Qed.

End ControlFacts.

(** X14.  A control sent to the remote service is silent only when it is
    answered 204.  A 403 shows the notice about Premium, a 404 the notice
    that no device is active, and every other answer, 200 included, as well
    as a request that fails, shows that the command could not be sent. *)
Theorem remote_control_is_silent_only_on_204 :
  forall (W : Type) (Date_now : W -> Z)
         (fetch : Client.request -> W -> option Client.http_response * W)
         (s s1 : Client.st W) (token : JS.value) (command method : string)
         (answer : option Client.http_response) (w2 : W),
    Client.useMpris (Client.settings s) = false ->
    Client.getValidToken W Date_now fetch s = (token, s1) ->
    JS.truthy token = true ->
    fetch (Controls.player_request command method token) (Client.world s1) = (answer, w2) ->
    let s' := snd (Controls.controlPlayer W Date_now fetch command method s) in
    let shown (l : list Client.event) :=
      Observe.notices (Client.events s') = Observe.notices (Client.events s1) ++ l in
    Observe.requests (Client.events s') =
      Observe.requests (Client.events s1) ++
      [Controls.player_request command method token] /\
    match answer with
    | None => shown [Controls.failed_notice]
    | Some resp =>
        (Client.status resp = 204 -> shown []) /\
        (Client.status resp = 403 -> shown [Controls.premium_notice]) /\
        (Client.status resp = 404 -> shown [Controls.no_device_notice]) /\
        (Client.status resp <> 204 -> Client.status resp <> 403 ->
         Client.status resp <> 404 -> shown [Controls.failed_notice])
    end.
Proof.
  intros W Date_now fetch s s1 token command method answer w2 Hm Hg Ht Hf s' shown.
  subst shown s'.
  unfold Controls.controlPlayer, Client.bind, Client.read. cbn [fst snd].
  rewrite Hm, Hg, Ht. cbn [negb].
  unfold Client.send, Client.emit, Client.ret. rewrite Hf.
  destruct answer as [resp | ].
  - destruct (Z.eqb_spec (Client.status resp) 403) as [E3 | N3];
      [ | destruct (Z.eqb_spec (Client.status resp) 404) as [E4 | N4];
          [ | destruct (Z.eqb_spec (Client.status resp) 204) as [E2 | N2] ] ];
      cbn [negb snd Client.settings Client.events];
      rewrite ?requests_app, ?notices_app; cbn; rewrite ?app_nil_r;
      (split; [reflexivity | ]);
      repeat split; intros; try reflexivity; try lia; try contradiction.
  - cbn [snd Client.settings Client.events].
    rewrite !requests_app, !notices_app. cbn. rewrite ?app_nil_r.
    split; reflexivity.
Qed.

(** X15.  In MPRIS mode a control goes to one of five plugin routes and to
    no other: play, pause, next and previous to the route of their name,
    and every other command (the names inherited from [Object.prototype]
    apart) to play-pause.  The method asked for is not used; the request
    is always a POST. *)
Theorem mpris_control_uses_five_routes :
  forall (W : Type) (Date_now : W -> Z)
         (fetch : Client.request -> W -> option Client.http_response * W)
         (s : Client.st W) (command method : string),
    Client.useMpris (Client.settings s) = true ->
    ~ In command Controls.inherited ->
    exists c,
      In c ["play"; "pause"; "next"; "previous"; "play-pause"] /\
      (In command ["play"; "pause"; "next"; "previous"] -> c = command) /\
      (~ In command ["play"; "pause"; "next"; "previous"] -> c = "play-pause") /\
      Observe.requests
        (Client.events (snd (Controls.controlPlayer W Date_now fetch command method s))) =
        Observe.requests (Client.events s) ++
        [{| Client.url := ("/api/plugins/mpris/" ++ c)%string;
            Client.method := "POST"; Client.bearer := None; Client.form := [] |}].
Proof.
  intros W Date_now fetch s command method Hm _.
  assert (R : forall c,
             Controls.lookup command Controls.commandMap = c ->
             Observe.requests
               (Client.events (snd (Controls.controlPlayer W Date_now fetch command method s))) =
             Observe.requests (Client.events s) ++
             [Controls.plugin_request
                (match c with Some x => x | None => "play-pause" end)]).
  { intros c Hc.
    unfold Controls.controlPlayer, Client.bind, Client.read. cbn [fst snd].
    rewrite Hm, controlMpris_run, Hc. cbn [snd Client.events].
    rewrite requests_app. cbn [Observe.requests]. f_equal. f_equal.
    destruct (fst (fetch _ (Client.world s))) as [resp | ];
      [destruct (Client.ok resp) | ]; reflexivity. }
  destruct (lookup_commandMap command) as [[Hin Hl] | [Hnot Hl]].
  - exists command. split; [simpl in *; tauto | ].
    split; [reflexivity | ]. split; [contradiction | ].
    exact (R _ Hl).
  - exists "play-pause". split; [simpl; tauto | ].
    split; [contradiction | ]. split; [reflexivity | ].
    exact (R _ Hl).
Qed.

(** A click on Next with the default settings. *)
Lemma mpris_control_uses_five_routes_witness :
  exists c,
    In c ["play"; "pause"; "next"; "previous"; "play-pause"] /\
    (In "next" ["play"; "pause"; "next"; "previous"] -> c = "next") /\
    (~ In "next" ["play"; "pause"; "next"; "previous"] -> c = "play-pause") /\
    Observe.requests
      (Client.events
         (snd (Controls.controlPlayer Desktop.player (fun _ => 0)
                 (Local.fetch Desktop.execAsync) "next" "POST"
                 (Scenario.on_machine Desktop.song_a)))) =
      Observe.requests (Client.events (Scenario.on_machine Desktop.song_a)) ++
      [{| Client.url := ("/api/plugins/mpris/" ++ c)%string;
          Client.method := "POST"; Client.bearer := None; Client.form := [] |}].
Proof.
  refine (mpris_control_uses_five_routes Desktop.player (fun _ => 0)
            (Local.fetch Desktop.execAsync) (Scenario.on_machine Desktop.song_a)
            "next" "POST" eq_refl _).
  cbn [In Controls.inherited]. intuition discriminate.
Defined.

(** Answered 200 by the remote service: the command is reported as failed. *)
Lemma remote_control_is_silent_only_on_204_witness :
  Observe.notices
    (Client.events
       (snd (Controls.controlPlayer Z Scenario.Date_now
               (Scenario.fetch
                  (fun _ => Some {| Client.status := 200; Client.json := None |}))
               "next" "POST"
               (Scenario.at_time (Scenario.connected 10000000) 5)))) =
  [Controls.failed_notice].
Proof.
  refine (proj2 (proj2 (proj2 (proj2
    (remote_control_is_silent_only_on_204 Z Scenario.Date_now
       (Scenario.fetch
          (fun _ => Some {| Client.status := 200; Client.json := None |}))
       (Scenario.at_time (Scenario.connected 10000000) 5)
       (Scenario.at_time (Scenario.connected 10000000) 5)
       (JS.VStr "stored") "next" "POST"
       (Some {| Client.status := 200; Client.json := None |}) 5
       eq_refl eq_refl eq_refl eq_refl)))) _ _ _);
    vm_compute; discriminate.
Defined.

Section LocalControlFacts.

Import JS.

Variable W : Type.
Variable Date_now : W -> Z.
Variable execAsync : string -> W -> option string * W.

(** The plugin answers each of the five control routes with 200. *)
Lemma local_control (c : string) (w : W) :
  In c ["play"; "pause"; "next"; "previous"; "play-pause"] ->
  exists resp,
    fst (Local.fetch execAsync (Controls.plugin_request c) w) = Some resp /\
    Client.ok resp = true.
Proof.
  intros H. cbn [In] in H.
  destruct H as [<- | [<- | [<- | [<- | [<- | []]]]]]; unfold Local.fetch.
  - change (Local.route_of (Controls.plugin_request "play")) with (Some Mpris.PostPlay).
    unfold Mpris.handle. rewrite fire_and_forget. eexists. split; reflexivity.
  - change (Local.route_of (Controls.plugin_request "pause")) with (Some Mpris.PostPause).
    unfold Mpris.handle. rewrite fire_and_forget. eexists. split; reflexivity.
  - change (Local.route_of (Controls.plugin_request "next")) with (Some Mpris.PostNext).
    unfold Mpris.handle. rewrite fire_and_forget. eexists. split; reflexivity.
  - change (Local.route_of (Controls.plugin_request "previous"))
      with (Some Mpris.PostPrevious).
    unfold Mpris.handle. rewrite fire_and_forget. eexists. split; reflexivity.
  - change (Local.route_of (Controls.plugin_request "play-pause"))
      with (Some Mpris.PostPlayPause).
    unfold Mpris.handle. rewrite fire_and_forget. eexists. split; reflexivity.
Qed.

(** A control served by the plugin: one request, no notice. *)
Lemma local_controlPlayer (command method : string) (s : Client.st W) :
  Client.useMpris (Client.settings s) = true ->
  let c := match Controls.lookup command Controls.commandMap with
           | Some c => c
           | None => "play-pause"
           end in
  let s' := snd (Controls.controlPlayer W Date_now (Local.fetch execAsync)
                   command method s) in
  Client.events s' = Client.events s ++ [Client.Sent (Controls.plugin_request c)] /\
  Client.settings s' = Client.settings s.
Proof.
  intros Hm c s'. subst s'.
  unfold Controls.controlPlayer, Client.bind, Client.read. cbn [fst snd].
  rewrite Hm, controlMpris_run. fold c. cbn [snd Client.events Client.settings].
  assert (Hc : In c ["play"; "pause"; "next"; "previous"; "play-pause"]).
  { subst c. destruct (lookup_commandMap command) as [[Hin Hl] | [_ Hl]];
      rewrite Hl; simpl in *; tauto. }
  destruct (local_control c (Client.world s) Hc) as (resp & E & Hok).
  rewrite E, Hok. split; reflexivity.
Qed.

End LocalControlFacts.

(** X16.  Served by the plugin, a control never shows a notice: on every
    machine, with or without a player, for every command (the names
    inherited from [Object.prototype] apart), [controlPlayer] sends its one request and the user sees nothing, since the plugin
    answers 200 whatever became of the command. *)
Theorem plugin_controls_never_complain :
  forall (W : Type) (Date_now : W -> Z)
         (execAsync : string -> W -> option string * W)
         (s : Client.st W) (command method : string),
    Client.useMpris (Client.settings s) = true ->
    ~ In command Controls.inherited ->
    let s' := snd (Controls.controlPlayer W Date_now (Local.fetch execAsync)
                     command method s) in
    Observe.notices (Client.events s') = Observe.notices (Client.events s) /\
    List.length (Observe.requests (Client.events s')) =
      S (List.length (Observe.requests (Client.events s))) /\
    Client.settings s' = Client.settings s.
Proof.
  intros W Date_now execAsync s command method Hm _ s'. subst s'.
  destruct (local_controlPlayer W Date_now execAsync command method s Hm) as [E S].
  rewrite E, notices_app, requests_app, length_app. cbn.
  rewrite app_nil_r. split; [reflexivity | ]. split; [lia | exact S].
Qed.

(** A click on Next with no player running. *)
Lemma plugin_controls_never_complain_witness :
  Observe.notices
    (Client.events
       (snd (Controls.controlPlayer Desktop.player (fun _ => 0)
               (Local.fetch Desktop.execAsync) "next" "POST"
               (Scenario.on_machine Desktop.nothing)))) = [].
Proof.
  refine (proj1 (plugin_controls_never_complain Desktop.player (fun _ => 0)
                   Desktop.execAsync (Scenario.on_machine Desktop.nothing)
                   "next" "POST" eq_refl _)).
  cbn [In Controls.inherited]. intuition discriminate.
Defined.

(** X17.  The play/pause button, in MPRIS mode: on every machine the click
    first asks the plugin for its state and then sends pause when that
    state is available and playing, and play in every other case (also when
    no player runs); it shows no notice. *)
Theorem play_pause_click_follows_plugin_state :
  forall (W : Type) (Date_now : W -> Z)
         (execAsync : string -> W -> option string * W) (s : Client.st W),
    Client.useMpris (Client.settings s) = true ->
    let state := fst (Mpris.getPlayerState W execAsync (Mpris.start (Client.world s))) in
    let s' := snd (Controls.playPauseClick W Date_now (Local.fetch execAsync) s) in
    Client.events s' =
      Client.events s ++
      [Client.Sent Client.status_request;
       Client.Sent
         (Controls.plugin_request
            (if JS.truthy (Mpris.prop state "available") &&
                JS.truthy (Mpris.prop state "playing")
             then "pause" else "play"))].
Proof.
  intros W Date_now execAsync s Hm state s'. subst s'.
  unfold Controls.playPauseClick, Client.bind.
  pose proof (local_fetch_result W Date_now execAsync s Hm) as (S1 & Hnull & Hobj).
  fold state in S1, Hnull, Hobj.
  change (Client.fetchPlayerState W Date_now (Local.fetch execAsync) s)
    with (Local.fetchPlayerState Date_now execAsync s).
  destruct (Local.fetchPlayerState Date_now execAsync s) as [r s1].
  cbn [fst snd] in *.
  assert (Hm1 : Client.useMpris (Client.settings s1) = true)
    by (rewrite S1; exact Hm).
  assert (Ev : Client.events s1 = Client.events s ++ [Client.Sent Client.status_request])
    by (rewrite S1; reflexivity).
  destruct (JS.truthy (Mpris.prop state "available")) eqn:Av.
  - destruct (Hobj eq_refl) as (Tr & Pl & _). rewrite Tr, Pl. cbn [andb].
    destruct (JS.truthy (Mpris.prop state "playing")).
    + destruct (local_controlPlayer W Date_now execAsync "pause" "PUT" s1 Hm1) as [E _].
      rewrite E, Ev, <- app_assoc. reflexivity.
    + destruct (local_controlPlayer W Date_now execAsync "play" "PUT" s1 Hm1) as [E _].
      rewrite E, Ev, <- app_assoc. reflexivity.
  - rewrite (Hnull eq_refl). cbn [JS.truthy andb].
    destruct (local_controlPlayer W Date_now execAsync "play" "PUT" s1 Hm1) as [E _].
    rewrite E, Ev, <- app_assoc. reflexivity.
Qed.

(** A click while Song A plays. *)
Lemma play_pause_click_follows_plugin_state_witness :
  Client.events
    (snd (Controls.playPauseClick Desktop.player (fun _ => 0)
            (Local.fetch Desktop.execAsync) (Scenario.on_machine Desktop.song_a))) =
  [Client.Sent Client.status_request;
   Client.Sent (Controls.plugin_request "pause")].
Proof.
  exact (play_pause_click_follows_plugin_state Desktop.player (fun _ => 0)
           Desktop.execAsync (Scenario.on_machine Desktop.song_a) eq_refl).
Defined.

(* ================================================================= *)
(** ** Connecting, disconnecting, switching *)

Lemma restart_has_one_timer (p : Scheduler.page) :
  Scheduler.tidy p ->
  List.length (Scheduler.timers (Scheduler.startPolling (Scheduler.stopPolling p))) = 1%nat /\
  Scheduler.timers (Scheduler.stopPolling p) = [].
Proof.
  intros T.
  pose proof (stopPolling_tidy p T) as T'.
  destruct (clear_if_set_tidy _ T') as (Ht & _).
  destruct (clear_if_set_tidy _ T) as (Ht0 & _).
  split.
  - unfold Scheduler.startPolling at 1, Scheduler.setInterval.
    cbn [Scheduler.timers]. rewrite Ht. reflexivity.
  - unfold Scheduler.stopPolling. cbn [Scheduler.timers]. exact Ht0.
Qed.


(** X19.  Switching the backend restarts polling cleanly.  Whatever the
    timers were, after the switch exactly one polling timer is live when
    the panel is enabled and none when it is not; the switch changes
    [useMpris] only, leaving the tokens as they were, and saves once. *)
Theorem backend_switch_restarts_polling :
  forall (W : Type) (s : Client.st W) (ops : list Scheduler.op) (checked : bool),
    let b := Session.onUseMprisChanged W checked
               {| Session.app := s; Session.page := Scheduler.run ops |} in
    List.length (Scheduler.timers (Session.page b)) =
      (if Client.enablePanel (Client.settings s) then 1 else 0)%nat /\
    Client.useMpris (Client.settings (Session.app b)) = checked /\
    Client.accessToken (Client.settings (Session.app b)) =
      Client.accessToken (Client.settings s) /\
    Client.refreshToken (Client.settings (Session.app b)) =
      Client.refreshToken (Client.settings s) /\
    Client.tokenExpiry (Client.settings (Session.app b)) =
      Client.tokenExpiry (Client.settings s) /\
    Client.events (Session.app b) = Client.events s ++ [Client.Saved].
Proof.
  intros W s ops checked b.
  destruct (restart_has_one_timer _ (run_tidy ops)) as [H1 H0].
  split.
  - subst b. unfold Session.onUseMprisChanged. cbn [Session.page Session.app].
    destruct (Client.enablePanel (Client.settings s)); [exact H1 | ].
    rewrite H0. reflexivity.
  - repeat split; reflexivity.
Qed.

Section ExchangeFacts.

Import JS Client.

Variable W : Type.
Variable Date_now : W -> Z.
Variable fetch : request -> W -> option http_response * W.

Lemma exchange_granted (s : st W) (code codeVerifier : value) (redirectUri : string)
    (resp : http_response) (data token : value) (w' : W) :
  fetch (Session.exchange_request (settings s) code codeVerifier redirectUri) (world s)
    = (Some resp, w') ->
  json resp = Some data ->
  get_prop data "access_token" = Some token ->
  truthy token = true ->
  Session.exchange W Date_now fetch code codeVerifier redirectUri s =
    (true,
     {| settings :=
          {| clientId := clientId (settings s);
             accessToken := token;
             refreshToken := prop data "refresh_token";
             tokenExpiry :=
               num_add (num_of_Z (Date_now w'))
                 (num_mul (to_number (prop data "expires_in")) (num_of_Z 1000));
             enablePanel := enablePanel (settings s);
             useMpris := useMpris (settings s) |};
        world := w';
        events := events s ++
                  [Sent (Session.exchange_request (settings s) code codeVerifier redirectUri);
                   Saved; Session.connected_notice] |}).
Proof.
  intros Hf Hj Ha Ht.
  unfold Session.exchange, saveSettings, bind, read, send, emit, write, now, ret.
  cbn [fst snd]. rewrite Hf. cbn [settings world events]. rewrite Hj, Ha, Ht.
  cbn [settings world events]. rewrite <- !app_assoc. reflexivity.
Qed.

Lemma exchange_refused (s : st W) (code codeVerifier : value) (redirectUri : string)
    (resp : http_response) (data token : value) (w' : W) :
  fetch (Session.exchange_request (settings s) code codeVerifier redirectUri) (world s)
    = (Some resp, w') ->
  json resp = Some data ->
  get_prop data "access_token" = Some token ->
  truthy token = false ->
  Session.exchange W Date_now fetch code codeVerifier redirectUri s =
    (false,
     {| settings := settings s;
        world := w';
        events := events s ++
                  [Sent (Session.exchange_request (settings s) code codeVerifier redirectUri);
                   Console "error" "Spotify Auth Error:";
                   Session.auth_failed_notice] |}).
Proof.
  intros Hf Hj Ha Ht.
  unfold Session.exchange, saveSettings, bind, read, send, emit, write, now, ret.
  cbn [fst snd]. rewrite Hf. cbn [settings world events]. rewrite Hj, Ha, Ht.
  cbn [settings world events]. rewrite <- !app_assoc. reflexivity.
Qed.

End ExchangeFacts.

(** X20.  Exchanging an authorization code.  When the token endpoint
    answers without a usable access token, the settings and the timers
    stay as they were and one notice says that the authentication failed.
    When it grants a token, the token is stored with whatever refresh token
    the answer carries, the settings are saved, one notice says that the
    extension is connected, and polling starts with exactly one timer. *)
Theorem exchange_connects_or_leaves_everything :
  forall (W : Type) (Date_now : W -> Z)
         (fetch : Client.request -> W -> option Client.http_response * W)
         (s : Client.st W) (ops : list Scheduler.op)
         (code codeVerifier : JS.value) (redirectUri : string)
         (resp : Client.http_response) (data token : JS.value) (w' : W),
    let request :=
      Session.exchange_request (Client.settings s) code codeVerifier redirectUri in
    fetch request (Client.world s) = (Some resp, w') ->
    Client.json resp = Some data ->
    JS.get_prop data "access_token" = Some token ->
    let before := {| Session.app := s; Session.page := Scheduler.run ops |} in
    let b := Session.exchangeCodeForToken W Date_now fetch code codeVerifier
               redirectUri before in
    (JS.truthy token = false ->
       Client.settings (Session.app b) = Client.settings s /\
       Session.page b = Scheduler.run ops /\
       Observe.notices (Client.events (Session.app b)) =
         Observe.notices (Client.events s) ++ [Session.auth_failed_notice]) /\
    (JS.truthy token = true ->
       Client.accessToken (Client.settings (Session.app b)) = token /\
       Client.refreshToken (Client.settings (Session.app b)) =
         Client.prop data "refresh_token" /\
       Client.events (Session.app b) =
         Client.events s ++
         [Client.Sent request; Client.Saved; Session.connected_notice] /\
       List.length (Scheduler.timers (Session.page b)) = 1%nat).
Proof.
  intros W Date_now fetch s ops code codeVerifier redirectUri resp data token w'
         request Hf Hj Ha before b.
  subst b before request. unfold Session.exchangeCodeForToken. cbn [Session.app Session.page].
  split; intros Ht.
  - rewrite (exchange_refused W Date_now fetch s code codeVerifier redirectUri
               resp data token w' Hf Hj Ha Ht).
    cbn [Session.app Session.page Client.settings Client.events].
    rewrite notices_app. cbn. repeat split.
  - rewrite (exchange_granted W Date_now fetch s code codeVerifier redirectUri
               resp data token w' Hf Hj Ha Ht).
    cbn [Session.app Session.page Client.settings Client.events
         Client.accessToken Client.refreshToken].
    repeat (split; [reflexivity | ]).
    destruct (clear_if_set_tidy _ (run_tidy ops)) as (H0 & _).
    unfold Scheduler.startPolling, Scheduler.setInterval. cbn [Scheduler.timers].
    rewrite H0. reflexivity.
Qed.

(** A code that the token endpoint refuses. *)
Lemma exchange_connects_or_leaves_everything_witness :
  Observe.notices
    (Client.events
       (Session.app
          (Session.exchangeCodeForToken Z Scenario.Date_now
             (Scenario.fetch Scenario.rejecting)
             (JS.VStr "code") (JS.VStr "verifier") "http://localhost:8000/"
             {| Session.app := Scenario.at_time (Scenario.connected 0) 5;
                Session.page := Scheduler.run [] |}))) =
  [Session.auth_failed_notice].
Proof.
  exact (proj2 (proj2 (proj1
    (exchange_connects_or_leaves_everything Z Scenario.Date_now
       (Scenario.fetch Scenario.rejecting)
       (Scenario.at_time (Scenario.connected 0) 5) []
       (JS.VStr "code") (JS.VStr "verifier") "http://localhost:8000/"
       {| Client.status := 400;
          Client.json := Some (JS.VObj [("error", JS.VStr "invalid_grant")]) |}
       (JS.VObj [("error", JS.VStr "invalid_grant")]) JS.VUndefined 5
       eq_refl eq_refl eq_refl) eq_refl))).
Defined.

(** X21.  A grant that carries no refresh token cannot be renewed.  After
    such an exchange the accessor keeps returning the token while the clock
    is at or before the expiry less 60000 ms; past that it returns [null]
    without a request and without a notice. *)
Theorem grant_without_refresh_token_expires_silently :
  forall (W : Type) (Date_now : W -> Z)
         (fetch : Client.request -> W -> option Client.http_response * W)
         (s : Client.st W) (page : Scheduler.page)
         (code codeVerifier : JS.value) (redirectUri : string)
         (resp : Client.http_response) (data token : JS.value) (e : Z) (w' : W),
    fetch (Session.exchange_request (Client.settings s) code codeVerifier redirectUri)
      (Client.world s) = (Some resp, w') ->
    Client.json resp = Some data ->
    JS.get_prop data "access_token" = Some token ->
    JS.truthy token = true ->
    JS.truthy (Client.prop data "refresh_token") = false ->
    Client.prop data "expires_in" = JS.VNum (JS.num_of_Z e) ->
    let b := Session.exchangeCodeForToken W Date_now fetch code codeVerifier
               redirectUri {| Session.app := s; Session.page := page |} in
    forall s2 : Client.st W,
      Client.settings s2 = Client.settings (Session.app b) ->
      (Date_now (Client.world s2) <= Date_now w' + e * 1000 - 60000 ->
         Client.getValidToken W Date_now fetch s2 = (token, s2)) /\
      (Date_now w' + e * 1000 - 60000 < Date_now (Client.world s2) ->
         Client.getValidToken W Date_now fetch s2 = (JS.VNull, s2)).
Proof.
  intros W Date_now fetch s page code codeVerifier redirectUri resp data token e w'
         Hf Hj Ha Ht Hr He b s2 Hs2.
  subst b. unfold Session.exchangeCodeForToken in Hs2. cbn [Session.app] in Hs2.
  rewrite (exchange_granted W Date_now fetch s code codeVerifier redirectUri
             resp data token w' Hf Hj Ha Ht) in Hs2.
  cbn [Session.app Client.settings] in Hs2.
  rewrite He in Hs2. cbn [JS.to_number] in Hs2. rewrite num_mul_Z, num_add_Z in Hs2.
  split; intros Hc; rewrite getValidToken_run, Hs2;
    cbn [Client.accessToken Client.tokenExpiry]; rewrite Ht, num_gt_skew; cbn [negb].
  - replace (Date_now w' + e * 1000 - 60000 <? Date_now (Client.world s2)) with false
      by (symmetry; apply Z.ltb_ge; exact Hc).
    reflexivity.
  - replace (Date_now w' + e * 1000 - 60000 <? Date_now (Client.world s2)) with true
      by (symmetry; apply Z.ltb_lt; exact Hc).
    assert (R : Client.refreshAccessToken W Date_now fetch s2 = (false, s2)).
    { unfold Client.refreshAccessToken, Client.bind, Client.read. cbn [fst snd].
      rewrite Hs2. cbn [Client.refreshToken]. rewrite Hr. reflexivity. }
    rewrite R. reflexivity.
Qed.

(** A grant of an hour without a refresh token, read two hours later. *)
Lemma grant_without_refresh_token_expires_silently_witness :
  Client.getValidToken Z Scenario.Date_now (Scenario.fetch Scenario.granting)
    (Scenario.at_time
       {| Client.clientId := JS.VStr "client"; Client.accessToken := JS.VStr "fresh";
          Client.refreshToken := JS.VUndefined;
          Client.tokenExpiry := JS.num_of_Z 3600005;
          Client.enablePanel := true; Client.useMpris := false |} 7200000) =
  (JS.VNull,
   Scenario.at_time
       {| Client.clientId := JS.VStr "client"; Client.accessToken := JS.VStr "fresh";
          Client.refreshToken := JS.VUndefined;
          Client.tokenExpiry := JS.num_of_Z 3600005;
          Client.enablePanel := true; Client.useMpris := false |} 7200000).
Proof.
  refine (proj2 (grant_without_refresh_token_expires_silently Z Scenario.Date_now
            (Scenario.fetch Scenario.granting)
            (Scenario.at_time (Scenario.connected 0) 5) Scheduler.initial
            (JS.VStr "code") (JS.VStr "verifier") "http://localhost:8000/"
            {| Client.status := 200;
               Client.json := Some (JS.VObj [("access_token", JS.VStr "fresh");
                                             ("expires_in", JS.VNum (JS.Fin 3600))]) |}
            (JS.VObj [("access_token", JS.VStr "fresh");
                      ("expires_in", JS.VNum (JS.Fin 3600))])
            (JS.VStr "fresh") 3600 5
            eq_refl eq_refl eq_refl eq_refl eq_refl eq_refl
            (Scenario.at_time
               {| Client.clientId := JS.VStr "client"; Client.accessToken := JS.VStr "fresh";
                  Client.refreshToken := JS.VUndefined;
                  Client.tokenExpiry := JS.num_of_Z 3600005;
                  Client.enablePanel := true; Client.useMpris := false |} 7200000)
            eq_refl) _).
  vm_compute. reflexivity.
Defined.

(* ================================================================= *)
(** ** The menu button *)

Lemma tick_cleared (documents : list (string -> bool)) (r : MenuButton.retry) :
  MenuButton.live r = false -> fold_left MenuButton.tick documents r = r.
Proof.
  intros H. induction documents as [ | m rest IH]; [reflexivity | ].
  cbn [fold_left]. unfold MenuButton.tick at 2. rewrite H. exact IH.
Qed.

(** The loop from a state in which it is live, has found no container and
    has fired [attempts r] times, at most ten. *)
Lemma retry_from (documents : list (string -> bool)) (r : MenuButton.retry) :
  MenuButton.live r = true ->
  MenuButton.button r = None ->
  MenuButton.retryCount r = Z.of_nat (MenuButton.attempts r) ->
  MenuButton.warned r = false ->
  (MenuButton.attempts r <= 10)%nat ->
  let left := (11 - MenuButton.attempts r)%nat in
  let found := MenuButton.first_container (firstn left documents) in
  let r' := fold_left MenuButton.tick documents r in
  MenuButton.button r' = found /\
  (MenuButton.attempts r' <= 11)%nat /\
  MenuButton.live r' =
    match found with
    | Some _ => false
    | None => (List.length documents <? left)%nat
    end /\
  MenuButton.warned r' =
    match found with
    | Some _ => false
    | None => (left <=? List.length documents)%nat
    end.
Proof.
  revert r. induction documents as [ | m rest IH];
    intros r Hl Hb Hc Hw Ha left found r'.
  - subst r' found. cbn [fold_left firstn]. rewrite firstn_nil.
    cbn [MenuButton.first_container List.length].
    split; [exact Hb | ]. split; [lia | ].
    split.
    + rewrite Hl. symmetry. apply Nat.ltb_lt. subst left. lia.
    + rewrite Hw. symmetry. apply Nat.leb_gt. subst left. lia.
  - assert (L : left = S (10 - MenuButton.attempts r)) by (subst left; lia).
    subst r' found. rewrite L. cbn [fold_left firstn MenuButton.first_container].
    unfold MenuButton.tick at 2 4 6 8. rewrite Hl, Hb. cbn [negb].
    unfold MenuButton.addExtensionsMenuButton.
    destruct (find m MenuButton.selectors) as [c | ] eqn:F.
    + rewrite tick_cleared by reflexivity.
      cbn [MenuButton.button MenuButton.attempts MenuButton.live MenuButton.warned].
      split; [reflexivity | ]. split; [lia | ]. split; [reflexivity | exact Hw].
    + rewrite Hc.
      destruct (Z.gtb_spec (Z.of_nat (MenuButton.attempts r) + 1) 10) as [G | G].
      * rewrite tick_cleared by reflexivity.
        cbn [MenuButton.button MenuButton.attempts MenuButton.live MenuButton.warned].
        assert (E : MenuButton.attempts r = 10%nat) by lia.
        rewrite E. cbn [Nat.sub firstn MenuButton.first_container List.length].
        split; [reflexivity | ]. split; [lia | ]. split; reflexivity.
      * set (r1 := {| MenuButton.button := None;
                      MenuButton.retryCount := Z.of_nat (MenuButton.attempts r) + 1;
                      MenuButton.live := true;
                      MenuButton.warned := MenuButton.warned r;
                      MenuButton.attempts := S (MenuButton.attempts r) |}).
        specialize (IH r1 eq_refl eq_refl).
        cbn [MenuButton.retryCount MenuButton.attempts MenuButton.warned r1] in IH.
        specialize (IH ltac:(lia) Hw ltac:(lia)).
        cbv zeta in IH.
        replace (11 - S (MenuButton.attempts r))%nat
          with (10 - MenuButton.attempts r)%nat in IH by lia.
        destruct IH as (I1 & I2 & I3 & I4).
        split; [exact I1 | ]. split; [exact I2 | ].
        split; [rewrite I3 | rewrite I4];
          destruct (MenuButton.first_container
                      (firstn (10 - MenuButton.attempts r) rest));
          reflexivity.
Qed.

(** X22.  The loop that adds the menu button gives up: whatever the
    document looks like at each firing, [addExtensionsMenuButton] is tried
    at most eleven times, after eleven firings the interval is cleared, and
    once it is cleared later firings change nothing. *)
Theorem menu_retry_stops_after_eleven :
  forall documents : list (string -> bool),
    (MenuButton.attempts (MenuButton.run documents) <= 11)%nat /\
    ((11 <= List.length documents)%nat ->
       MenuButton.live (MenuButton.run documents) = false) /\
    (forall more,
       MenuButton.live (MenuButton.run documents) = false ->
       MenuButton.run (documents ++ more) = MenuButton.run documents).
Proof.
  intros documents.
  destruct (retry_from documents MenuButton.initial eq_refl eq_refl eq_refl eq_refl
              ltac:(cbn; lia)) as (_ & A & L & _).
  cbn [MenuButton.attempts MenuButton.initial Nat.sub] in L.
  fold (MenuButton.run documents) in A, L.
  split; [exact A | ]. split.
  - intros H. rewrite L.
    destruct (MenuButton.first_container (firstn 11 documents)); [reflexivity | ].
    apply Nat.ltb_ge. exact H.
  - intros more H. unfold MenuButton.run. rewrite fold_left_app.
    apply tick_cleared. exact H.
Qed.

(** Eleven firings in a document without a menu. *)
Lemma menu_retry_stops_after_eleven_witness :
  MenuButton.live (MenuButton.run (repeat (fun _ => false) 11)) = false.
Proof.
  exact (proj1 (proj2 (menu_retry_stops_after_eleven (repeat (fun _ => false) 11)))
           ltac:(cbn; lia)).
Defined.

(** X23.  The button lands in the first container found: it is appended to
    the first selector of the list that matches, in the first document
    among the first eleven in which one matches, and stays there.  The
    warning is written exactly when eleven firings found no container. *)
Theorem menu_button_lands_in_first_container :
  forall documents : list (string -> bool),
    let found := MenuButton.first_container (firstn 11 documents) in
    MenuButton.button (MenuButton.run documents) = found /\
    (MenuButton.warned (MenuButton.run documents) = true <->
       found = None /\ (11 <= List.length documents)%nat).
Proof.
  intros documents found.
  destruct (retry_from documents MenuButton.initial eq_refl eq_refl eq_refl eq_refl
              ltac:(cbn; lia)) as (B & _ & _ & Wn).
  cbn [MenuButton.attempts MenuButton.initial Nat.sub] in B, Wn.
  fold (MenuButton.run documents) in B, Wn. fold found in B, Wn.
  split; [exact B | ]. rewrite Wn.
  destruct found as [c | ].
  - split; [discriminate | intros [H _]; discriminate H].
  - rewrite Nat.leb_le. tauto.
Qed.

(* ================================================================= *)
(** ** PKCE *)

Lemma length_append (a b : string) :
  String.length (a ++ b) = (String.length a + String.length b)%nat.
Proof. induction a as [ | c a IH]; cbn; [reflexivity | rewrite IH; reflexivity]. Qed.

Lemma all_chars_append (p : ascii -> bool) (a b : string) :
  Pkce.all_chars p (a ++ b) = Pkce.all_chars p a && Pkce.all_chars p b.
Proof.
  induction a as [ | c a IH]; cbn; [reflexivity | ].
  rewrite IH. apply andb_assoc.
Qed.

Lemma possible_at (n : nat) :
  (n < 62)%nat ->
  exists c, String.get n Pkce.possible = Some c /\ Pkce.from_possible c = true.
Proof.
  intros H.
  do 62 (destruct n as [ | n]; [eexists; split; reflexivity | ]).
  lia.
Qed.

(** One draw picks one character of [possible]. *)
Lemma draw_picks_a_character (q : Q) :
  (0 <= q)%Q -> (q < 1)%Q ->
  exists c,
    Builtin.charAt Pkce.possible
      (JS.Math_floor
         (JS.num_mul (JS.Fin q)
            (JS.num_of_Z (Z.of_nat (String.length Pkce.possible))))) =
      String c EmptyString /\
    Pkce.from_possible c = true.
Proof.
  intros H0 H1.
  change (Z.of_nat (String.length Pkce.possible)) with 62.
  unfold JS.num_mul, JS.num_of_Z, JS.Math_floor.
  set (z := Qfloor (Qred (q * inject_Z 62))).
  assert (Hz : 0 <= z < 62).
  { subst z. rewrite (Qfloor_comp _ _ (Qred_correct _)). split.
    - rewrite <- (Qfloor_Z 0).
      apply Qfloor_resp_le. change (inject_Z 0) with 0%Q.
      apply Qmult_le_0_compat; [exact H0 | discriminate].
    - assert (Hlt : (q * inject_Z 62 < inject_Z 62)%Q).
      { rewrite <- (Qmult_1_l (inject_Z 62)) at 2.
        apply Qmult_lt_compat_r; [reflexivity | exact H1]. }
      pose proof (Qfloor_le (q * inject_Z 62)) as Hf.
      pose proof (Qle_lt_trans _ _ _ Hf Hlt) as Hzl.
      rewrite <- Zlt_Qlt in Hzl. exact Hzl. }
  unfold Builtin.charAt, Builtin.Qtrunc.
  assert (N : JS.Qneg_b (inject_Z z) = false).
  { unfold JS.Qneg_b. change 0%Q with (inject_Z 0). rewrite Qcompare_inject_Z.
    destruct (Z.compare_spec z 0); try reflexivity. lia. }
  rewrite N, Qfloor_Z.
  replace (z <? 0) with false by (symmetry; apply Z.ltb_ge; lia).
  destruct (possible_at (Z.to_nat z) ltac:(lia)) as (c & G & P).
  rewrite G. exists c. split; [reflexivity | exact P].
Qed.

Lemma generateRandomString_from_spec (length : nat) (random : nat -> Q) :
  (forall i, (0 <= random i)%Q /\ (random i < 1)%Q) ->
  forall (i : nat) (text : string),
    Pkce.all_chars Pkce.from_possible text = true ->
    String.length (Pkce.generateRandomString_from i length random text) =
      (String.length text + length)%nat /\
    Pkce.all_chars Pkce.from_possible
      (Pkce.generateRandomString_from i length random text) = true.
Proof.
  intros Hr. induction length as [ | n IH]; intros i text Ht.
  - cbn. split; [lia | exact Ht].
  - cbn [Pkce.generateRandomString_from].
    destruct (draw_picks_a_character (random i) (proj1 (Hr i)) (proj2 (Hr i)))
      as (c & E & P).
    rewrite E.
    destruct (IH (S i) (text ++ String c EmptyString)%string) as [L A].
    + rewrite all_chars_append, Ht. cbn [Pkce.all_chars andb]. rewrite P. reflexivity.
    + split; [ | exact A]. rewrite L, length_append. cbn. lia.
Qed.

(** X24.  Whatever [Math.random] draws from the interval from 0 (included)
    to 1 (excluded), [generateRandomString(n)] has exactly [n] characters,
    each a letter or a digit of [possible]: the verifier has its 128
    characters and the state its 16. *)
Theorem generateRandomString_length_and_alphabet :
  forall (length : nat) (random : nat -> Q),
    (forall i, (0 <= random i)%Q /\ (random i < 1)%Q) ->
    String.length (Pkce.generateRandomString length random) = length /\
    Pkce.all_chars Pkce.from_possible (Pkce.generateRandomString length random) = true.
Proof.
  intros length random Hr.
  exact (generateRandomString_from_spec length random Hr 0%nat EmptyString eq_refl).
Qed.

(** A verifier from draws that are all one half. *)
Lemma generateRandomString_length_and_alphabet_witness :
  String.length (Pkce.generateRandomString 128 (fun _ => 1 # 2)) = 128%nat.
Proof.
  refine (proj1 (generateRandomString_length_and_alphabet 128 (fun _ => 1 # 2) _)).
  intros i. split; [discriminate | reflexivity].
Defined.

Lemma replacements_char_by_char (s : string) :
  Pkce.replace_all "/" "_" (Pkce.replace_all "+" "-" s) = Pkce.map_chars Pkce.to_url s.
Proof.
  induction s as [ | c r IH]; [reflexivity | ].
  cbn [Pkce.replace_all Pkce.map_chars]. rewrite IH. reflexivity.
Qed.

Lemma url_b64 (z : Z) :
  0 <= z < 64 -> Pkce.url_safe (Pkce.to_url (Pkce.b64 z)) = true.
Proof.
  intros H.
  assert (N : forall n : nat, (n < 64)%nat ->
              Pkce.url_safe (Pkce.to_url (Pkce.b64 (Z.of_nat n))) = true).
  { intros n Hn. do 64 (destruct n as [ | n]; [reflexivity | ]). lia. }
  rewrite <- (Z2Nat.id z) by lia. apply N. lia.
Qed.

Lemma strip_padding_cons (c : ascii) (r : string) :
  Pkce.url_safe c = true ->
  Pkce.strip_padding (String c r) = String c (Pkce.strip_padding r).
Proof.
  intros H. cbn [Pkce.strip_padding].
  destruct (Ascii.eqb_spec c "=") as [E | N]; [ | reflexivity].
  subst c. discriminate H.
Qed.

(** X25.  The code challenge made from a digest of 32 bytes (SHA-256) has
    exactly 43 characters, each a letter, a digit, [-] or [_]: no [+], no
    [/] and no padding is left in it. *)
Theorem code_challenge_is_url_safe :
  forall digest : list Z,
    List.length digest = 32%nat ->
    Forall (fun b => 0 <= b < 256) digest ->
    String.length (Pkce.generateCodeChallenge digest) = 43%nat /\
    Pkce.all_chars Pkce.url_safe (Pkce.generateCodeChallenge digest) = true.
Proof.
  intros digest Hlen Hrange.
  do 32 (destruct digest as [ | ? digest]; [discriminate Hlen | ]).
  destruct digest; [ | discriminate Hlen]. clear Hlen.
  repeat match goal with
         | H : Forall _ (_ :: _) |- _ =>
             let Hb := fresh "Hb" in
             inversion H as [ | ? ? Hb ?]; subst; clear H
         end.
  unfold Pkce.generateCodeChallenge. rewrite replacements_char_by_char.
  cbn [Pkce.btoa Pkce.map_chars].
  change (Pkce.to_url "=") with "="%char.
  rewrite !strip_padding_cons by (apply url_b64; Z.div_mod_to_equations; lia).
  change (Pkce.strip_padding "=") with EmptyString.
  split; [reflexivity | ].
  cbn [Pkce.all_chars].
  rewrite !url_b64 by (Z.div_mod_to_equations; lia). reflexivity.
Qed.

(** The digest whose bytes are all 255. *)
Lemma code_challenge_is_url_safe_witness :
  String.length (Pkce.generateCodeChallenge (repeat 255 32)) = 43%nat.
Proof.
  refine (proj1 (code_challenge_is_url_safe (repeat 255 32) eq_refl _)).
  cbn [repeat]. repeat constructor; lia.
Defined.

(* ================================================================= *)
(** ** The rate of polling *)

Lemma rate_step (p : Scheduler.page) (o : Scheduler.op) :
  Scheduler.tidy p ->
  Scheduler.by_timer p * 1000 +
    fold_right (fun t n => (Scheduler.clock p - Scheduler.created t) mod 1000 + n) 0
      (Scheduler.timers p) <= Scheduler.clock p ->
  let p' := Scheduler.step p o in
  Scheduler.by_timer p' * 1000 +
    fold_right (fun t n => (Scheduler.clock p' - Scheduler.created t) mod 1000 + n) 0
      (Scheduler.timers p') <= Scheduler.clock p'.
Proof.
  intros T H p'. subst p'.
  destruct (clear_if_set_tidy p T) as (Ht & Hn & Hc & Hb).
  assert (Hres : 0 <= fold_right
            (fun t n => (Scheduler.clock p - Scheduler.created t) mod 1000 + n) 0
            (Scheduler.timers p)).
  { destruct T as [_ T]. destruct (Scheduler.pollingInterval p) as [i | ].
    - destruct T as (_ & _ & c & E). rewrite E. cbn [fold_right Scheduler.created].
      pose proof (Z.mod_pos_bound (Scheduler.clock p - c) 1000). lia.
    - rewrite T. cbn. lia. }
  destruct o as [ | | ms]; cbn [Scheduler.step].
  - unfold Scheduler.startPolling, Scheduler.setInterval.
    cbn [Scheduler.by_timer Scheduler.clock Scheduler.timers].
    rewrite Ht, Hc, Hb. cbn [app fold_right Scheduler.created].
    rewrite Z.sub_diag. cbn. lia.
  - unfold Scheduler.stopPolling.
    cbn [Scheduler.by_timer Scheduler.clock Scheduler.timers].
    rewrite Ht, Hc, Hb. cbn. lia.
  - unfold Scheduler.wait. cbn [Scheduler.by_timer Scheduler.clock Scheduler.timers].
    destruct T as [_ T]. destruct (Scheduler.pollingInterval p) as [i | ].
    + destruct T as (_ & _ & c & E). rewrite E in *.
      cbn [fold_right Scheduler.created Scheduler.period] in *.
      unfold Scheduler.fires. cbn [Scheduler.created Scheduler.period].
      pose proof (N2Z.is_nonneg ms).
      Z.div_mod_to_equations. lia.
    + rewrite T in *. cbn [fold_right] in *. pose proof (N2Z.is_nonneg ms). lia.
Qed.

(** X26.  The timers never poll faster than once a second: however starts,
    stops and waits follow one another, the number of runs of
    [updatePlayerUI] started by a timer, times 1000 ms, is at most the time
    that has passed. *)
Theorem polling_rate_is_bounded :
  forall ops : list Scheduler.op,
    Scheduler.by_timer (Scheduler.run ops) * 1000 <= Scheduler.clock (Scheduler.run ops).
Proof.
  intros ops.
  assert (G : forall p,
             Scheduler.tidy p ->
             Scheduler.by_timer p * 1000 +
               fold_right (fun t n => (Scheduler.clock p - Scheduler.created t) mod 1000 + n)
                 0 (Scheduler.timers p) <= Scheduler.clock p ->
             let q := fold_left Scheduler.step ops p in
             Scheduler.tidy q /\
             Scheduler.by_timer q * 1000 +
               fold_right (fun t n => (Scheduler.clock q - Scheduler.created t) mod 1000 + n)
                 0 (Scheduler.timers q) <= Scheduler.clock q).
  { induction ops as [ | o ops IH]; intros p T H; cbn [fold_left].
    - split; assumption.
    - apply IH.
      + destruct o; cbn [Scheduler.step];
          [apply startPolling_tidy | apply stopPolling_tidy | apply wait_tidy];
          exact T.
      + apply rate_step; assumption. }
  destruct (G Scheduler.initial) as [T H].
  - unfold Scheduler.tidy, Scheduler.initial. cbn. split; [lia | reflexivity].
  - cbn. lia.
  - fold (Scheduler.run ops) in T, H.
    assert (0 <= fold_right
              (fun t n => (Scheduler.clock (Scheduler.run ops) - Scheduler.created t)
                          mod 1000 + n) 0 (Scheduler.timers (Scheduler.run ops))).
    { destruct T as [_ T].
      destruct (Scheduler.pollingInterval (Scheduler.run ops)) as [i | ].
      - destruct T as (_ & _ & c & E). rewrite E. cbn [fold_right Scheduler.created].
        pose proof (Z.mod_pos_bound (Scheduler.clock (Scheduler.run ops) - c) 1000). lia.
      - rewrite T. cbn. lia. }
    lia.
Qed.

(* ================================================================= *)
(** ** The seek bar and the buttons *)

Lemma num_gt_Z (a b : Z) : JS.num_gt (JS.num_of_Z a) (JS.num_of_Z b) = (b <? a).
Proof.
  unfold JS.num_gt, JS.num_of_Z. rewrite Qcompare_inject_Z.
  unfold Z.ltb. rewrite (Z.compare_antisym a b).
  destruct (a ?= b); reflexivity.
Qed.

(** What [updatePlayerUI] stores for a whole, positive duration is read
    back as that duration. *)
Lemma stored_duration_after_update (d : Z) (p : JS.value) (b : Client.bar) :
  0 < d ->
  Clicks.stored_duration
    (Client.updateProgress true true p (JS.VNum (JS.num_of_Z d)) b) = JS.num_of_Z d.
Proof.
  intros H. unfold Client.updateProgress. cbn [andb JS.truthy JS.num_of_Z].
  rewrite Qzero_b_inject_Z by lia. cbn [negb].
  unfold Clicks.stored_duration. cbn [Client.durationMs Clicks.prints_empty JS.parseInt_value].
  unfold JS.num_of_Z. do 2 f_equal.
  destruct (JS.Qneg_b (inject_Z d)); [apply Qceiling_Z | apply Qfloor_Z].
Qed.

Section SeekFacts.

Import JS Client.

Variable W : Type.
Variable fetch : request -> W -> option http_response * W.

Lemma seekToPosition_remote (positionSec : num) (s : st W) :
  useMpris (settings s) = false ->
  Clicks.seekToPosition W fetch positionSec s = (tt, s).
Proof.
  intros H. unfold Clicks.seekToPosition, bind, read. cbn [fst snd].
  rewrite H. reflexivity.
Qed.

Lemma seekToPosition_local (positionSec : num) (s : st W) :
  useMpris (settings s) = true ->
  Observe.requests (events (snd (Clicks.seekToPosition W fetch positionSec s))) =
    Observe.requests (events s) ++ [Clicks.seek_request positionSec] /\
  settings (snd (Clicks.seekToPosition W fetch positionSec s)) = settings s.
Proof.
  intros H. unfold Clicks.seekToPosition, bind, read, send, emit, ret.
  cbn [fst snd]. rewrite H.
  destruct (fetch (Clicks.seek_request positionSec) (world s)) as [[resp | ] w'].
  - destruct (ok resp); cbn [negb snd settings events];
      rewrite ?requests_app; cbn; rewrite ?app_nil_r; split; reflexivity.
  - cbn [snd settings events]. rewrite !requests_app. cbn. rewrite app_nil_r.
    split; reflexivity.
Qed.

End SeekFacts.

(** X27.  A click on the seek bar.  While no positive duration is stored
    the click does nothing at all.  With a duration stored, in remote mode
    no request is sent and nothing is shown; in MPRIS mode one seek request
    is sent.  After [updatePlayerUI] has stored
    a duration of [d] ms, a click at [x] of a bar [w] wide asks for the
    position [x / w * d / 1000] seconds. *)
Theorem seek_click_follows_stored_duration :
  forall (W : Type)
         (fetch : Client.request -> W -> option Client.http_response * W)
         (s : Client.st W) (clickX width : JS.num) (progressBar : bool)
         (b : Client.bar),
    let click := Clicks.seekClick W fetch clickX width progressBar b s in
    (JS.num_gt (Clicks.stored_duration b) (JS.num_of_Z 0) = false ->
       click = (b, s)) /\
    (JS.num_gt (Clicks.stored_duration b) (JS.num_of_Z 0) = true ->
     Client.useMpris (Client.settings s) = false ->
       snd click = s) /\
    (forall (d : Z) (x w : Q) (p : JS.value) (b0 : Client.bar),
       0 < d -> ~ (w == 0)%Q ->
       b = Client.updateProgress true true p (JS.VNum (JS.num_of_Z d)) b0 ->
       clickX = JS.Fin x -> width = JS.Fin w ->
       Client.useMpris (Client.settings s) = true ->
       exists q,
         (q == x / w * inject_Z d / 1000)%Q /\
         Observe.requests (Client.events (snd click)) =
           Observe.requests (Client.events s) ++ [Clicks.seek_request (JS.Fin q)]).
Proof.
  intros W fetch s clickX width progressBar b click. subst click.
  split; [ | split].
  - intros H. unfold Clicks.seekClick. rewrite H. reflexivity.
  - intros H Hm. unfold Clicks.seekClick, Client.bind. rewrite H.
    rewrite seekToPosition_remote by exact Hm.
    unfold Client.ret. cbn [fst snd]. reflexivity.
  - intros d x w p b0 Hd Hw Hb Hx Hwd Hm. subst clickX width.
    unfold Clicks.seekClick, Client.bind.
    rewrite Hb, stored_duration_after_update by exact Hd.
    rewrite num_gt_Z.
    replace (0 <? d) with true by (symmetry; apply Z.ltb_lt; exact Hd).
    assert (Zw : JS.Qzero_b w = false).
    { unfold JS.Qzero_b. destruct (Qcompare_spec w 0); try reflexivity.
      contradiction. }
    unfold JS.num_div at 2. rewrite Zw.
    unfold JS.num_mul, JS.num_of_Z. unfold JS.num_div.
    rewrite Qzero_b_inject_Z by lia.
    eexists. split; [ | ].
    2: { destruct (seekToPosition_local W fetch
                     (JS.Fin (Qred (Qred (Qred (x / w) * inject_Z d) / inject_Z 1000)))
                     s Hm) as [R _].
         destruct (Clicks.seekToPosition W fetch _ s) as [u s1].
         cbn [fst snd Client.ret] in *. unfold Client.ret. cbn [snd]. exact R. }
    rewrite !Qred_correct. reflexivity.
Qed.

(** A click in the middle of the bar, in remote mode and with nothing
    stored, and in MPRIS mode after a track of 200 seconds was shown. *)
Lemma seek_click_follows_stored_duration_witness :
  Clicks.seekClick Z (Scenario.fetch (fun _ => None)) (JS.Fin 50) (JS.Fin 100) true
    {| Client.width := None; Client.durationMs := None |}
    (Scenario.at_time (Scenario.connected 0) 5) =
    ({| Client.width := None; Client.durationMs := None |},
     Scenario.at_time (Scenario.connected 0) 5) /\
  snd (Clicks.seekClick Z (Scenario.fetch (fun _ => None)) (JS.Fin 50) (JS.Fin 100) true
         {| Client.width := None;
            Client.durationMs := Some (JS.VNum (JS.num_of_Z 200000)) |}
         (Scenario.at_time (Scenario.connected 0) 5)) =
    Scenario.at_time (Scenario.connected 0) 5 /\
  exists q,
    (q == 50 / 100 * inject_Z 200000 / 1000)%Q /\
    Observe.requests
      (Client.events
         (snd (Clicks.seekClick Z (Scenario.fetch (fun _ => None))
                 (JS.Fin 50) (JS.Fin 100) true
                 (Client.updateProgress true true (JS.VNum (JS.num_of_Z 30000))
                    (JS.VNum (JS.num_of_Z 200000))
                    {| Client.width := None; Client.durationMs := None |})
                 (Scenario.on_machine 5)))) =
      Observe.requests (Client.events (Scenario.on_machine 5)) ++
      [Clicks.seek_request (JS.Fin q)].
Proof.
  split; [ | split].
  - exact (proj1 (seek_click_follows_stored_duration Z (Scenario.fetch (fun _ => None))
                    (Scenario.at_time (Scenario.connected 0) 5)
                    (JS.Fin 50) (JS.Fin 100) true
                    {| Client.width := None; Client.durationMs := None |}) eq_refl).
  - exact (proj1 (proj2
             (seek_click_follows_stored_duration Z (Scenario.fetch (fun _ => None))
                (Scenario.at_time (Scenario.connected 0) 5)
                (JS.Fin 50) (JS.Fin 100) true
                {| Client.width := None;
                   Client.durationMs := Some (JS.VNum (JS.num_of_Z 200000)) |}))
             eq_refl eq_refl).
  - refine (proj2 (proj2
             (seek_click_follows_stored_duration Z
                (Scenario.fetch (fun _ => None))
                (Scenario.on_machine 5)
                (JS.Fin 50) (JS.Fin 100) true
                (Client.updateProgress true true (JS.VNum (JS.num_of_Z 30000))
                   (JS.VNum (JS.num_of_Z 200000))
                   {| Client.width := None; Client.durationMs := None |})))
             200000 50%Q 100%Q (JS.VNum (JS.num_of_Z 30000))
             {| Client.width := None; Client.durationMs := None |}
             _ _ eq_refl eq_refl eq_refl eq_refl).
    + lia.
    + discriminate.
Defined.

Lemma next_mode_cases (current : option string) :
  let nextMode :=
    Mpris.at_index Mpris.modes (Z.rem (Mpris.indexOf Mpris.modes current + 1) 3) in
  exists m, In m Mpris.modes /\ nextMode = Some m.
Proof.
  cbv zeta. unfold Mpris.indexOf, Mpris.modes, Mpris.indexOf_from.
  destruct (Mpris.is_str current "None");
    [exists "Track"; split; [simpl; tauto | reflexivity] | ].
  destruct (Mpris.is_str current "Track");
    [exists "Playlist"; split; [simpl; tauto | reflexivity] | ].
  destruct (Mpris.is_str current "Playlist");
    [exists "None"; split; [simpl; tauto | reflexivity] | ].
  exists "None". split; [simpl; tauto | reflexivity].
Qed.

(** X28.  The shuffle and repeat buttons, served by the plugin.  On every
    machine, in either mode and with or without a player, a click on
    shuffle sends one request and shows that shuffle was toggled, and a
    click on repeat sends one request and shows the text Repeat: followed
    by None, Track or Playlist. *)
Theorem shuffle_and_repeat_always_report :
  forall (W : Type) (execAsync : string -> W -> option string * W)
         (toString : JS.value -> string) (s : Client.st W),
    Client.events (snd (Clicks.shuffleClick W (Local.fetch execAsync) s)) =
      Client.events s ++
      [Client.Sent (Controls.plugin_request "shuffle"); Clicks.shuffle_notice] /\
    exists m,
      In m ["None"; "Track"; "Playlist"] /\
      Client.events (snd (Clicks.loopClick W (Local.fetch execAsync) toString s)) =
        Client.events s ++
        [Client.Sent (Controls.plugin_request "loop");
         Client.Toast "info" ("Repeat: " ++ m)].
Proof.
  intros W execAsync toString s. split.
  - unfold Clicks.shuffleClick, Client.bind, Client.send, Client.emit, Local.fetch.
    change (Local.route_of (Controls.plugin_request "shuffle"))
      with (Some Mpris.PostShuffle).
    unfold Mpris.handle. rewrite fire_and_forget.
    cbn [snd Client.events Client.ok Client.status Spec.success Mpris.status].
    change (Client.ok _) with true. cbn [snd Client.events].
    rewrite <- app_assoc. reflexivity.
  - unfold Clicks.loopClick, Client.bind, Client.send, Client.emit, Local.fetch.
    change (Local.route_of (Controls.plugin_request "loop")) with (Some Mpris.PostLoop).
    cbv beta iota. rewrite handle_loop. cbv zeta.
    destruct (next_mode_cases
                (fst (Mpris.playerctl W execAsync "loop" (Mpris.start (Client.world s)))))
      as (m & Hin & E).
    cbv zeta in E. rewrite E. exists m. split; [exact Hin | ].
    cbn [Mpris.opt_value Mpris.res_json Mpris.status Mpris.body].
    change (Client.ok _) with true.
    cbn [Client.json JS.json_wire JS.get_prop JS.obj_get].
    change (("mode" =? "mode")%string) with true.
    cbn [fst snd Client.events Client.settings Client.world].
    assert (T : JS.js_or (JS.VStr m) (JS.VStr "Changed") = JS.VStr m).
    { cbn [In Mpris.modes] in Hin.
      destruct Hin as [<- | [<- | [<- | []]]]; reflexivity. }
    rewrite T. cbn [Clicks.text]. rewrite <- app_assoc. reflexivity.
Qed.
